(** * Sentry module for Nuxt: configuration resolution and lifecycle hooks

    A shallow embedding of [lib/core/utils.ts], [lib/core/options.ts],
    [lib/core/hooks.ts] and the [setup] function of [lib/module.ts],
    together with the properties the specification states about them
    (Part II) and further properties of the hooks and resolvers
    (Part III).  What the specification states about arrays in the merges
    rests on lemmas about both resolvers and closes Part III.

    JavaScript values are modelled as trees ([value]); objects keep their
    keys in insertion order.  [lodash.mergewith], which the module uses for
    every configuration merge, is modelled after its implementation
    ([baseMerge], [baseMergeDeep], [assignMergeValue]).  Effectful code
    runs in a state and error monad over the [world] (logger output, the
    process-wide Sentry slot, the bundler's build configurations); what it
    only reads comes from a [host].  A run that leaves what the trees can
    represent ends in [OutsideModel]: nothing is claimed about it. *)

From Stdlib Require Import List String Ascii Bool ZArith Lia.
Import ListNotations.
Open Scope string_scope.
Open Scope list_scope.

(* ================================================================== *)
(** * Part I: definitions *)
(* ================================================================== *)

(** ** JavaScript values *)

(** Numbers are integers: every number literal of the module is one
    ([1.0], [2000]); a fractional number has no counterpart here.
    [VInst cls args] is the object built by [new cls(...args)]; it is not
    a plain object.  [VFun] is a function value (also a class). *)
Unset Elimination Schemes.
Inductive value : Type :=
| VUndef
| VNull
| VBool (b : bool)
| VNum (n : Z)
| VStr (s : string)
| VArr (xs : list value)
| VObj (fields : list (string * value))
| VInst (cls : string) (args : list value)
| VFun (name : string).
Set Elimination Schemes.

(** ** Induction on values *)

Section ValueInd.
Variable P : value -> Prop.
Hypothesis Hundef : P VUndef.
Hypothesis Hnull : P VNull.
Hypothesis Hbool : forall b, P (VBool b).
Hypothesis Hnum : forall n, P (VNum n).
Hypothesis Hstr : forall s, P (VStr s).
Hypothesis Harr : forall xs, Forall P xs -> P (VArr xs).
Hypothesis Hobj : forall fs, Forall (fun kv => P (snd kv)) fs -> P (VObj fs).
Hypothesis Hinst : forall cls args, Forall P args -> P (VInst cls args).
Hypothesis Hfun : forall name, P (VFun name).

Fixpoint value_ind (v : value) : P v :=
    match v with
    | VUndef => Hundef
    | VNull => Hnull
    | VBool b => Hbool b
    | VNum n => Hnum n
    | VStr s => Hstr s
    | VArr xs =>
        Harr xs ((fix all (l : list value) : Forall P l :=
                    match l with
                    | [] => Forall_nil P
                    | x :: l' => Forall_cons x (value_ind x) (all l')
                    end) xs)
    | VObj fs =>
        Hobj fs ((fix all (l : list (string * value))
                    : Forall (fun kv => P (snd kv)) l :=
                    match l with
                    | [] => Forall_nil _
                    | kv :: l' => Forall_cons kv (value_ind (snd kv)) (all l')
                    end) fs)
    | VInst cls args =>
        Hinst cls args ((fix all (l : list value) : Forall P l :=
                           match l with
                           | [] => Forall_nil P
                           | x :: l' => Forall_cons x (value_ind x) (all l')
                           end) args)
    | VFun name => Hfun name
    end.
End ValueInd.

(** A plain object: its own enumerable properties, in insertion order. *)
Definition obj : Type := list (string * value).

(** [ToBoolean]. *)
Definition truthy (v : value) : bool :=
  match v with
  | VUndef | VNull => false
  | VBool b => b
  | VNum n => negb (n =? 0)%Z
  | VStr s => negb (s =? "")
  | VArr _ | VObj _ | VInst _ _ | VFun _ => true
  end.

(** [a && b] and [a || b] on already evaluated operands. *)
Definition js_and (a b : value) : value := if truthy a then b else a.
Definition js_or (a b : value) : value := if truthy a then a else b.

Declare Scope js_scope.
Delimit Scope js_scope with js.
Infix "&&&" := js_and (at level 40, left associativity) : js_scope.
Infix "|||" := js_or (at level 50, left associativity) : js_scope.

Definition isUndef (v : value) : bool :=
  match v with VUndef => true | _ => false end.

Definition isArray (v : value) : bool :=
  match v with VArr _ => true | _ => false end.

(** ** Property access on plain objects *)

Fixpoint lookup (k : string) (o : obj) : option value :=
  match o with
  | [] => None
  | (k', v) :: o' => if k' =? k then Some v else lookup k o'
  end.

(** [o[k]]: [undefined] when the key is absent. *)
Definition get (k : string) (o : obj) : value :=
  match lookup k o with Some v => v | None => VUndef end.

(** [k in o]. *)
Definition has (k : string) (o : obj) : bool :=
  match lookup k o with Some _ => true | None => false end.

(** [o[k] = v]: an existing key keeps its position, a new key goes last. *)
Fixpoint set (k : string) (v : value) (o : obj) : obj :=
  match o with
  | [] => [(k, v)]
  | (k', v') :: o' => if k' =? k then (k, v) :: o' else (k', v') :: set k v o'
  end.

(** [delete o[k]]. *)
Definition delete (k : string) (o : obj) : obj :=
  filter (fun kv => negb (fst kv =? k)) o.

(** [Object.keys(o)] of a plain object. *)
Definition keys (o : obj) : list string := map fst o.

(** [v.k] for a value that is known not to be [null] or [undefined]:
    plain objects answer with the property, everything else the module
    reads a configuration key from has no such own property. *)
Definition field (k : string) (v : value) : value :=
  match v with VObj o => get k o | _ => VUndef end.

(** [v.k1.k2...] without the exceptions: a missing step reads as
    [undefined]. *)
Fixpoint getPath (path : list string) (v : value) : value :=
  match path with
  | [] => v
  | k :: path' => getPath path' (field k v)
  end.

(** ** Keys the model covers *)

(** Two kinds of keys behave differently in JavaScript from what an
    insertion-ordered list of own properties does.  A key that names a
    member of [Object.prototype] reads the inherited member where the
    object has no own one, and lodash guards [__proto__] and
    [constructor]; a key made of digits is an index and is enumerated
    before the other keys whatever the insertion order.  Objects with such
    keys are left out: [wf] excludes them, and every operation that
    enumerates the keys of an object answers [OutsideModel] on them. *)
Definition protoKeys : list string :=
  ["__proto__"; "constructor"; "hasOwnProperty"; "isPrototypeOf";
   "propertyIsEnumerable"; "toLocaleString"; "toString"; "valueOf";
   "__defineGetter__"; "__defineSetter__"; "__lookupGetter__"; "__lookupSetter__"].

Fixpoint allDigits (s : string) : bool :=
  match s with
  | EmptyString => true
  | String c s' =>
      andb (andb (48 <=? nat_of_ascii c)%nat (nat_of_ascii c <=? 57)%nat) (allDigits s')
  end.

Definition modelledKey (k : string) : bool :=
  negb (existsb (String.eqb k) protoKeys)
  && negb (negb (k =? "") && allDigits k).

Definition modelledKeys (o : obj) : bool :=
  forallb (fun kv => modelledKey (fst kv)) o.

(** ** Well-formed trees *)

(** An object has each key once, and only keys the model covers; [wf]
    asks it of every object inside a value. *)
Fixpoint nodupb (l : list string) : bool :=
  match l with
  | [] => true
  | x :: l' => negb (existsb (String.eqb x) l') && nodupb l'
  end.

Fixpoint wf (v : value) : bool :=
  match v with
  | VArr xs => forallb wf xs
  | VObj fs =>
      nodupb (map fst fs)
      && forallb (fun kv => modelledKey (fst kv)) fs
      && forallb (fun kv => match kv with (_, x) => wf x end) fs
  | VInst _ args => forallb wf args
  | _ => true
  end.

(** No array stands at [v] or on the way down [path] (the end of the path
    itself is not looked at). *)
Fixpoint pathClear (path : list string) (v : value) : bool :=
  match path with
  | [] => true
  | k :: path' => negb (isArray v) && pathClear path' (field k v)
  end.

(** No array anywhere in the plain-object part of a value. *)
Fixpoint arrayFree (v : value) : bool :=
  match v with
  | VArr _ => false
  | VObj fs => forallb (fun kv => match kv with (_, x) => arrayFree x end) fs
  | _ => true
  end.

(** No plain object inside a value has a [length] property, so that none
    is array-like. *)
Fixpoint lengthFree (v : value) : bool :=
  match v with
  | VObj fs =>
      forallb (fun kv => match kv with (k, x) => negb (k =? "length") && lengthFree x end)
              fs
  | _ => true
  end.

(** [v] is a plain object with the own key [k]. *)
Definition mentions (k : string) (v : value) : bool :=
  match v with VObj o => has k o | _ => false end.

(** A primitive value. *)
Definition flat (v : value) : bool :=
  match v with
  | VArr _ | VObj _ | VInst _ _ | VFun _ => false
  | _ => true
  end.

(** ** Strings *)

(** [String.prototype.toLowerCase] on the ASCII range; bytes above 127
    (the UTF-8 encoding of other characters) are left as they are.  The
    module only compares the result with the word false, and no character
    outside ASCII lowers to one of its letters. *)
Definition lowerAscii (c : ascii) : ascii :=
  let n := nat_of_ascii c in
  if andb (65 <=? n)%nat (n <=? 90)%nat then ascii_of_nat (n + 32) else c.

Fixpoint toLowerCase (s : string) : string :=
  match s with
  | EmptyString => EmptyString
  | String c s' => String (lowerAscii c) (toLowerCase s')
  end.

(** Equality of strings up to the case of the ASCII letters: what the
    specification calls equal case-insensitively.  It is stated without
    [toLowerCase], to compare [envToBool] with. *)
Definition upperAscii (c : ascii) : ascii :=
  let n := nat_of_ascii c in
  if andb (97 <=? n)%nat (n <=? 122)%nat then ascii_of_nat (n - 32) else c.

Fixpoint equalsIgnoringCase (s t : string) : bool :=
  match s, t with
  | EmptyString, EmptyString => true
  | String a s', String b t' =>
      Ascii.eqb (upperAscii a) (upperAscii b) && equalsIgnoringCase s' t'
  | _, _ => false
  end.

(** ** lib/core/utils.ts *)

Definition boolToText (b : bool) : string :=
  if b then "enabled" else "disabled".

(** [Boolean(env && env.toLowerCase() !== 'false' && env !== '0')].  With
    [env] undefined the first [&&] short-circuits before [toLowerCase]
    is called. *)
Definition envToBool (env : option string) : bool :=
  match env with
  | None => truthy VUndef
  | Some s =>
      truthy (VStr s
              &&& VBool (negb (toLowerCase s =? "false"))
              &&& VBool (negb (s =? "0")))%js
  end.

(** [Boolean(options.initialize && options.dsn)]. *)
Definition canInitialize (options : obj) : bool :=
  truthy (get "initialize" options &&& get "dsn" options)%js.

(** [!options.disabled && !options.disableClientSide]. *)
Definition clientSentryEnabled (options : obj) : bool :=
  negb (truthy (get "disabled" options))
  && negb (truthy (get "disableClientSide" options)).

Definition serverSentryEnabled (options : obj) : bool :=
  negb (truthy (get "disabled" options))
  && negb (truthy (get "disableServerSide" options)).

(** ** Outcomes of effectful code *)

(** A JavaScript exception, or [OutsideModel] when the run reaches an
    object shape the tree model does not represent (see [mergeValue]). *)
Inductive error : Type :=
| TypeError (msg : string)
| RangeError (msg : string)
| Error (msg : string)
| OutsideModel.

Inductive result (A : Type) : Type :=
| Ok (a : A)
| Err (e : error).
Arguments Ok {A} a.
Arguments Err {A} e.

Definition bind {A B : Type} (m : result A) (k : A -> result B) : result B :=
  match m with
  | Ok a => k a
  | Err e => Err e
  end.

Notation "x <- m ;; k" := (bind m (fun x => k))
  (at level 61, m at next level, right associativity).

(** ** lodash.mergewith *)

(** A customizer gets [(objValue, srcValue)]; answering [undefined]
    leaves the decision to the default merge. *)
Definition customizer : Type := value -> value -> value.

Definition customized (c : option customizer) (objValue srcValue : value) : value :=
  match c with
  | Some f => f objValue srcValue
  | None => VUndef
  end.

(** [assignMergeValue(object, key, value)]: [undefined] is only written
    to a key the object does not have yet. *)
Definition assignMergeValue (object : obj) (key : string) (v : value) : obj :=
  if isUndef v && has key object then object else set key v object.

(** [Number.MAX_SAFE_INTEGER], the largest length lodash's [isLength]
    accepts. *)
Definition MAX_SAFE_INTEGER : Z := 9007199254740991.

(** The greatest length of an array: [Array(n)] throws beyond it. *)
Definition MAX_ARRAY_LENGTH : Z := 4294967295.

(** The array an array source is merged into ([baseMergeDeep]): the
    destination itself when it is an array; the copy [copyArray] makes of
    an array-like object, that is of a plain object whose [length] is a
    number [isLength] accepts (its index properties are not represented,
    so the copy holds [undefined] at every index; an object with keys the
    model does not cover is [OutsideModel]; [copyArray] begins with
    [Array(length)], which throws when the length is no array length); a
    fresh [[]] otherwise.  Whether a class instance is array-like is not
    known. *)
Definition arrayBase (objValue : value) : result (list value) :=
  match objValue with
  | VArr os => Ok os
  | VObj o =>
      match get "length" o with
      | VNum n =>
          if (0 <=? n)%Z && (n <=? MAX_SAFE_INTEGER)%Z then
            if (n <=? MAX_ARRAY_LENGTH)%Z then
              if modelledKeys o then Ok (repeat VUndef (Z.to_nat n))
              else Err OutsideModel
            else Err (RangeError "Invalid array length")
          else Ok []
      | _ => Ok []
      end
  | VInst _ _ => Err OutsideModel
  | _ => Ok []
  end.

(** The value [baseMerge] assigns at one key, given what the destination
    holds there ([objValue], [undefined] when absent) and the source value.

    - a customizer result other than [undefined] is taken as it is;
    - an array source is merged index by index into the destination
      array, into the copy of an array-like destination, or into a fresh
      [[]] when the destination is neither ([arrayBase]);
    - a plain-object source is merged key by key into the destination
      object, or into a fresh [{}] when the destination is a primitive or
      absent;
    - any other source (primitive, function, class instance) is assigned.

    lodash merges a plain-object source into a destination that is an
    array or a class instance by adding properties to that very object;
    trees have no array with named properties, so this is [OutsideModel].
    So is a plain-object source over a function, which releases of lodash
    treat differently, and a source key the model does not cover. *)
Fixpoint mergeValue (c : option customizer) (objValue srcValue : value)
  {struct srcValue} : result value :=
  let nv := customized c objValue srcValue in
  if negb (isUndef nv) then Ok nv else
  match srcValue with
  | VArr ss =>
      let fix elems (os ss : list value) {struct ss} : result (list value) :=
        match ss with
        | [] => Ok os
        | s :: ss' =>
            match os with
            | o :: os' =>
                v <- mergeValue c o s ;;
                rest <- elems os' ss' ;;
                Ok ((if isUndef v then o else v) :: rest)
            | [] =>
                v <- mergeValue c VUndef s ;;
                rest <- elems [] ss' ;;
                Ok (v :: rest)
            end
        end in
      os <- arrayBase objValue ;;
      r <- elems os ss ;;
      Ok (VArr r)
  | VObj sf =>
      let fix fields (object : obj) (sf : obj) {struct sf} : result obj :=
        match sf with
        | [] => Ok object
        | (k, s) :: sf' =>
            if modelledKey k then
              v <- mergeValue c (get k object) s ;;
              fields (assignMergeValue object k v) sf'
            else Err OutsideModel
        end in
      match objValue with
      | VObj o => r <- fields o sf ;; Ok (VObj r)
      | VArr _ | VInst _ _ | VFun _ => Err OutsideModel
      | _ => r <- fields [] sf ;; Ok (VObj r)
      end
  | _ => Ok srcValue
  end.

(** The index-wise merge of a source array into a destination array. *)
Definition mergeElems (c : option customizer) : list value -> list value -> result (list value) :=
  fix elems (os ss : list value) {struct ss} : result (list value) :=
    match ss with
    | [] => Ok os
    | s :: ss' =>
        match os with
        | o :: os' =>
            v <- mergeValue c o s ;;
            rest <- elems os' ss' ;;
            Ok ((if isUndef v then o else v) :: rest)
        | [] =>
            v <- mergeValue c VUndef s ;;
            rest <- elems [] ss' ;;
            Ok (v :: rest)
        end
    end.

(** [baseMerge(object, source)] for a plain-object source: every source
    key in turn. *)
Definition mergeFields (c : option customizer) : obj -> obj -> result obj :=
  fix fields (object : obj) (sf : obj) {struct sf} : result obj :=
    match sf with
    | [] => Ok object
    | (k, s) :: sf' =>
        if modelledKey k then
          v <- mergeValue c (get k object) s ;;
          fields (assignMergeValue object k v) sf'
        else Err OutsideModel
    end.

(** [baseMerge(object, source)] for any truthy source.  Booleans and
    numbers have no enumerable keys.  A non-empty array or string source
    would write index keys into the object, and the keys of a function or
    class instance are not known: these are [OutsideModel]. *)
Definition baseMerge (c : option customizer) (object : obj) (source : value)
  : result obj :=
  match source with
  | VObj sf => mergeFields c object sf
  | VArr [] => Ok object
  | VArr _ | VStr _ | VInst _ _ | VFun _ => Err OutsideModel
  | _ => Ok object
  end.

(** [merge(object, ...sources)] and [mergeWith(object, ...sources, c)]:
    falsy sources are skipped, the others merged from left to right. *)
Fixpoint mergeAll (c : option customizer) (object : obj) (sources : list value)
  : result obj :=
  match sources with
  | [] => Ok object
  | source :: rest =>
      if truthy source
      then object' <- baseMerge c object source ;; mergeAll c object' rest
      else mergeAll c object rest
  end.

Definition merge (object : obj) (sources : list value) : result obj :=
  mergeAll None object sources.

Definition mergeWith (object : obj) (sources : list value) (c : customizer)
  : result obj :=
  mergeAll (Some c) object sources.

(** [Array.prototype.concat] with one argument: an array argument is
    spread, anything else is appended as one element. *)
Definition concat (xs : list value) (v : value) : list value :=
  match v with
  | VArr ys => xs ++ ys
  | _ => xs ++ [v]
  end.

(** ** Object operations that can throw *)

Definition typeError_read : error :=
  TypeError "Cannot read properties of undefined or null".
Definition typeError_set : error :=
  TypeError "Cannot set properties of a value that is not an object".
Definition typeError_keys : error :=
  TypeError "Cannot convert undefined or null to object".
Definition typeError_ctor : error := TypeError "is not a constructor".
Definition typeError_push : error := TypeError "push is not a function".

(** [v.k] for the configuration keys the module reads.  None of them is
    [length], an index, or a property of a built-in prototype, so only a
    plain object can answer with something else than [undefined]; what
    a class instance holds is not known. *)
Definition prop (v : value) (k : string) : result value :=
  match v with
  | VUndef | VNull => Err typeError_read
  | VObj o => Ok (get k o)
  | VInst _ _ => Err OutsideModel
  | _ => Ok VUndef
  end.

(** [v.k = x] (the module's files are strict-mode code). *)
Definition setProp (v : value) (k : string) (x : value) : result value :=
  match v with
  | VObj o => Ok (VObj (set k x o))
  | VArr _ | VInst _ _ | VFun _ => Err OutsideModel
  | _ => Err typeError_set
  end.

(** [Object.keys(v)].  Index keys (of non-empty arrays and strings, and
    of objects) are not represented. *)
Definition objectKeys (v : value) : result (list string) :=
  match v with
  | VUndef | VNull => Err typeError_keys
  | VObj o => if modelledKeys o then Ok (keys o) else Err OutsideModel
  | VArr [] => Ok []
  | VStr s => if s =? "" then Ok [] else Err OutsideModel
  | VArr _ | VInst _ _ => Err OutsideModel
  | VBool _ | VNum _ | VFun _ => Ok []
  end.

(** [Object.keys(v).length].  For a string this is its number of code
    units; the module only asks whether the number is zero. *)
Definition objectKeysLength (v : value) : result nat :=
  match v with
  | VUndef | VNull => Err typeError_keys
  | VObj o => Ok (List.length o)
  | VArr xs => Ok (List.length xs)
  | VStr s => Ok (String.length s)
  | VInst _ _ => Err OutsideModel
  | VBool _ | VNum _ | VFun _ => Ok 0
  end.

(** [new ctor(...args)]: the instance carries the class name and the
    constructor arguments. *)
Definition construct (ctor : value) (args : list value) : result value :=
  match ctor with
  | VFun name => Ok (VInst name args)
  | _ => Err typeError_ctor
  end.

Definition isBoolean (v : value) : bool :=
  match v with VBool _ => true | _ => false end.

Definition isFunction (v : value) : bool :=
  match v with VFun _ => true | _ => false end.

(** The double quote, for the messages that quote a name. *)
Definition dquote : string := String (ascii_of_nat 34) EmptyString.

(** ** The world around the module *)

(** What the logger ([consola]) is told. *)
Inductive logmsg : Type :=
| Warn (msg : string) (args : list value)
| Info (msg : string)
| Success (msg : string).

(** Mutable state: the logger's output (oldest first), the process-wide
    [process.sentry] slot, the configurations [Sentry.init] was called
    with, the number of [close] calls, and the build-configuration
    objects of the bundler, by address. *)
Record world : Type := mkWorld {
  logged : list logmsg;
  process_sentry : bool;
  sentry_inits : list value;
  sentry_closes : nat;
  configs : list obj
}.

(** What the module reads and never writes: the process environment; the
    resolved Nuxt options ([dev], [_build], [sentry], [buildDir],
    [router.base], [build.publicPath], [publicRuntimeConfig]); the
    packages and files that [import] can load, each with its exports in
    the order [for ... in] enumerates them ([None] when the import
    rejects); the exports of [@sentry/integrations]; the version the
    Sentry CLI proposes ([None] when the CLI is missing or fails); Node's
    [path.posix.join] and [path.resolve]. *)
Record host : Type := mkHost {
  env : string -> option string;
  nuxt_dev : value;
  nuxt__build : value;
  nuxt_sentry : value;
  nuxt_buildDir : string;
  nuxt_router_base : value;
  nuxt_publicPath : value;
  nuxt_publicRuntimeConfig : value;
  packages : string -> option obj;
  Integrations : obj;
  proposeVersion : option string;
  posix_join : string -> string -> string;
  path_resolve : string -> string -> string
}.

(** Computations that read and write the world and may throw. *)
Definition M (A : Type) : Type := world -> result (A * world).

Definition ret {A : Type} (a : A) : M A := fun w => Ok (a, w).

Definition mbind {A B : Type} (m : M A) (k : A -> M B) : M B :=
  fun w => match m w with
           | Ok (a, w') => k a w'
           | Err e => Err e
           end.

Definition lift {A : Type} (r : result A) : M A :=
  fun w => match r with Ok a => Ok (a, w) | Err e => Err e end.

Definition throw {A : Type} (e : error) : M A := fun _ => Err e.

Notation "x <~ m ;; k" := (mbind m (fun x => k))
  (at level 61, m at next level, right associativity).
Notation "m ;;; k" := (mbind m (fun _ => k))
  (at level 61, right associativity).

(** The world after the logger printed [msgs]. *)
Definition addLog (msgs : list logmsg) (w : world) : world :=
  mkWorld (logged w ++ msgs) (process_sentry w) (sentry_inits w)
          (sentry_closes w) (configs w).

Definition logger_warn (msg : string) (args : list value) : M unit :=
  fun w => Ok (tt, addLog [Warn msg args] w).

Definition logger_info (msg : string) : M unit :=
  fun w => Ok (tt, addLog [Info msg] w).

Definition logger_success (msg : string) : M unit :=
  fun w => Ok (tt, addLog [Success msg] w).

Definition envValue (h : host) (name : string) : value :=
  match env h name with Some s => VStr s | None => VUndef end.

(** ** lib/core/options.ts *)

Definition PLUGGABLE_INTEGRATIONS : list string :=
  ["CaptureConsole"; "Debug"; "Dedupe"; "ExtraErrorData"; "ReportingObserver";
   "RewriteFrames"; "Vue"].

Definition BROWSER_INTEGRATIONS : list string :=
  ["InboundFilters"; "FunctionToString"; "TryCatch"; "Breadcrumbs";
   "GlobalHandlers"; "LinkedErrors"; "UserAgent"].

Definition SERVER_INTEGRATIONS : list string :=
  ["CaptureConsole"; "Debug"; "Dedupe"; "ExtraErrorData"; "RewriteFrames";
   "Modules"; "Transaction"].

(** [xs.includes(s)] for an array of strings. *)
Definition includes (xs : list string) (s : string) : bool :=
  existsb (String.eqb s) xs.

(** [xs.includes(v)] for an array of strings and any value: only an equal
    string is found. *)
Definition includesValue (xs : list string) (v : value) : bool :=
  match v with
  | VStr s => includes xs s
  | _ => false
  end.

(** [vs.includes(s)] for any array and a string. *)
Definition arrayIncludes (vs : list value) (s : string) : bool :=
  existsb (fun v => match v with VStr t => t =? s | _ => false end) vs.

(** [Object.keys(integrations).filter(key => integrations[key])]. *)
Definition filterDisabledIntegration (integrations : value) : result (list string) :=
  ks <- objectKeys integrations ;;
  Ok (filter (fun key => truthy (field key integrations)) ks).

(** The names of the functions a package exports. *)
Definition getApiMethods (h : host) (packageName : string) : M (list string) :=
  match packages h packageName with
  | None => throw (Error "Cannot find module")
  | Some packageApi =>
      ret (map fst (filter (fun kv => isFunction (snd kv)) packageApi))
  end.

(** [String.prototype.trim].  A string stands for the UTF-8 encoding of
    its characters.  The white space [trim] removes is ECMAScript's
    [WhiteSpace] and [LineTerminator]: the ASCII characters 9 to 13 and
    32 ([isSpace]), U+00A0 (bytes C2 A0), and, three bytes each
    ([wideSpace]), U+1680, U+2000 to U+200A, U+2028, U+2029, U+202F,
    U+205F, U+3000 and U+FEFF. *)
Definition isSpace (c : ascii) : bool :=
  let n := nat_of_ascii c in
  orb (n =? 32)%nat (andb (9 <=? n)%nat (n <=? 13)%nat).

Definition noBreakSpace (c d : ascii) : bool :=
  ((nat_of_ascii c =? 194) && (nat_of_ascii d =? 160))%nat.

Definition wideSpace (c d e : ascii) : bool :=
  let c := nat_of_ascii c in
  let d := nat_of_ascii d in
  let e := nat_of_ascii e in
  ((c =? 225) && (d =? 154) && (e =? 128)
   || (c =? 226) && (d =? 128)
      && ((128 <=? e) && (e <=? 138) || (e =? 168) || (e =? 169) || (e =? 175))
   || (c =? 226) && (d =? 129) && (e =? 159)
   || (c =? 227) && (d =? 128) && (e =? 128)
   || (c =? 239) && (d =? 187) && (e =? 191))%nat.

(** The rest of a string after the white space character it starts
    with, if it starts with one. *)
Definition whitePrefix (s : string) : option string :=
  match s with
  | EmptyString => None
  | String c s1 =>
      if isSpace c then Some s1 else
      match s1 with
      | EmptyString => None
      | String d s2 =>
          if noBreakSpace c d then Some s2 else
          match s2 with
          | EmptyString => None
          | String e s3 => if wideSpace c d e then Some s3 else None
          end
      end
  end.

Fixpoint trimStart (s : string) : string :=
  match s with
  | EmptyString => EmptyString
  | String c s1 =>
      if isSpace c then trimStart s1 else
      match s1 with
      | EmptyString => s
      | String d s2 =>
          if noBreakSpace c d then trimStart s2 else
          match s2 with
          | EmptyString => s
          | String e s3 => if wideSpace c d e then trimStart s3 else s
          end
      end
  end.

(** White space only. *)
Fixpoint allWhite (s : string) : bool :=
  match s with
  | EmptyString => true
  | String c s1 =>
      if isSpace c then allWhite s1 else
      match s1 with
      | EmptyString => false
      | String d s2 =>
          if noBreakSpace c d then allWhite s2 else
          match s2 with
          | EmptyString => false
          | String e s3 => wideSpace c d e && allWhite s3
          end
      end
  end.

(** The string without the longest end of it that is white space. *)
Fixpoint trimEnd (s : string) : string :=
  match s with
  | EmptyString => EmptyString
  | String c s' => if allWhite s then EmptyString else String c (trimEnd s')
  end.

Definition trim (s : string) : string := trimEnd (trimStart s).

(** [resolveRelease]: [undefined] when the configuration already names a
    release or when the CLI cannot propose one. *)
Definition resolveRelease (h : host) (moduleOptions : obj) : M value :=
  match get "config" moduleOptions with
  | VObj config =>
      if negb (has "release" config)
      then match proposeVersion h with
           | Some v => ret (VStr (trim v))
           | None => ret VUndef
           end
      else ret VUndef
  | VArr _ | VFun _ =>
      match proposeVersion h with
      | Some v => ret (VStr (trim v))
      | None => ret VUndef
      end
  | VInst _ _ => throw OutsideModel
  | _ => throw (TypeError "Cannot use 'in' operator")
  end.

Definition defaultLazyOptions : obj :=
  [("injectMock", VBool true);
   ("injectLoadHook", VBool false);
   ("mockApiMethods", VBool true);
   ("chunkName", VStr "sentry");
   ("webpackPrefetch", VBool false);
   ("webpackPreload", VBool false)].

Definition resolveLazyOptions (options : obj) (apiMethods : list string) : M obj :=
  if truthy (get "lazy" options) then
    lazy <~ lift (merge [] [VObj defaultLazyOptions; get "lazy" options]) ;;
    if negb (truthy (get "injectMock" lazy)) then
      ret (set "lazy" (VObj (set "mockApiMethods" (VArr []) lazy)) options)
    else
      match get "mockApiMethods" lazy with
      | VBool true =>
          ret (set "lazy"
                 (VObj (set "mockApiMethods" (VArr (map VStr apiMethods)) lazy))
                 options)
      | VArr mockMethods =>
          let found := filter (fun method => includesValue apiMethods method) mockMethods in
          let notfoundMethods :=
            filter (fun method => negb (includesValue apiMethods method)) mockMethods in
          (if negb (List.length notfoundMethods =? 0)%nat
           then logger_warn
                  "Some specified methods to mock weren't found in @sentry/browser:"
                  [VArr notfoundMethods]
           else ret tt) ;;;
          let mocked :=
            if negb (arrayIncludes found "captureException")
            then found ++ [VStr "captureException"]
            else found in
          ret (set "lazy" (VObj (set "mockApiMethods" (VArr mocked) lazy)) options)
      | _ => ret (set "lazy" (VObj lazy) options)
      end
  else ret options.

Definition defaultTracingOptions : obj :=
  [("tracesSampleRate", VNum 1);
   ("vueOptions",
     VObj [("tracing", VBool true);
           ("tracingOptions",
             VObj [("hooks", VArr [VStr "mount"; VStr "update"]);
                   ("timeout", VNum 2000);
                   ("trackComponents", VBool true)])]);
   ("browserOptions", VObj [])].

Definition resolveTracingOptions (options : obj) : result obj :=
  if truthy (get "tracing" options) then
    tracing <- merge defaultTracingOptions
                 [if isBoolean (get "tracing" options) then VObj []
                  else get "tracing" options] ;;
    let options := set "tracing" (VObj tracing) options in
    rate <- prop (get "config" options) "tracesSampleRate" ;;
    if negb (truthy rate) then
      config <- setProp (get "config" options) "tracesSampleRate"
                  (get "tracesSampleRate" tracing) ;;
      Ok (set "config" config options)
    else Ok options
  else Ok options.

(** [delete v[name]]. *)
Definition deleteProp (name : string) (v : value) : value :=
  match v with
  | VObj o => VObj (delete name o)
  | _ => v
  end.

(** The validation loop of both resolvers, over the snapshot [names] of
    [Object.keys(options[side])]: a name that is not recognized is
    reported and deleted from [options[side]]. *)
Fixpoint dropUnrecognized (unrecognized : string -> bool) (warning : string -> string)
  (side : string) (names : list string) (options : obj) : M obj :=
  match names with
  | [] => ret options
  | name :: rest =>
      if unrecognized name then
        logger_warn (warning name) [] ;;;
        dropUnrecognized unrecognized warning side rest
          (set side (deleteProp name (get side options)) options)
      else dropUnrecognized unrecognized warning side rest options
  end.

(** [!PLUGGABLE_INTEGRATIONS.includes(name) && !BROWSER_INTEGRATIONS.includes(name)] *)
Definition clientUnrecognized (name : string) : bool :=
  negb (includes PLUGGABLE_INTEGRATIONS name)
  && negb (includes BROWSER_INTEGRATIONS name).

(** [!SERVER_INTEGRATIONS.includes(name)] *)
Definition serverUnrecognized (name : string) : bool :=
  negb (includes SERVER_INTEGRATIONS name).

Definition clientWarning (name : string) : string :=
  ("Sentry clientIntegration " ++ dquote ++ name ++ dquote
   ++ " is not recognized and will be ignored.")%string.

Definition serverWarning (name : string) : string :=
  ("Sentry serverIntegration " ++ dquote ++ name ++ dquote
   ++ " is not recognized and will be ignored.")%string.

(** The validation of the client integrations (the [for] loop of
    [resolveClientOptions]). *)
Definition validateClientIntegrations (options : obj) : M obj :=
  names <~ lift (objectKeys (get "clientIntegrations" options)) ;;
  dropUnrecognized clientUnrecognized clientWarning "clientIntegrations" names options.

(** The validation of the server integrations (the [for] loop of
    [resolveServerOptions]). *)
Definition validateServerIntegrations (options : obj) : M obj :=
  names <~ lift (objectKeys (get "serverIntegrations" options)) ;;
  dropUnrecognized serverUnrecognized serverWarning "serverIntegrations" names options.

(** [{ ...target, ...v }] for the own properties of [v]. *)
Definition spread (target : obj) (v : value) : result obj :=
  match v with
  | VObj o =>
      if modelledKeys o
      then Ok (fold_left (fun acc kv => set (fst kv) (snd kv) acc) o target)
      else Err OutsideModel
  | VArr [] => Ok target
  | VStr s => if s =? "" then Ok target else Err OutsideModel
  | VArr _ | VInst _ _ => Err OutsideModel
  | _ => Ok target
  end.

Definition resolveClientOptions (h : host) (moduleOptions : obj) : M value :=
  options <~ lift (merge [] [VObj moduleOptions]) ;;
  clientConfig <~ lift (merge [] [get "config" options; get "clientConfig" options]) ;;
  let options := set "clientConfig" (VObj clientConfig) options in
  apiMethods <~ getApiMethods h "@sentry/browser" ;;
  options <~ resolveLazyOptions options apiMethods ;;
  options <~ lift (resolveTracingOptions options) ;;
  options <~ validateClientIntegrations options ;;
  config <~ lift (spread [("dsn", get "dsn" options)] (get "clientConfig" options)) ;;
  enabled <~ lift (filterDisabledIntegration (get "clientIntegrations" options)) ;;
  ret (VObj
    [("PLUGGABLE_INTEGRATIONS", VArr (map VStr PLUGGABLE_INTEGRATIONS));
     ("BROWSER_INTEGRATIONS", VArr (map VStr BROWSER_INTEGRATIONS));
     ("dev", nuxt_dev h);
     ("runtimeConfigKey", get "runtimeConfigKey" options);
     ("config", VObj config);
     ("lazy", get "lazy" options);
     ("apiMethods", VArr (map VStr apiMethods));
     ("logMockCalls", get "logMockCalls" options);
     ("tracing", get "tracing" options);
     ("initialize", VBool (canInitialize options));
     ("integrations",
       VObj (fold_left
               (fun res key => set key (field key (get "clientIntegrations" options)) res)
               enabled []))]).

(** [new Integrations[name](opt)] when [opt] has keys, [new
    Integrations[name]()] otherwise. *)
Definition instantiate (h : host) (integrations : value) (name : string) : result value :=
  let opt := field name integrations in
  n <- objectKeysLength opt ;;
  if negb (n =? 0)%nat
  then construct (get name (Integrations h)) [opt]
  else construct (get name (Integrations h)) [].

(** [names.map(f)] for an [f] that may throw. *)
Fixpoint mapResult {A B : Type} (f : A -> result B) (xs : list A) : result (list B) :=
  match xs with
  | [] => Ok []
  | x :: xs' => y <- f x ;; ys <- mapResult f xs' ;; Ok (y :: ys)
  end.

(** The overrides of the run-time configuration: [config] and
    [serverConfig] of [publicRuntimeConfig[runtimeConfigKey]], when
    [publicRuntimeConfig] is not a function and has the key.  A key that
    is not a string would be converted to one, and [in] also finds
    inherited members: both are [OutsideModel]. *)
Definition runtimeSources (h : host) (options : obj) : result (option (value * value)) :=
  let publicRuntimeConfig := nuxt_publicRuntimeConfig h in
  let runtimeConfigKey := get "runtimeConfigKey" options in
  if negb (isFunction publicRuntimeConfig) && truthy runtimeConfigKey then
    match runtimeConfigKey, publicRuntimeConfig with
    | VStr key, VObj prc =>
        if negb (modelledKey key) then Err OutsideModel
        else if has key prc then
          rc <- prop (get key prc) "config" ;;
          rs <- prop (get key prc) "serverConfig" ;;
          Ok (Some (rc, rs))
        else Ok None
    | _, VObj _ => Err OutsideModel
    | _, VArr _ | _, VInst _ _ => Err OutsideModel
    | _, _ => Err (TypeError "Cannot use 'in' operator")
    end
  else Ok None.

(** The merge of the run-time configuration into [options.config]. *)
Definition mergeRuntimeConfig (h : host) (options : obj) : result obj :=
  overrides <- runtimeSources h options ;;
  match overrides with
  | Some (rc, rs) =>
      match get "config" options with
      | VObj config =>
          config' <- merge config [rc; rs] ;;
          Ok (set "config" (VObj config') options)
      | _ => Err OutsideModel
      end
  | None => Ok options
  end.



Definition resolveServerOptions (h : host) (moduleOptions : obj) : M value :=
  options <~ lift (merge [] [VObj moduleOptions]) ;;
  options <~ validateServerIntegrations options ;;
  enabled <~ lift (filterDisabledIntegration (get "serverIntegrations" options)) ;;
  instances <~ lift (mapResult (instantiate h (get "serverIntegrations" options)) enabled) ;;
  let defaultConfig : obj :=
    [("dsn", get "dsn" options); ("intergrations", VArr instances)] in
  config <~ lift (merge defaultConfig [get "config" options; get "serverConfig" options]) ;;
  let options := set "config" (VObj config) options in
  options <~ lift (mergeRuntimeConfig h options) ;;
  apiMethods <~ getApiMethods h "@sentry/node" ;;
  options <~ resolveLazyOptions options apiMethods ;;
  options <~ lift (resolveTracingOptions options) ;;
  ret (VObj
    [("config", get "config" options);
     ("apiMethods", VArr (map VStr apiMethods));
     ("lazy", get "lazy" options);
     ("logMockCalls", get "logMockCalls" options)]).

(** ** lib/core/hooks.ts *)

Definition RESOLVED_RELEASE_FILENAME : string := "sentry.release.config.js".

Definition missingWebpackPlugin : string :=
  ("The " ++ dquote ++ "@sentry/webpack-plugin" ++ dquote
   ++ " package must be installed as a dev dependency to use the "
   ++ dquote ++ "publishRelease" ++ dquote ++ " option.")%string.

Definition releaseNotPublished : string :=
  ("Sentry release will not be published because " ++ dquote ++ "config.release"
   ++ dquote ++ " was not set nor it "
   ++ "was possible to determine it automatically from the repository")%string.

Definition startsWithSlash (s : string) : bool :=
  match s with
  | String c _ => (nat_of_ascii c =? 47)%nat
  | EmptyString => false
  end.

(** [xs.push(v)] on whatever [xs] is.  An object may bring a [push] of
    its own, of which nothing is known. *)
Definition push (xs : value) (v : value) : result value :=
  match xs with
  | VArr l => Ok (VArr (l ++ [v]))
  | VUndef | VNull => Err typeError_read
  | VObj o => if isFunction (get "push" o) then Err OutsideModel else Err typeError_push
  | VInst _ _ => Err OutsideModel
  | _ => Err typeError_push
  end.

(** Reading and writing a build configuration by its address.  Every
    address the bundler hands over designates an object; an address that
    designates none has no counterpart in a run. *)
Definition readConfig (a : nat) : M obj :=
  fun w => match nth_error (configs w) a with
           | Some c => Ok (c, w)
           | None => Err OutsideModel
           end.

Fixpoint replaceNth {A : Type} (n : nat) (x : A) (l : list A) : list A :=
  match l, n with
  | [], _ => []
  | _ :: l', O => x :: l'
  | y :: l', S n' => y :: replaceNth n' x l'
  end.

(** The world with other build configurations. *)
Definition withConfigs (cs : list obj) (w : world) : world :=
  mkWorld (logged w) (process_sentry w) (sentry_inits w) (sentry_closes w) cs.

Definition writeConfig (a : nat) (c : obj) : M unit :=
  fun w => Ok (tt, withConfigs (replaceNth a c (configs w)) w).

(** [for (const config of webpackConfigs) config.devtool = style]. *)
Fixpoint setDevtool (style : value) (webpackConfigs : list nat) : M unit :=
  match webpackConfigs with
  | [] => ret tt
  | a :: rest =>
      config <~ readConfig a ;;
      writeConfig a (set "devtool" style config) ;;;
      setDevtool style rest
  end.

(** [webpackConfigs[webpackConfigs.length - 1]]. *)
Definition lastConfig (webpackConfigs : list nat) : option nat :=
  nth_error webpackConfigs (List.length webpackConfigs - 1).

(** The commit settings added when [SENTRY_AUTO_ATTACH_COMMITS] is on. *)
Definition attachCommits (h : host) (publishRelease : obj) : result obj :=
  if envToBool (env h "SENTRY_AUTO_ATTACH_COMMITS") then
    let setCommits := (get "setCommits" publishRelease ||| VObj [])%js in
    auto <- prop setCommits "auto" ;;
    setCommits <- (if isUndef auto then setProp setCommits "auto" (VBool true)
                   else Ok setCommits) ;;
    let repo := (envValue h "SENTRY_RELEASE_REPO" ||| VStr "")%js in
    oldRepo <- prop setCommits "repo" ;;
    setCommits <- (if truthy repo && isUndef oldRepo
                   then setProp setCommits "repo" repo
                   else Ok setCommits) ;;
    Ok (set "setCommits" setCommits publishRelease)
  else Ok publishRelease.

(** [urlPrefix], when not given, is derived from the router base and the
    public path. *)
Definition withUrlPrefix (h : host) (publishRelease : obj) : obj :=
  if negb (truthy (get "urlPrefix" publishRelease)) then
    match nuxt_router_base h, nuxt_publicPath h with
    | VStr base, VStr publicPath =>
        let publicPath := posix_join h base publicPath in
        set "urlPrefix"
          (VStr (if startsWithSlash publicPath then ("~" ++ publicPath)%string
                 else publicPath))
          publishRelease
    | _, _ => publishRelease
    end
  else publishRelease.

(** [include] is made an array. *)
Definition withIncludeArray (publishRelease : obj) : obj :=
  if negb (isArray (get "include" publishRelease)) then
    let include := get "include" publishRelease in
    set "include" (VArr (if truthy include then [include] else [])) publishRelease
  else publishRelease.

(** The build output directories are appended to [include] unless their
    release is disabled. *)
Definition withBuildDirs (h : host) (options : obj) (include : value) : result value :=
  let buildDir := nuxt_buildDir h in
  include <- (if negb (truthy (get "disableServerRelease" options))
              then push include (VStr (buildDir ++ "/dist/server")%string)
              else Ok include) ;;
  if negb (truthy (get "disableClientRelease" options))
  then push include (VStr (buildDir ++ "/dist/client")%string)
  else Ok include.

(** The release-publishing options the hook resolves: a copy of
    [options.publishRelease] with its URL prefix, its include list and
    its release filled in. *)
Definition resolvePublishRelease (h : host) (options : obj) : M obj :=
  publishRelease <~ lift (merge [] [get "publishRelease" options]) ;;
  let publishRelease := withIncludeArray (withUrlPrefix h publishRelease) in
  include <~ lift (withBuildDirs h options (get "include" publishRelease)) ;;
  let publishRelease := set "include" include publishRelease in
  configRelease <~ lift (prop (get "config" options) "release") ;;
  release <~ (if truthy configRelease then ret configRelease
              else if truthy (get "release" publishRelease)
                   then ret (get "release" publishRelease)
                   else resolveRelease h options) ;;
  ret (set "release" release publishRelease).

(** The plugin goes to the last build configuration. *)
Definition addPlugin (WebpackPlugin : value) (publishRelease : obj)
  (webpackConfigs : list nat) : M unit :=
  match lastConfig webpackConfigs with
  | None => throw typeError_read
  | Some a =>
      config <~ readConfig a ;;
      let plugins := (get "plugins" config ||| VArr [])%js in
      plugin <~ lift (construct WebpackPlugin [VObj publishRelease]) ;;
      plugins <~ lift (push plugins plugin) ;;
      writeConfig a (set "plugins" plugins config)
  end.

Definition webpackConfigHook (h : host) (webpackConfigs : list nat) (options : obj)
  : M unit :=
  WebpackPlugin <~
    match packages h "@sentry/webpack-plugin" with
    | Some m => ret (get "default" m ||| VObj m)%js
    | None => throw (Error missingWebpackPlugin)
    end ;;
  publishRelease <~ resolvePublishRelease h options ;;
  if negb (truthy (get "release" publishRelease)) then
    logger_warn releaseNotPublished []
  else
    publishRelease <~ lift (attachCommits h publishRelease) ;;
    setDevtool (get "sourceMapStyle" options) webpackConfigs ;;;
    addPlugin WebpackPlugin publishRelease webpackConfigs.

(** What [resolveRelease] answers for a configuration object [config]. *)
Definition autoRelease (h : host) (config : obj) : value :=
  if has "release" config then VUndef
  else match proposeVersion h with
       | Some v => VStr (trim v)
       | None => VUndef
       end.

(** A release is set in the configuration, carried by the publishing
    options, or proposed by the CLI. *)
Definition releaseResolved (h : host) (config publishRelease : obj) : bool :=
  truthy (get "release" config)
  || truthy (get "release" publishRelease)
  || truthy (autoRelease h config).

(** The commit settings can be attached: the environment flag is off, or
    [setCommits] is absent, falsy, or a plain object. *)
Definition commitsAttachable (h : host) (publishRelease : obj) : bool :=
  negb (envToBool (env h "SENTRY_AUTO_ATTACH_COMMITS"))
  || negb (truthy (get "setCommits" publishRelease))
  || match get "setCommits" publishRelease with VObj _ => true | _ => false end.

(** The plugin list of a build configuration: its [plugins] array, the
    empty list when [plugins] is absent or falsy, nothing otherwise. *)
Definition pluginList (config : obj) : option (list value) :=
  match get "plugins" config with
  | VArr ps => Some ps
  | v => if truthy v then None else Some []
  end.

Definition setProcessSentry (b : bool) : M unit :=
  fun w => Ok (tt, mkWorld (logged w) b (sentry_inits w) (sentry_closes w) (configs w)).

(** [Sentry.init(config)]. *)
Definition Sentry_init (config : value) : M unit :=
  fun w => Ok (tt, mkWorld (logged w) (process_sentry w) (sentry_inits w ++ [config])
                           (sentry_closes w) (configs w)).

(** [process.sentry.close()]. *)
Definition Sentry_close : M unit :=
  fun w => Ok (tt, mkWorld (logged w) (process_sentry w) (sentry_inits w)
                           (S (sentry_closes w)) (configs w)).

Definition initializeServerSentry (h : host) (moduleOptions : obj) : M unit :=
  fun w =>
  if process_sentry w then Ok (tt, w) else
  (let release :=
     match packages h (path_resolve h (nuxt_buildDir h) RESOLVED_RELEASE_FILENAME) with
     | Some m => get "release" m
     | None => VUndef
     end in
   serverOptions <~ resolveServerOptions h moduleOptions ;;
   serverConfig <~ lift (prop serverOptions "config") ;;
   config <~ lift (merge [("release", release)] [serverConfig]) ;;
   (if canInitialize moduleOptions then Sentry_init (VObj config) else ret tt) ;;;
   setProcessSentry true) w.

Definition shutdownServerSentry : M unit :=
  fun w =>
  if process_sentry w then (Sentry_close ;;; setProcessSentry false) w
  else Ok (tt, w).

(** The release [initializeServerSentry] reads back from the file the
    build generated: [undefined] when the file cannot be loaded. *)
Definition persistedRelease (h : host) : value :=
  match packages h (path_resolve h (nuxt_buildDir h) RESOLVED_RELEASE_FILENAME) with
  | Some m => get "release" m
  | None => VUndef
  end.

(** A call on the module container: [addPlugin(template)] or
    [addTemplate(template)].  What Nuxt does with a template is its own
    business; the hook's effect on the container is the calls it makes,
    in order. *)
Inductive containerCall : Type :=
| AddPlugin (template : obj)
| AddTemplate (template : obj).

(** [resolve(__dirname, '..', ...names)]: [path.resolve] of several
    segments is the nested call on two, [resolve(resolve(a, b), c)]. *)
Definition libPath (h : host) (dirname : string) (names : list string) : string :=
  fold_left (path_resolve h) names (path_resolve h dirname "..").

(** The plugin flavour of each side. *)
Definition pluginOptionClient (moduleOptions : obj) : string :=
  if clientSentryEnabled moduleOptions
  then (if truthy (get "lazy" moduleOptions) then "lazy" else "client")
  else "mocked".

Definition pluginOptionServer (moduleOptions : obj) : string :=
  if serverSentryEnabled moduleOptions then "server" else "mocked".

(** The template of a plugin the hook adds, and of the file that keeps
    the release for the server. *)
Definition pluginTemplate (h : host) (dirname flavour fileName mode : string)
  (options : obj) : obj :=
  [("src", VStr (libPath h dirname [("plugin." ++ flavour ++ ".js")%string]));
   ("fileName", VStr fileName);
   ("mode", VStr mode);
   ("options", VObj options)].

Definition releaseTemplate (h : host) (dirname : string) (release : value) : obj :=
  [("src", VStr (libPath h dirname ["templates"; "options.ejs"]));
   ("fileName", VStr RESOLVED_RELEASE_FILENAME);
   ("options", VObj [("release", release)])].

(** [final] is the configuration [given] laid over [release]: the
    release of [given] when it has one that is not [undefined], [release]
    otherwise. *)
Definition releaseLaidUnder (release : value) (given final : obj) : Prop :=
  (lookup "release" given = None -> get "release" final = release)
  /\ (forall v, lookup "release" given = Some v -> flat v = true ->
                get "release" final = if isUndef v then release else v).

(** [buildHook]: [calls] are the calls the container has received so far,
    the result is the calls it has received when the hook returns. *)
Definition buildHook (h : host) (dirname : string) (moduleOptions : obj)
  (calls : list containerCall) : M (list containerCall) :=
  release <~ resolveRelease h moduleOptions ;;
  resolved <~ resolveClientOptions h moduleOptions ;;
  clientOptions <~ lift (merge [("config", VObj [("release", release)])] [resolved]) ;;
  let calls :=
    calls ++ [AddPlugin (pluginTemplate h dirname (pluginOptionClient moduleOptions)
                           "sentry.client.js" "client" clientOptions)] in
  resolved <~ resolveServerOptions h moduleOptions ;;
  serverOptions <~ lift (merge [("config", VObj [("release", release)])] [resolved]) ;;
  let calls :=
    calls ++ [AddPlugin (pluginTemplate h dirname (pluginOptionServer moduleOptions)
                           "sentry.server.js" "server" serverOptions)] in
  if serverSentryEnabled moduleOptions
  then ret (calls ++ [AddTemplate (releaseTemplate h dirname release)])
  else ret calls.

(** ** lib/module.ts *)

(** Arrays are concatenated instead of merged index by index. *)
Definition mergeWithCustomizer : customizer :=
  fun objValue srcValue =>
    match objValue with
    | VArr xs => VArr (concat xs srcValue)
    | _ => VUndef
    end.

(** A customizer that leaves an absent destination to the default merge. *)
Definition quietOnUndef (c : option customizer) : Prop :=
  forall s, customized c VUndef s = VUndef.

(** A customizer that answers with well-formed values. *)
Definition wfCustomizer (c : option customizer) : Prop :=
  forall o s, wf o = true -> wf s = true -> wf (customized c o s) = true.

Definition envFlag (h : host) (name : string) (fallback : bool) : value :=
  (VBool (envToBool (env h name)) ||| VBool fallback)%js.

Definition defaults (h : host) : obj :=
  [("lazy", VBool false);
   ("dsn", (envValue h "SENTRY_DSN" ||| VStr "")%js);
   ("disabled", envFlag h "SENTRY_DISABLED" false);
   ("initialize", envFlag h "SENTRY_INITIALIZE" true);
   ("runtimeConfigKey", VStr "sentry");
   ("disableClientSide", envFlag h "SENTRY_DISABLE_CLIENT_SIDE" false);
   ("disableServerSide", envFlag h "SENTRY_DISABLE_SERVER_SIDE" false);
   ("publishRelease", envFlag h "SENTRY_PUBLISH_RELEASE" false);
   ("disableServerRelease", envFlag h "SENTRY_DISABLE_SERVER_RELEASE" false);
   ("disableClientRelease", envFlag h "SENTRY_DISABLE_CLIENT_RELEASE" false);
   ("logMockCalls", VBool true);
   ("sourceMapStyle", VStr "source-map");
   ("tracing", VBool false);
   ("clientIntegrations",
     VObj [("Dedupe", VObj []);
           ("ExtraErrorData", VObj []);
           ("ReportingObserver", VObj []);
           ("RewriteFrames", VObj []);
           ("Vue", VObj [("attachProps", VBool true); ("logErrors", nuxt_dev h)])]);
   ("serverIntegrations",
     VObj [("Dedupe", VObj []);
           ("ExtraErrorData", VObj []);
           ("RewriteFrames", VObj []);
           ("Transaction", VObj [])]);
   ("config",
     VObj [("environment",
            VStr (if truthy (nuxt_dev h) then "development" else "production"))]);
   ("serverConfig", VObj []);
   ("clientConfig", VObj []);
   ("requestHandlerConfig", VObj [])].

Definition defaultsPublishRelease : obj :=
  [("include", VArr []);
   ("ignore", VArr [VStr "node_modules"; VStr ".nuxt/dist/client/img"]);
   ("configFile", VStr ".sentryclirc")].

(** The chain of defaults, top-level options and module options. *)
Definition mergedOptions (h : host) (moduleOptions : value) : result obj :=
  let topLevelOptions := (nuxt_sentry h ||| VObj [])%js in
  mergeWith [] [VObj (defaults h); topLevelOptions; moduleOptions] mergeWithCustomizer.

(** The options [setup] resolves: the chain, then the release-publishing
    options over their own defaults. *)
Definition resolveOptions (h : host) (moduleOptions : value) : result obj :=
  options <- mergedOptions h moduleOptions ;;
  if truthy (get "publishRelease" options) then
    merged <- mergeWith defaultsPublishRelease [get "publishRelease" options]
                mergeWithCustomizer ;;
    Ok (set "publishRelease" (VObj merged) options)
  else Ok options.

Definition statusLine (options : obj) : M unit :=
  if canInitialize options && (clientSentryEnabled options || serverSentryEnabled options)
  then
    logger_success
      ("Sentry reporting is enabled (client side: "
       ++ boolToText (clientSentryEnabled options)
       ++ ", server side: " ++ boolToText (serverSentryEnabled options) ++ ")")%string
  else
    let why :=
      if truthy (get "disabled" options)
      then (dquote ++ "disabled" ++ dquote ++ " option has been set")%string
      else if negb (truthy (get "dsn" options)) then "no DSN has been provided"
      else if negb (truthy (get "initialize" options))
           then (dquote ++ "initialize" ++ dquote ++ " option has been set to false")%string
      else "both client and server side clients are disabled" in
    logger_info ("Sentry reporting is disabled (" ++ why ++ ")")%string.

(** [setup]: the resolved options and the names of the hooks it
    registers, in registration order. *)
Definition setup (h : host) (moduleOptions : value) : M (obj * list string) :=
  options <~ lift (resolveOptions h moduleOptions) ;;
  let middleware :=
    if serverSentryEnabled options
    then ["render:setupMiddleware"; "render:errorMiddleware"; "generate:routeFailed"]
    else [] in
  statusLine options ;;;
  let initHook := if truthy (nuxt__build h) then "build:compile" else "ready" in
  let server :=
    if serverSentryEnabled options then [initHook; "generate:done"] else [] in
  let webpack :=
    if truthy (get "publishRelease" options)
       && negb (truthy (get "disabled" options))
       && negb (truthy (nuxt_dev h))
    then ["webpack:config"] else [] in
  ret (options, middleware ++ ["build:before"] ++ server ++ webpack).

(** ** Sample inputs *)

Definition samplePackages (name : string) : option obj :=
  if name =? "@sentry/browser" then
    Some [("SDK_VERSION", VStr "7.0.0");
          ("init", VFun "init");
          ("captureException", VFun "captureException");
          ("captureMessage", VFun "captureMessage")]
  else if name =? "@sentry/node" then
    Some [("init", VFun "init");
          ("captureException", VFun "captureException");
          ("close", VFun "close")]
  else if name =? "@sentry/webpack-plugin" then
    Some [("default", VFun "SentryCliPlugin")]
  else if name =? ".nuxt/sentry.release.config.js" then
    Some [("release", VStr "1.0.0")]
  else None.

Definition sampleIntegrations : obj :=
  map (fun name => (name, VFun name))
      ["CaptureConsole"; "Debug"; "Dedupe"; "ExtraErrorData"; "ReportingObserver";
       "RewriteFrames"; "Transaction"; "Vue"].

(** A production build with an empty environment, no top-level options
    and no release to propose.  Its [posix_join] and [path_resolve] stand
    in for Node's on the paths of the samples. *)
Definition sampleHost : host :=
  {| env := fun _ => None;
     nuxt_dev := VBool false;
     nuxt__build := VBool true;
     nuxt_sentry := VUndef;
     nuxt_buildDir := ".nuxt";
     nuxt_router_base := VStr "/";
     nuxt_publicPath := VStr "/_nuxt/";
     nuxt_publicRuntimeConfig := VObj [];
     packages := samplePackages;
     Integrations := sampleIntegrations;
     proposeVersion := None;
     posix_join := fun a b => if a =? "/" then b else (a ++ b)%string;
     path_resolve := fun a b => (a ++ "/" ++ b)%string |}.

Definition emptyWorld : world := mkWorld [] false [] 0 [].

(** A host on which the webpack plugin is not installed. *)
Definition hostWithoutPlugin : host :=
  {| env := fun _ => None;
     nuxt_dev := VBool false;
     nuxt__build := VBool true;
     nuxt_sentry := VUndef;
     nuxt_buildDir := ".nuxt";
     nuxt_router_base := VStr "/";
     nuxt_publicPath := VStr "/_nuxt/";
     nuxt_publicRuntimeConfig := VObj [];
     packages := fun _ => None;
     Integrations := sampleIntegrations;
     proposeVersion := None;
     posix_join := fun a b => (a ++ b)%string;
     path_resolve := fun a b => (a ++ "/" ++ b)%string |}.

(** Two build configurations, client and server. *)
Definition sampleBuild : world :=
  mkWorld [] false [] 0
    [[("name", VStr "client")];
     [("name", VStr "server"); ("plugins", VArr [VInst "VueLoaderPlugin" []])]].

(** Resolved options that ask for release publishing, without and with a
    release. *)
Definition publishWithoutRelease : obj :=
  [("sourceMapStyle", VStr "hidden-source-map");
   ("disableServerRelease", VBool false);
   ("disableClientRelease", VBool false);
   ("config", VObj [("environment", VStr "production")]);
   ("publishRelease", VObj defaultsPublishRelease)].

Definition publishWithRelease : obj :=
  [("sourceMapStyle", VStr "hidden-source-map");
   ("disableServerRelease", VBool false);
   ("disableClientRelease", VBool false);
   ("config", VObj [("environment", VStr "production"); ("release", VStr "1.0.0")]);
   ("publishRelease", VObj defaultsPublishRelease)].

(** The sample host with one environment variable set. *)
Definition hostWithEnv (variable content : string) : host :=
  {| env := fun name => if name =? variable then Some content else None;
     nuxt_dev := nuxt_dev sampleHost;
     nuxt__build := nuxt__build sampleHost;
     nuxt_sentry := nuxt_sentry sampleHost;
     nuxt_buildDir := nuxt_buildDir sampleHost;
     nuxt_router_base := nuxt_router_base sampleHost;
     nuxt_publicPath := nuxt_publicPath sampleHost;
     nuxt_publicRuntimeConfig := nuxt_publicRuntimeConfig sampleHost;
     packages := packages sampleHost;
     Integrations := Integrations sampleHost;
     proposeVersion := proposeVersion sampleHost;
     posix_join := posix_join sampleHost;
     path_resolve := path_resolve sampleHost |}.

(** The sample host with top-level options. *)
Definition hostWithTopLevel (topLevel : value) : host :=
  {| env := env sampleHost;
     nuxt_dev := nuxt_dev sampleHost;
     nuxt__build := nuxt__build sampleHost;
     nuxt_sentry := topLevel;
     nuxt_buildDir := nuxt_buildDir sampleHost;
     nuxt_router_base := nuxt_router_base sampleHost;
     nuxt_publicPath := nuxt_publicPath sampleHost;
     nuxt_publicRuntimeConfig := nuxt_publicRuntimeConfig sampleHost;
     packages := packages sampleHost;
     Integrations := Integrations sampleHost;
     proposeVersion := proposeVersion sampleHost;
     posix_join := posix_join sampleHost;
     path_resolve := path_resolve sampleHost |}.

(** The sample host with a run-time configuration under the key
    [sentry]. *)
Definition runtimeHost : host :=
  {| env := env sampleHost;
     nuxt_dev := nuxt_dev sampleHost;
     nuxt__build := nuxt__build sampleHost;
     nuxt_sentry := nuxt_sentry sampleHost;
     nuxt_buildDir := nuxt_buildDir sampleHost;
     nuxt_router_base := nuxt_router_base sampleHost;
     nuxt_publicPath := nuxt_publicPath sampleHost;
     nuxt_publicRuntimeConfig :=
       VObj [("sentry",
              VObj [("config", VObj [("environment", VStr "staging")]);
                    ("serverConfig", VObj [("debug", VBool true)])])];
     packages := packages sampleHost;
     Integrations := Integrations sampleHost;
     proposeVersion := proposeVersion sampleHost;
     posix_join := posix_join sampleHost;
     path_resolve := path_resolve sampleHost |}.

(** The sample host with a Sentry CLI that proposes [version]. *)
Definition hostWithProposal (version : string) : host :=
  {| env := env sampleHost;
     nuxt_dev := nuxt_dev sampleHost;
     nuxt__build := nuxt__build sampleHost;
     nuxt_sentry := nuxt_sentry sampleHost;
     nuxt_buildDir := nuxt_buildDir sampleHost;
     nuxt_router_base := nuxt_router_base sampleHost;
     nuxt_publicPath := nuxt_publicPath sampleHost;
     nuxt_publicRuntimeConfig := nuxt_publicRuntimeConfig sampleHost;
     packages := packages sampleHost;
     Integrations := Integrations sampleHost;
     proposeVersion := Some version;
     posix_join := posix_join sampleHost;
     path_resolve := path_resolve sampleHost |}.

(** A line feed, as the CLI ends its output, and a no-break space
    (U+00A0). *)
Definition newline : string := String (ascii_of_nat 10) EmptyString.

Definition noBreakSpaceChar : string :=
  String (ascii_of_nat 194) (String (ascii_of_nat 160) EmptyString).

(** Sample module options for the server: two toggles to instantiate,
    one unknown, one disabled. *)
Definition sampleServerMap : obj :=
  [("Dedupe", VObj []);
   ("RewriteFrames", VObj [("root", VStr "/app")]);
   ("Vue", VObj []);
   ("Debug", VBool false)].

Definition sampleServerOptions : obj :=
  [("dsn", VStr "https://key@sentry.io/1");
   ("initialize", VBool true);
   ("runtimeConfigKey", VStr "sentry");
   ("lazy", VBool false);
   ("tracing", VBool false);
   ("logMockCalls", VBool true);
   ("config", VObj [("environment", VStr "production")]);
   ("serverConfig", VObj [("debug", VBool false)]);
   ("serverIntegrations", VObj sampleServerMap)].

(** Sample module options: two client toggles, one of them unknown. *)
Definition sampleClientOptions : obj :=
  [("dsn", VStr "https://key@sentry.io/1");
   ("initialize", VBool true);
   ("config", VObj []);
   ("clientConfig", VObj []);
   ("clientIntegrations", VObj [("Vue", VObj []); ("Foo", VObj [])])].

(** The options [setup] resolves on the sample host for module options
    that only give a DSN. *)
Definition sampleResolvedOptions : obj :=
  Eval vm_compute in
    match resolveOptions sampleHost (VObj [("dsn", VStr "https://key@sentry.io/1")]) with
    | Ok options => options
    | Err _ => []
    end.

(** Sample module options with tracing on and a client overlay. *)
Definition sampleTracedOptions : obj :=
  [("dsn", VStr "https://key@sentry.io/1");
   ("initialize", VBool true);
   ("tracing", VBool true);
   ("config", VObj [("environment", VStr "production")]);
   ("clientConfig", VObj [("environment", VStr "browser")]);
   ("clientIntegrations", VObj [])].

(** Sample module options for the server with tracing on. *)
Definition sampleTracedServer : obj :=
  [("dsn", VStr "https://key@sentry.io/1");
   ("initialize", VBool true);
   ("tracing", VBool true);
   ("config", VObj [("environment", VStr "production")]);
   ("serverConfig", VObj []);
   ("serverIntegrations", VObj [("Dedupe", VObj [])])].



(** Sample module options whose shared configuration and two overlays
    hold an array at the same key. *)
Definition sampleSharedArrays : obj :=
  [("dsn", VStr "https://key@sentry.io/1");
   ("initialize", VBool true);
   ("config", VObj [("include", VArr [VStr "a"; VStr "x"; VStr "y"])]);
   ("clientConfig", VObj [("include", VArr [VStr "b"])]);
   ("serverConfig", VObj [("include", VArr [VStr "b"])]);
   ("clientIntegrations", VObj []);
   ("serverIntegrations", VObj [])].

(** Sample module options whose shared configuration holds an
    array-like object where the client overlay holds an array. *)
Definition sampleArrayLike : obj :=
  [("dsn", VStr "https://key@sentry.io/1");
   ("initialize", VBool true);
   ("config", VObj [("breadcrumbs", VObj [("length", VNum 2)])]);
   ("clientConfig", VObj [("breadcrumbs", VArr [VStr "a"])]);
   ("clientIntegrations", VObj [])].

(** One array laid over another index by index: an element of [ys]
    other than [undefined] takes the place of the element of [xs] at its
    index, and what [xs] holds beyond the length of [ys] stays. *)
Fixpoint overlay (xs ys : list value) : list value :=
  match ys with
  | [] => xs
  | y :: ys' =>
      match xs with
      | x :: xs' => (if isUndef y then x else y) :: overlay xs' ys'
      | [] => y :: overlay [] ys'
      end
  end.

(* ================================================================== *)
(** * Part II: properties *)
(* ================================================================== *)

(** ** Utility predicates *)

Lemma truthy_str s : truthy (VStr s) = true <-> s <> "".
Proof.
  simpl. destruct (String.eqb_spec s ""); simpl; split; congruence.
Qed.

Example envToBool_false_upper : envToBool (Some "FALSE") = false.
Proof. reflexivity. Qed.

Example envToBool_false_mixed : envToBool (Some "False") = false.
Proof. reflexivity. Qed.

Example envToBool_yes : envToBool (Some "yes") = true.
Proof. reflexivity. Qed.

Example envToBool_one : envToBool (Some "1") = true.
Proof. reflexivity. Qed.

(** C1: on options whose [initialize] is a boolean and whose [dsn] is a
    string (the shape of the resolved configuration), [canInitialize] is
    true exactly when the flag is true and the DSN is not empty, and false
    as soon as one of the two fails. *)
Theorem canInitialize_iff (options : obj) (flag : bool) (dsn : string) :
  get "initialize" options = VBool flag ->
  get "dsn" options = VStr dsn ->
  (canInitialize options = true <-> flag = true /\ dsn <> "")
  /\ (canInitialize options = false <-> flag = false \/ dsn = "").
Proof.
  intros Hi Hd. unfold canInitialize, js_and. rewrite Hi, Hd.
  destruct flag; simpl.
  - destruct (String.eqb_spec dsn ""); simpl; split; split;
      intuition congruence.
  - split; split; intuition congruence.
Qed.

Lemma canInitialize_iff_witness :
  (canInitialize [("initialize", VBool true); ("dsn", VStr "https://key@sentry.io/1")] = true
   <-> true = true /\ "https://key@sentry.io/1" <> "")
  /\ (canInitialize [("initialize", VBool true); ("dsn", VStr "https://key@sentry.io/1")] = false
      <-> true = false \/ "https://key@sentry.io/1" = "").
Proof.
  apply (canInitialize_iff
           [("initialize", VBool true); ("dsn", VStr "https://key@sentry.io/1")]
           true "https://key@sentry.io/1"); reflexivity.
Defined.

(** The edge case of the empty string: it is present, it is not the
    string 0, it does not lower to the string false, and [envToBool]
    answers false, because the string itself is falsy. *)
Lemma envToBool_empty_string :
  envToBool (Some "") = false
  /\ Some "" <> (None : option string)
  /\ "" <> "0"
  /\ toLowerCase "" <> "false".
Proof. repeat split; discriminate. Qed.

(** [envToBool] in terms of what its argument lowers to. *)
Lemma envToBool_lowered (env : option string) :
  (envToBool env = false <->
     env = None \/ env = Some "" \/ env = Some "0"
     \/ exists s, env = Some s /\ toLowerCase s = "false")
  /\ (envToBool env = true <->
        exists s, env = Some s /\ s <> "" /\ s <> "0" /\ toLowerCase s <> "false").
Proof.
  destruct env as [s|]; simpl.
  - unfold js_and. simpl.
    destruct (String.eqb_spec s "") as [He|He]; simpl.
    + subst s. simpl. split; split.
      * intros _. right. left. reflexivity.
      * reflexivity.
      * discriminate.
      * intros (s & Hs & Hne & _). inversion Hs. congruence.
    + destruct (String.eqb_spec (toLowerCase s) "false") as [Hf|Hf]; simpl.
      * split; split.
        -- intros _. right. right. right. exists s. split; [reflexivity|assumption].
        -- reflexivity.
        -- discriminate.
        -- intros (t & Ht & _ & _ & Hl). inversion Ht. subst t. congruence.
      * destruct (String.eqb_spec s "0") as [H0|H0]; simpl.
        -- split; split.
           ++ intros _. right. right. left. congruence.
           ++ reflexivity.
           ++ discriminate.
           ++ intros (t & Ht & _ & Hn & _). inversion Ht. subst t. congruence.
        -- split; split.
           ++ discriminate.
           ++ intros [H|[H|[H|(t & Ht & Hl)]]]; congruence.
           ++ intros _. exists s. repeat split; assumption.
           ++ reflexivity.
  - split; split.
    + intros _. left. reflexivity.
    + reflexivity.
    + discriminate.
    + intros (s & Hs & _). discriminate.
Qed.

(** A character lowers to a letter of the word false exactly when it is
    that letter in either case. *)
Lemma lowerAscii_letter (b : ascii) :
  In b ["f"; "a"; "l"; "s"; "e"]%char ->
  forall c, Ascii.eqb (lowerAscii c) b = Ascii.eqb (upperAscii c) (upperAscii b).
Proof.
  intros Hb c. simpl in Hb.
  destruct Hb as [<-|[<-|[<-|[<-|[<-|[]]]]]];
    destruct c as [[] [] [] [] [] [] [] []]; reflexivity.
Qed.

Lemma lowers_to_word : forall t s,
  (forall b, In b (list_ascii_of_string t) -> In b ["f"; "a"; "l"; "s"; "e"]%char) ->
  (toLowerCase s =? t) = equalsIgnoringCase s t.
Proof.
  induction t as [|b t IH]; intros s Hb; destruct s as [|c s]; try reflexivity.
  simpl. rewrite (lowerAscii_letter b (Hb b (or_introl eq_refl))).
  rewrite IH; [reflexivity|]. intros x Hx. apply Hb. now right.
Qed.

Lemma lowers_to_false s : toLowerCase s = "false" <-> equalsIgnoringCase s "false" = true.
Proof.
  rewrite <- (lowers_to_word "false" s).
  - symmetry. apply String.eqb_eq.
  - intros b Hb. exact Hb.
Qed.

(** C2: [envToBool] is false exactly on an absent value, the string 0,
    every string that equals the word false up to the case of its
    letters (false, FALSE, False, ...), and -- the additional falsy edge
    case -- the empty string; it is true on every other string (1, true,
    yes, ...). *)
Theorem envToBool_false_iff (env : option string) :
  (envToBool env = false <->
     env = None \/ env = Some "" \/ env = Some "0"
     \/ exists s, env = Some s /\ equalsIgnoringCase s "false" = true)
  /\ (envToBool env = true <->
        exists s, env = Some s /\ s <> "" /\ s <> "0"
                  /\ equalsIgnoringCase s "false" = false)
  /\ envToBool (Some "false") = false
  /\ envToBool (Some "FALSE") = false
  /\ envToBool (Some "False") = false
  /\ envToBool (Some "1") = true
  /\ envToBool (Some "true") = true
  /\ envToBool (Some "yes") = true.
Proof.
  destruct (envToBool_lowered env) as [Hf Ht].
  split; [|split].
  - rewrite Hf. split.
    + intros [H|[H|[H|(s & Hs & Hl)]]]; auto.
      right. right. right. exists s. split; [assumption|]. now apply lowers_to_false.
    + intros [H|[H|[H|(s & Hs & Hl)]]]; auto.
      right. right. right. exists s. split; [assumption|]. now apply lowers_to_false.
  - rewrite Ht. split.
    + intros (s & Hs & Hne & H0 & Hl). exists s. repeat split; try assumption.
      destruct (equalsIgnoringCase s "false") eqn:E; [|reflexivity].
      apply lowers_to_false in E. contradiction.
    + intros (s & Hs & Hne & H0 & Hl). exists s. repeat split; try assumption.
      intros E. apply lowers_to_false in E. congruence.
  - repeat split.
Qed.

Lemma envToBool_false_iff_witness :
  envToBool (Some "FALSE") = false /\ envToBool (Some "yes") = true.
Proof.
  split.
  - apply (proj2 (proj1 (envToBool_false_iff (Some "FALSE")))).
    right. right. right. exists "FALSE". split; reflexivity.
  - apply (proj2 (proj1 (proj2 (envToBool_false_iff (Some "yes"))))).
    exists "yes". repeat split; discriminate.
Defined.

(** ** The defaults of [setup] *)

Lemma envFlag_true h name : envFlag h name true = VBool true.
Proof. unfold envFlag, js_or. simpl. destruct (envToBool (env h name)); reflexivity. Qed.

Lemma nodupb_NoDup l : nodupb l = true <-> NoDup l.
Proof.
  induction l as [|x l IH]; simpl.
  - split; [constructor|reflexivity].
  - rewrite andb_true_iff, negb_true_iff, IH. split.
    + intros [Hx Hl]. constructor; [|assumption].
      intros Hin. assert (existsb (String.eqb x) l = true) as E.
      { apply existsb_exists. exists x. split; [assumption|apply String.eqb_refl]. }
      congruence.
    + intros H. inversion H as [|? ? Hx Hl]. subst. split; [|assumption].
      destruct (existsb (String.eqb x) l) eqn:E; [|reflexivity].
      apply existsb_exists in E. destruct E as (y & Hy & Hxy).
      apply String.eqb_eq in Hxy. subst y. contradiction.
Qed.

Lemma wf_obj fs :
  wf (VObj fs) = true <->
  NoDup (keys fs) /\ modelledKeys fs = true /\ Forall (fun kv => wf (snd kv) = true) fs.
Proof.
  simpl. rewrite !andb_true_iff, nodupb_NoDup, (forallb_forall (fun kv => match kv with (_, x) => wf x end)), Forall_forall.
  unfold keys, modelledKeys. split.
  - intros [[H1 H2] H3]. repeat split; try assumption.
    intros [k v] Hin. apply (H3 (k, v) Hin).
  - intros (H1 & H2 & H3). repeat split; try assumption.
    intros [k v] Hin. apply (H3 (k, v) Hin).
Qed.

Lemma wf_arr xs : wf (VArr xs) = true <-> Forall (fun x => wf x = true) xs.
Proof. simpl. now rewrite forallb_forall, Forall_forall. Qed.

(** ** Plain objects *)

Lemma lookup_set_eq k v o : lookup k (set k v o) = Some v.
Proof.
  induction o as [|[k' v'] o IH]; simpl.
  - now rewrite String.eqb_refl.
  - destruct (String.eqb_spec k' k); simpl.
    + now rewrite String.eqb_refl.
    + destruct (String.eqb_spec k' k); [contradiction|assumption].
Qed.

Lemma lookup_set_ne k k' v o : k <> k' -> lookup k' (set k v o) = lookup k' o.
Proof.
  intros Hne. induction o as [|[k1 v1] o IH]; simpl.
  - destruct (String.eqb_spec k k'); [contradiction|reflexivity].
  - destruct (String.eqb_spec k1 k); simpl.
    + subst k1. destruct (String.eqb_spec k k'); [contradiction|reflexivity].
    + now rewrite IH.
Qed.

Lemma get_set_eq k v o : get k (set k v o) = v.
Proof. unfold get. now rewrite lookup_set_eq. Qed.

Lemma get_set_ne k k' v o : k <> k' -> get k' (set k v o) = get k' o.
Proof. intros H. unfold get. now rewrite lookup_set_ne. Qed.

Lemma keys_set k v o :
  keys (set k v o) = if has k o then keys o else keys o ++ [k].
Proof.
  unfold has, keys. induction o as [|[k' v'] o IH]; simpl; [reflexivity|].
  destruct (String.eqb_spec k' k); simpl.
  - now subst.
  - rewrite IH. now destruct (lookup k o).
Qed.

Lemma lookup_None_keys k o : lookup k o = None <-> ~ In k (keys o).
Proof.
  unfold keys. induction o as [|[k' v'] o IH]; simpl.
  - tauto.
  - destruct (String.eqb_spec k' k); split; intros H.
    + discriminate.
    + exfalso. apply H. now left.
    + intros [E|E]; [contradiction|]. now apply IH.
    + apply IH. intros E. apply H. now right.
Qed.

Lemma lookup_In k v o : lookup k o = Some v -> In (k, v) o.
Proof.
  induction o as [|[k' v'] o IH]; simpl; [discriminate|].
  destruct (String.eqb_spec k' k); intros H.
  - inversion H. subst. now left.
  - right. auto.
Qed.

Lemma lookup_delete_eq k o : lookup k (delete k o) = None.
Proof.
  unfold delete. induction o as [|[k' v'] o IH]; simpl; [reflexivity|].
  destruct (String.eqb_spec k' k); simpl; [assumption|].
  destruct (String.eqb_spec k' k); [contradiction|assumption].
Qed.

Lemma lookup_delete_ne k k' o : k <> k' -> lookup k' (delete k o) = lookup k' o.
Proof.
  intros Hne. unfold delete. induction o as [|[k1 v1] o IH]; simpl; [reflexivity|].
  destruct (String.eqb_spec k1 k); simpl.
  - subst k1. destruct (String.eqb_spec k k'); [contradiction|assumption].
  - now rewrite IH.
Qed.

(** ** Outcomes *)

Lemma bind_Ok {A B : Type} (m : result A) (k : A -> result B) (b : B) :
  bind m k = Ok b -> exists a, m = Ok a /\ k a = Ok b.
Proof. destruct m as [a|e]; simpl; [eauto|discriminate]. Qed.

Lemma mbind_Ok {A B : Type} (m : M A) (k : A -> M B) (w w' : world) (b : B) :
  mbind m k w = Ok (b, w') ->
  exists a w1, m w = Ok (a, w1) /\ k a w1 = Ok (b, w').
Proof.
  unfold mbind. destruct (m w) as [[a w1]|e]; [eauto|discriminate].
Qed.

Lemma lift_Ok {A : Type} (r : result A) (w w' : world) (a : A) :
  lift r w = Ok (a, w') -> r = Ok a /\ w' = w.
Proof.
  unfold lift. destruct r; intros H; inversion H; auto.
Qed.

(** ** The merge *)

Lemma lookup_assign_ne k k' v o :
  k <> k' -> lookup k' (assignMergeValue o k v) = lookup k' o.
Proof.
  intros Hne. unfold assignMergeValue.
  destruct (isUndef v && has k o); [reflexivity|now apply lookup_set_ne].
Qed.

Lemma get_assign_eq k v o :
  get k (assignMergeValue o k v) = if isUndef v then get k o else v.
Proof.
  unfold assignMergeValue, has, get.
  destruct (isUndef v) eqn:Hu; simpl.
  - destruct (lookup k o) eqn:Hl; simpl.
    + now rewrite Hl.
    + rewrite lookup_set_eq. now destruct v.
  - now rewrite lookup_set_eq.
Qed.

(** A key the source does not have keeps what the destination held. *)
Lemma mergeFields_frame c k sf : forall o r,
  lookup k sf = None -> mergeFields c o sf = Ok r -> lookup k r = lookup k o.
Proof.
  induction sf as [|[k1 s1] sf IH]; intros o r Hk Hm; simpl in *.
  - now inversion Hm.
  - destruct (String.eqb_spec k1 k) as [|Hne]; [discriminate|].
    destruct (modelledKey k1); [|discriminate].
    apply bind_Ok in Hm. destruct Hm as (v & _ & Hm).
    rewrite (IH _ _ Hk Hm). now apply lookup_assign_ne.
Qed.

(** At a key of the source, the destination ends with what [mergeValue]
    computes there, unless that is [undefined]. *)
Lemma mergeFields_at c k s sf : forall o r,
  NoDup (keys sf) -> lookup k sf = Some s -> mergeFields c o sf = Ok r ->
  exists v, mergeValue c (get k o) s = Ok v
            /\ get k r = if isUndef v then get k o else v.
Proof.
  induction sf as [|[k1 s1] sf IH]; intros o r Hnd Hk Hm; simpl in *.
  - discriminate.
  - inversion Hnd as [|? ? Hnotin Hnd']. subst.
    destruct (modelledKey k1); [|discriminate].
    apply bind_Ok in Hm. destruct Hm as (v & Hv & Hm).
    destruct (String.eqb_spec k1 k) as [->|Hne].
    + inversion Hk. subst s1. exists v. split; [assumption|].
      unfold get at 1. rewrite (mergeFields_frame _ _ _ _ _ (proj2 (lookup_None_keys k sf) Hnotin) Hm).
      apply get_assign_eq.
    + destruct (IH _ _ Hnd' Hk Hm) as (v' & Hv' & Hg).
      unfold get in Hv', Hg. rewrite (lookup_assign_ne _ _ _ _ Hne) in Hv', Hg.
      exists v'. split; assumption.
Qed.

Example merge_no_customizer :
  merge [] [VObj [("include", VArr [VStr "a"])]; VObj [("include", VArr [VStr "b"])]]
  = Ok [("include", VArr [VStr "b"])].
Proof. reflexivity. Qed.

Lemma mergeValue_arr c o ss :
  mergeValue c o (VArr ss) =
  let nv := customized c o (VArr ss) in
  if negb (isUndef nv) then Ok nv else
  os <- arrayBase o ;; r <- mergeElems c os ss ;; Ok (VArr r).
Proof. reflexivity. Qed.

Lemma mergeValue_obj c o sf :
  mergeValue c o (VObj sf) =
  let nv := customized c o (VObj sf) in
  if negb (isUndef nv) then Ok nv else
  match o with
  | VObj t => r <- mergeFields c t sf ;; Ok (VObj r)
  | VArr _ | VInst _ _ | VFun _ => Err OutsideModel
  | _ => r <- mergeFields c [] sf ;; Ok (VObj r)
  end.
Proof. reflexivity. Qed.

Lemma set_absent k v o : has k o = false -> set k v o = o ++ [(k, v)].
Proof.
  unfold has. induction o as [|[k' v'] o IH]; simpl; [reflexivity|].
  destruct (String.eqb_spec k' k); [discriminate|].
  intros H. now rewrite IH.
Qed.

Lemma has_false_keys k o : has k o = false <-> ~ In k (keys o).
Proof.
  rewrite <- lookup_None_keys. unfold has.
  destruct (lookup k o); split; congruence.
Qed.

Lemma quietOnUndef_None : quietOnUndef None.
Proof. intros s. reflexivity. Qed.

Lemma quietOnUndef_customizer : quietOnUndef (Some mergeWithCustomizer).
Proof. intros s. reflexivity. Qed.

(** Merging a well-formed value into an absent destination copies it. *)
Lemma mergeValue_clone c :
  quietOnUndef c -> forall s, wf s = true -> mergeValue c VUndef s = Ok s.
Proof.
  intros Hq. induction s as [| | | | |xs IH|fs IH|cls args IH|] using value_ind;
    intros Hwf; try (simpl; rewrite (Hq _); reflexivity).
  - rewrite mergeValue_arr. cbv zeta. rewrite (Hq _). simpl negb. cbv iota.
    simpl arrayBase. cbn [bind].
    apply wf_arr in Hwf.
    assert (mergeElems c [] xs = Ok xs) as ->; [|reflexivity].
    induction xs as [|x xs IHxs]; [reflexivity|].
    inversion IH as [|? ? Hx IH']; inversion Hwf as [|? ? Hwx Hwf']; subst. simpl.
    rewrite (Hx Hwx). cbn [bind].
    fold (mergeElems c). rewrite (IHxs IH' Hwf'). reflexivity.
  - rewrite mergeValue_obj. cbv zeta. rewrite (Hq _). simpl negb. cbv iota.
    apply wf_obj in Hwf. destruct Hwf as (Hnd & Hkeys & Hall).
    assert (forall acc, (forall k, In k (keys fs) -> ~ In k (keys acc)) ->
                        mergeFields c acc fs = Ok (acc ++ fs)) as Hgen.
    { induction fs as [|[k x] fs IHfs]; intros acc Hdis.
      - simpl. now rewrite app_nil_r.
      - inversion IH as [|? ? Hx IH']; inversion Hall as [|? ? Hwx Hall'];
          inversion Hnd as [|? ? Hnotin Hnd']; subst.
        unfold modelledKeys in Hkeys. simpl in Hkeys.
        apply andb_true_iff in Hkeys. destruct Hkeys as [Hmk Hkeys'].
        simpl in Hx, Hwx.
        assert (has k acc = false) as Hk.
        { apply has_false_keys. apply Hdis. now left. }
        assert (get k acc = VUndef) as Hg.
        { unfold get. unfold has in Hk. now destruct (lookup k acc). }
        simpl. rewrite Hmk, Hg, (Hx Hwx). cbn [bind].
        unfold assignMergeValue. rewrite Hk, andb_false_r.
        rewrite (set_absent _ _ _ Hk).
        fold (mergeFields c). rewrite (IHfs IH' Hnd' Hkeys' Hall').
        + now rewrite <- app_assoc.
        + intros k' Hin Hacc. unfold keys in Hacc. rewrite map_app in Hacc.
          apply in_app_or in Hacc. destruct Hacc as [Hacc|[Hacc|[]]].
          * apply (Hdis k'); [now right|assumption].
          * simpl in Hacc. subst k'. contradiction. }
    rewrite (Hgen []); [reflexivity|]. intros k _ [].
Qed.

Lemma mergeFields_clone c fs :
  quietOnUndef c -> wf (VObj fs) = true -> mergeFields c [] fs = Ok fs.
Proof.
  intros Hq Hwf. pose proof (mergeValue_clone c Hq (VObj fs) Hwf) as H.
  rewrite mergeValue_obj in H. cbv zeta in H. rewrite (Hq _) in H. simpl in H.
  destruct (mergeFields c [] fs); simpl in H; [inversion H; reflexivity|discriminate].
Qed.

(** [merge({}, o)] is a copy of [o]. *)
Lemma merge_clone o : wf (VObj o) = true -> merge [] [VObj o] = Ok o.
Proof.
  intros Hwf. unfold merge. simpl.
  now rewrite (mergeFields_clone None o quietOnUndef_None Hwf).
Qed.

Lemma getPath_undef path : getPath path VUndef = VUndef.
Proof. induction path; simpl; auto. Qed.

Lemma getPath_not_obj path v :
  path <> [] -> (forall o, v <> VObj o) -> getPath path v = VUndef.
Proof.
  destruct path as [|k path]; [congruence|]. intros _ Hv. simpl.
  destruct v; simpl; try apply getPath_undef. exfalso. now apply (Hv fields).
Qed.

Lemma getPath_empty_obj path : path <> [] -> getPath path (VObj []) = VUndef.
Proof.
  destruct path as [|k path]; [congruence|]. intros _. apply getPath_undef.
Qed.

Lemma pathClear_undef path : pathClear path VUndef = true.
Proof. induction path; simpl; auto. Qed.

Lemma pathClear_empty path : pathClear path (VObj []) = true.
Proof. destruct path; simpl; [reflexivity|apply pathClear_undef]. Qed.

Lemma get_wf k fs : wf (VObj fs) = true -> wf (get k fs) = true.
Proof.
  intros H. apply wf_obj in H. destruct H as (_ & _ & H). unfold get.
  destruct (lookup k fs) eqn:E; [|reflexivity].
  apply lookup_In in E. rewrite Forall_forall in H. apply (H _ E).
Qed.

Lemma customizer_not_array o s :
  isArray o = false -> customized (Some mergeWithCustomizer) o s = VUndef.
Proof. destruct o; simpl; congruence. Qed.

(** One merge with the customizer, followed down a path of the source
    that ends in an array: the destination ends with its own array
    followed by the source's, or with the source's array where it held
    no array. *)
Lemma mergeFields_path : forall path o s r ys,
  path <> [] ->
  wf (VObj s) = true ->
  pathClear path (VObj o) = true ->
  (forall o', getPath path (VObj o) = VObj o' -> arrayBase (VObj o') = Ok []) ->
  mergeFields (Some mergeWithCustomizer) o s = Ok r ->
  getPath path (VObj s) = VArr ys ->
  getPath path (VObj r) =
    VArr (match getPath path (VObj o) with VArr xs => xs ++ ys | _ => ys end).
Proof.
  induction path as [|k path IH]; intros o s r ys Hne Hwf Hclear Hal Hm Hs; [congruence|].
  assert (forall o', getPath path (get k o) = VObj o' -> arrayBase (VObj o') = Ok [])
    as Hal' by exact Hal.
  clear Hal. simpl in Hs, Hclear |- *.
  destruct (lookup k s) as [sk|] eqn:Hk.
  2:{ unfold get in Hs. rewrite Hk, getPath_undef in Hs. discriminate. }
  pose proof (get_wf k _ Hwf) as Hwfk.
  apply wf_obj in Hwf. destruct Hwf as [Hnd _].
  destruct (mergeFields_at _ _ _ _ _ _ Hnd Hk Hm) as (v & Hv & Hg).
  unfold get in Hs, Hwfk. rewrite Hk in Hs, Hwfk.
  destruct path as [|k' path'].
  - (* the array is at this key *)
    simpl in Hs |- *. subst sk.
    destruct (get k o) as [| | | | |xs|o'| |] eqn:Ho;
      try (rewrite mergeValue_arr in Hv; cbv zeta in Hv; simpl in Hv;
           pose proof (mergeValue_clone _ quietOnUndef_customizer (VArr ys) Hwfk) as Hc;
           rewrite mergeValue_arr in Hc; simpl in Hc;
           rewrite Hc in Hv; inversion Hv; subst v; simpl in Hg; congruence).
    + simpl in Hv. inversion Hv. subst v. simpl in Hg. congruence.
    + rewrite mergeValue_arr in Hv. cbv zeta in Hv.
      rewrite (Hal' o' eq_refl) in Hv. simpl in Hv.
      pose proof (mergeValue_clone _ quietOnUndef_customizer (VArr ys) Hwfk) as Hc.
      rewrite mergeValue_arr in Hc. simpl in Hc.
      rewrite Hc in Hv. inversion Hv. subst v. simpl in Hg. congruence.
    + rewrite mergeValue_arr in Hv. simpl in Hv. discriminate.
  - (* the path goes on: the source holds a plain object here *)
    assert (k' :: path' <> []) as Hne' by congruence.
    destruct sk as [| | | | | |s1| |];
      try (rewrite getPath_not_obj in Hs; [discriminate|assumption|congruence]).
    rewrite mergeValue_obj in Hv. cbv zeta in Hv.
    remember (k' :: path') as rest eqn:Hrest.
    assert (isArray (get k o) = false) as Hna.
    { subst rest. simpl in Hclear. apply andb_true_iff in Hclear.
      destruct Hclear as [Hc _]. now apply negb_true_iff in Hc. }
    rewrite (customizer_not_array _ _ Hna) in Hv. simpl negb in Hv. cbv iota in Hv.
    assert (forall r1, mergeFields (Some mergeWithCustomizer) [] s1 = Ok r1 ->
                       (forall o1, get k o <> VObj o1) ->
            getPath rest (VObj r1) =
              VArr (match getPath rest (get k o) with VArr xs => xs ++ ys | _ => ys end))
      as Hfresh.
    { intros r1 Hr1 Hno.
      rewrite (IH [] s1 r1 ys Hne' Hwfk (pathClear_empty _)).
      - rewrite (getPath_empty_obj _ Hne'), (getPath_not_obj _ _ Hne' Hno). reflexivity.
      - intros o' Ho'. rewrite (getPath_empty_obj _ Hne') in Ho'. discriminate.
      - exact Hr1.
      - exact Hs. }
    destruct (get k o) as [| | | | |xs|o1| |] eqn:Ho; try discriminate;
      try (apply bind_Ok in Hv; destruct Hv as (r1 & Hr1 & Hv); inversion Hv; subst v;
           simpl in Hg; rewrite Hg; apply (Hfresh r1 Hr1); intros; discriminate).
    apply bind_Ok in Hv. destruct Hv as (r1 & Hr1 & Hv). inversion Hv. subst v.
    simpl in Hg. rewrite Hg. apply (IH o1 s1 r1 ys); try assumption.
Qed.

(** ** Merging keeps values well formed *)

Lemma wf_set k v o :
  modelledKey k = true ->
  wf (VObj o) = true -> wf v = true -> wf (VObj (set k v o)) = true.
Proof.
  intros Hk Ho Hv. apply wf_obj in Ho. destruct Ho as (Hnd & Hkeys & Hall).
  apply wf_obj. split; [|split].
  - rewrite keys_set. destruct (has k o) eqn:E; [assumption|].
    apply has_false_keys in E.
    apply NoDup_app; [assumption|repeat constructor; intros []|].
    intros x Hx [<-|[]]. contradiction.
  - clear Hnd Hall. unfold modelledKeys in *.
    induction o as [|[k' v'] o IH]; simpl in *.
    + now rewrite Hk.
    + apply andb_true_iff in Hkeys. destruct Hkeys as [H1 H2].
      destruct (k' =? k); simpl; rewrite ?Hk, ?H1, ?H2; auto.
  - clear Hnd Hkeys. induction o as [|[k' v'] o IH]; simpl.
    + repeat constructor. assumption.
    + inversion Hall; subst. destruct (k' =? k); constructor; auto.
Qed.

Lemma wf_assign k v o :
  modelledKey k = true ->
  wf (VObj o) = true -> wf v = true -> wf (VObj (assignMergeValue o k v)) = true.
Proof.
  intros Hk Ho Hv. unfold assignMergeValue.
  destruct (isUndef v && has k o); [assumption|now apply wf_set].
Qed.

Lemma wfCustomizer_None : wfCustomizer None.
Proof. intros o s _ _. reflexivity. Qed.

Lemma wfCustomizer_customizer : wfCustomizer (Some mergeWithCustomizer).
Proof.
  intros o s Ho Hs. destruct o; try reflexivity. simpl.
  unfold concat. destruct s; simpl in *;
    rewrite forallb_app; simpl; rewrite Ho; try reflexivity;
    rewrite ?andb_true_r; assumption.
Qed.

Lemma wf_mergeElems c xs :
  Forall (fun s => forall o v, wf o = true -> wf s = true ->
                               mergeValue c o s = Ok v -> wf v = true) xs ->
  forall os r, wf (VArr os) = true -> wf (VArr xs) = true ->
               mergeElems c os xs = Ok r -> wf (VArr r) = true.
Proof.
  induction 1 as [|x xs Hx _ IH]; intros os r Hos Hxs Hm.
  - simpl in Hm. inversion Hm; subst; assumption.
  - simpl in Hxs. apply andb_true_iff in Hxs. destruct Hxs as [Hwx Hwxs].
    destruct os as [|o os]; simpl in Hm; fold (mergeElems c) in Hm;
      apply bind_Ok in Hm; destruct Hm as (v & Hv & Hm);
      apply bind_Ok in Hm; destruct Hm as (rest & Hrest & Hm);
      inversion Hm; subst r; simpl; apply andb_true_iff.
    + split; [apply (Hx VUndef v); auto|].
      apply (IH [] rest); auto.
    + simpl in Hos. apply andb_true_iff in Hos. destruct Hos as [Hwo Hwos]. split.
      * destruct (isUndef v); [assumption|apply (Hx o v); auto].
      * apply (IH os rest); auto.
Qed.

Lemma wf_mergeFields c fs :
  Forall (fun kv => forall o v, wf o = true -> wf (snd kv) = true ->
                                mergeValue c o (snd kv) = Ok v -> wf v = true) fs ->
  forall o r, wf (VObj o) = true ->
              Forall (fun kv => wf (snd kv) = true) fs ->
              mergeFields c o fs = Ok r -> wf (VObj r) = true.
Proof.
  induction 1 as [|[k x] fs Hx _ IH]; intros o r Ho Hfs Hm.
  - simpl in Hm. inversion Hm; subst; assumption.
  - inversion Hfs; subst. simpl in Hm. fold (mergeFields c) in Hm.
    destruct (modelledKey k) eqn:Hk; [|discriminate].
    apply bind_Ok in Hm. destruct Hm as (v & Hv & Hm).
    apply (IH (assignMergeValue o k v)); try assumption.
    apply wf_assign; [assumption|assumption|].
    apply (Hx (get k o) v); auto. now apply get_wf.
Qed.

Lemma wf_arrayBase o os : wf o = true -> arrayBase o = Ok os -> wf (VArr os) = true.
Proof.
  intros Hwf H. destruct o; simpl in H; try (inversion H; subst; reflexivity).
  - inversion H. subst. exact Hwf.
  - destruct (get "length" fields); try (inversion H; subst; reflexivity).
    destruct ((0 <=? n)%Z && (n <=? MAX_SAFE_INTEGER)%Z);
      [|inversion H; subst; reflexivity].
    destruct (n <=? MAX_ARRAY_LENGTH)%Z; [|discriminate].
    destruct (modelledKeys fields); [|discriminate]. inversion H.
    simpl. clear. induction (Z.to_nat n); simpl; auto.
Qed.

Lemma wf_mergeValue c :
  wfCustomizer c ->
  forall s o v, wf o = true -> wf s = true -> mergeValue c o s = Ok v -> wf v = true.
Proof.
  intros Hc. induction s as [| | | | |xs IH|fs IH|cls args IH|] using value_ind;
    intros o v Ho Hs Hm;
    try (simpl in Hm; destruct (isUndef (customized c o _)) eqn:Hu; simpl in Hm;
         inversion Hm; subst; [assumption || reflexivity | apply Hc; assumption]).
  - rewrite mergeValue_arr in Hm. cbv zeta in Hm.
    destruct (isUndef (customized c o (VArr xs))) eqn:Hu; simpl in Hm.
    + apply bind_Ok in Hm. destruct Hm as (os & Hos & Hm).
      apply bind_Ok in Hm. destruct Hm as (r & Hr & Hm). inversion Hm. subst v.
      apply (wf_mergeElems c xs IH _ r) in Hr; try assumption.
      now apply (wf_arrayBase o).
    + inversion Hm. subst v. now apply Hc.
  - rewrite mergeValue_obj in Hm. cbv zeta in Hm.
    assert (Forall (fun kv => wf (snd kv) = true) fs) as Hfs
      by (apply wf_obj in Hs; apply Hs).
    destruct (isUndef (customized c o (VObj fs))) eqn:Hu; simpl in Hm.
    + destruct o; try discriminate;
        apply bind_Ok in Hm; destruct Hm as (r & Hr & Hm); inversion Hm; subst v;
        apply (wf_mergeFields c fs IH _ r) in Hr; auto.
    + inversion Hm. subst v. now apply Hc.
Qed.

Lemma wf_mergeFields_obj c o fs r :
  wfCustomizer c -> wf (VObj o) = true -> wf (VObj fs) = true ->
  mergeFields c o fs = Ok r -> wf (VObj r) = true.
Proof.
  intros Hc Ho Hfs Hm. apply wf_obj in Hfs. destruct Hfs as (_ & _ & Hfs).
  apply (wf_mergeFields c fs) with (o := o); try assumption.
  apply Forall_forall. intros kv _ o' v. now apply wf_mergeValue.
Qed.

Lemma wf_baseMerge c o s r :
  wfCustomizer c -> wf (VObj o) = true -> wf s = true ->
  baseMerge c o s = Ok r -> wf (VObj r) = true.
Proof.
  intros Hc Ho Hs Hm. destruct s as [| | |n|str|[|x xs]|fs| |]; simpl in Hm;
    try discriminate; try (inversion Hm; subst; assumption).
  - now apply (wf_mergeFields_obj c o fs r).
Qed.

Lemma wf_mergeAll c : wfCustomizer c -> forall sources o r,
  wf (VObj o) = true -> Forall (fun s => wf s = true) sources ->
  mergeAll c o sources = Ok r -> wf (VObj r) = true.
Proof.
  intros Hc. induction sources as [|s sources IH]; intros o r Ho Hs Hm; simpl in Hm.
  - inversion Hm; subst; assumption.
  - inversion Hs; subst. destruct (truthy s).
    + apply bind_Ok in Hm. destruct Hm as (o' & Ho' & Hm).
      apply (IH o' r); try assumption. now apply (wf_baseMerge c o s o').
    + now apply (IH o r).
Qed.

(** ** The merges of [setup] concatenate arrays *)

Lemma getPath_array_pathClear : forall path v xs,
  getPath path v = VArr xs -> pathClear path v = true.
Proof.
  induction path as [|k path IH]; intros v xs H; [reflexivity|].
  simpl in *. destruct v; simpl in *;
    try (rewrite getPath_undef in H; discriminate).
  now apply (IH _ xs).
Qed.

Lemma mergeWith_single c o fs :
  mergeWith o [VObj fs] c = mergeFields (Some c) o fs.
Proof.
  unfold mergeWith. simpl. now destruct (mergeFields (Some c) o fs).
Qed.

Lemma mergeAll_app c : forall xs ys o,
  mergeAll c o (xs ++ ys) = (o' <- mergeAll c o xs ;; mergeAll c o' ys).
Proof.
  induction xs as [|x xs IH]; intros ys o; simpl; [reflexivity|].
  destruct (truthy x); [|apply IH].
  destruct (baseMerge c o x); simpl; [apply IH|reflexivity].
Qed.

(** Both merges of [setup] are made of single [mergeWith] steps that
    carry the customizer. *)
Lemma resolveOptions_steps h moduleOptions :
  resolveOptions h moduleOptions =
  (o1 <- mergeWith [] [VObj (defaults h)] mergeWithCustomizer ;;
   o2 <- mergeWith o1 [(nuxt_sentry h ||| VObj [])%js] mergeWithCustomizer ;;
   o3 <- mergeWith o2 [moduleOptions] mergeWithCustomizer ;;
   if truthy (get "publishRelease" o3) then
     merged <- mergeWith defaultsPublishRelease [get "publishRelease" o3]
                 mergeWithCustomizer ;;
     Ok (set "publishRelease" (VObj merged) o3)
   else Ok o3).
Proof.
  unfold resolveOptions, mergedOptions, mergeWith.
  change [VObj (defaults h); (nuxt_sentry h ||| VObj [])%js; moduleOptions]
    with ([VObj (defaults h)] ++ [(nuxt_sentry h ||| VObj [])%js] ++ [moduleOptions]).
  rewrite mergeAll_app.
  destruct (mergeAll (Some mergeWithCustomizer) [] [VObj (defaults h)]) as [o1|e];
    cbn [bind]; [|reflexivity].
  rewrite mergeAll_app.
  destruct (mergeAll (Some mergeWithCustomizer) o1 [(nuxt_sentry h ||| VObj [])%js])
    as [o2|e]; cbn [bind]; reflexivity.
Qed.

Lemma defaults_keys h : NoDup (keys (defaults h)).
Proof. apply nodupb_NoDup. reflexivity. Qed.

Lemma arrayFree_field k v : arrayFree v = true -> arrayFree (field k v) = true.
Proof.
  destruct v; simpl; try reflexivity. intros H. unfold get.
  destruct (lookup k fields) eqn:E; [|reflexivity].
  apply lookup_In in E. rewrite forallb_forall in H. apply (H _ E).
Qed.

Lemma arrayFree_pathClear : forall path v,
  arrayFree v = true -> pathClear path v = true.
Proof.
  induction path as [|k path IH]; intros v H; [reflexivity|]. simpl.
  rewrite (IH _ (arrayFree_field k v H)). now destruct v.
Qed.

Lemma arrayFree_getPath : forall path v,
  arrayFree v = true -> isArray (getPath path v) = false.
Proof.
  induction path as [|k path IH]; intros v H; simpl.
  - now destruct v.
  - apply IH. now apply arrayFree_field.
Qed.

Lemma wf_envFlag h name fallback : wf (envFlag h name fallback) = true.
Proof. unfold envFlag, js_or. simpl. now destruct (envToBool (env h name)). Qed.

Lemma arrayFree_envFlag h name fallback : arrayFree (envFlag h name fallback) = true.
Proof. unfold envFlag, js_or. simpl. now destruct (envToBool (env h name)). Qed.

(** In a build whose [dev] option is a boolean the defaults are well
    formed and hold no array. *)
Lemma defaults_wf h : isBoolean (nuxt_dev h) = true -> wf (VObj (defaults h)) = true.
Proof.
  intros Hdev. apply wf_obj. split; [apply defaults_keys|]. split; [reflexivity|].
  unfold defaults. repeat constructor; simpl snd;
    try apply wf_envFlag; try reflexivity.
  - unfold envValue, js_or. now destruct (env h "SENTRY_DSN") as [[|]|].
  - simpl. destruct (nuxt_dev h); try discriminate. reflexivity.
Qed.

Lemma defaults_arrayFree h :
  isBoolean (nuxt_dev h) = true -> arrayFree (VObj (defaults h)) = true.
Proof.
  intros Hdev. unfold defaults. cbn [arrayFree forallb].
  rewrite !arrayFree_envFlag.
  assert (arrayFree (envValue h "SENTRY_DSN" ||| VStr "")%js = true) as ->.
  { unfold envValue, js_or. now destruct (env h "SENTRY_DSN") as [[|]|]. }
  destruct (nuxt_dev h); try discriminate. reflexivity.
Qed.

Lemma lengthFree_field k v : lengthFree v = true -> lengthFree (field k v) = true.
Proof.
  destruct v; simpl; try reflexivity. intros H. unfold get.
  destruct (lookup k fields) eqn:E; [|reflexivity].
  apply lookup_In in E. rewrite forallb_forall in H. apply H in E.
  now apply andb_true_iff in E.
Qed.

Lemma lengthFree_getPath : forall path v,
  lengthFree v = true -> lengthFree (getPath path v) = true.
Proof.
  induction path as [|k path IH]; intros v H; simpl; [assumption|].
  apply IH. now apply lengthFree_field.
Qed.

(** A plain object without a [length] property is not array-like. *)
Lemma lengthFree_arrayBase o : lengthFree (VObj o) = true -> arrayBase (VObj o) = Ok [].
Proof.
  intros H. simpl.
  assert (lookup "length" o = None) as Hl.
  { apply lookup_None_keys. intros Hin. apply in_map_iff in Hin.
    destruct Hin as ([k x] & Hk & Hin). simpl in Hk. subst k.
    simpl in H. rewrite forallb_forall in H. apply H in Hin. discriminate. }
  unfold get. now rewrite Hl.
Qed.

Lemma lengthFree_envFlag h name fallback : lengthFree (envFlag h name fallback) = true.
Proof. unfold envFlag, js_or. simpl. now destruct (envToBool (env h name)). Qed.

Lemma defaults_lengthFree h :
  isBoolean (nuxt_dev h) = true -> lengthFree (VObj (defaults h)) = true.
Proof.
  intros Hdev. unfold defaults. cbn [lengthFree forallb].
  rewrite !lengthFree_envFlag.
  assert (lengthFree (envValue h "SENTRY_DSN" ||| VStr "")%js = true) as ->.
  { unfold envValue, js_or. now destruct (env h "SENTRY_DSN") as [[|]|]. }
  destruct (nuxt_dev h); try discriminate. reflexivity.
Qed.

(** The chain of [setup]: an array of the top-level options and an array
    of the module options at the same place end up concatenated. *)
Lemma mergedOptions_concatenate h top moduleOptions options path xs ys :
  isBoolean (nuxt_dev h) = true ->
  nuxt_sentry h = VObj top ->
  wf (VObj top) = true ->
  wf (VObj moduleOptions) = true ->
  path <> [] ->
  getPath path (VObj top) = VArr xs ->
  getPath path (VObj moduleOptions) = VArr ys ->
  mergedOptions h (VObj moduleOptions) = Ok options ->
  getPath path (VObj options) = VArr (xs ++ ys).
Proof.
  intros Hdev Htop Hwft Hwfm Hne Hxs Hys H.
  unfold mergedOptions, mergeWith in H. rewrite Htop in H.
  change (mergeAll (Some mergeWithCustomizer) []
            [VObj (defaults h); (VObj top ||| VObj [])%js; VObj moduleOptions])
    with (o1 <- mergeFields (Some mergeWithCustomizer) [] (defaults h) ;;
          o2 <- mergeFields (Some mergeWithCustomizer) o1 top ;;
          o3 <- mergeFields (Some mergeWithCustomizer) o2 moduleOptions ;;
          Ok o3) in H.
  rewrite (mergeFields_clone _ _ quietOnUndef_customizer (defaults_wf h Hdev)) in H.
  cbn [bind] in H.
  apply bind_Ok in H. destruct H as (o2 & H2 & H).
  apply bind_Ok in H. destruct H as (o3 & H3 & H). inversion H. subst o3.
  assert (forall o', getPath path (VObj (defaults h)) = VObj o' ->
                     arrayBase (VObj o') = Ok []) as Hal.
  { intros o' Ho'. apply lengthFree_arrayBase. rewrite <- Ho'.
    apply lengthFree_getPath. now apply defaults_lengthFree. }
  pose proof (mergeFields_path path (defaults h) top o2 xs Hne Hwft
                (arrayFree_pathClear _ _ (defaults_arrayFree h Hdev)) Hal H2 Hxs) as Ho2.
  pose proof (arrayFree_getPath path _ (defaults_arrayFree h Hdev)) as Hna.
  assert (forall o', getPath path (VObj o2) = VObj o' -> arrayBase (VObj o') = Ok [])
    as Hal2.
  { intros o' Ho'. rewrite Ho2 in Ho'. discriminate. }
  destruct (getPath path (VObj (defaults h))); try discriminate;
    rewrite (mergeFields_path path o2 moduleOptions options ys Hne Hwfm
               (getPath_array_pathClear _ _ _ Ho2) Hal2 H3 Hys), Ho2; reflexivity.
Qed.

Example setup_options_sample :
  exists options,
    resolveOptions
      (hostWithTopLevel (VObj [("config", VObj [("ignoreErrors", VArr [VStr "a"])])]))
      (VObj [("config", VObj [("ignoreErrors", VArr [VStr "b"])]);
             ("publishRelease",
               VObj [("include", VArr [VStr "dist"]); ("ignore", VArr [VStr "tmp"])])])
    = Ok options
    /\ getPath ["config"; "ignoreErrors"] (VObj options) = VArr [VStr "a"; VStr "b"]
    /\ getPath ["publishRelease"; "include"] (VObj options) = VArr [VStr "dist"]
    /\ getPath ["publishRelease"; "ignore"] (VObj options)
       = VArr [VStr "node_modules"; VStr ".nuxt/dist/client/img"; VStr "tmp"].
Proof. eexists. split; [vm_compute; reflexivity|]. repeat split. Qed.

(** ** The [initialize] default *)

Lemma mergeWith_one_Ok o x c r :
  mergeWith o [x] c = Ok r ->
  (truthy x = true /\ baseMerge (Some c) o x = Ok r) \/ (truthy x = false /\ r = o).
Proof.
  unfold mergeWith. simpl. destruct (truthy x).
  - destruct (baseMerge (Some c) o x); simpl; intros H; inversion H; auto.
  - intros H. inversion H. auto.
Qed.

Lemma baseMerge_frame c o s r k :
  baseMerge c o s = Ok r -> mentions k s = false -> get k r = get k o.
Proof.
  intros Hm Hk. destruct s as [| | |n|str|[|x xs]|fs| |]; simpl in Hm;
    try discriminate; try (inversion Hm; reflexivity).
  unfold get. rewrite (mergeFields_frame c k fs o r); [reflexivity| |assumption].
  simpl in Hk. unfold has in Hk. now destruct (lookup k fs).
Qed.

Lemma mergeWith_one_frame o x c r k :
  mergeWith o [x] c = Ok r -> mentions k x = false -> get k r = get k o.
Proof.
  intros Hm Hk. destruct (mergeWith_one_Ok _ _ _ _ Hm) as [[_ H]|[_ ->]]; [|reflexivity].
  now apply (baseMerge_frame _ _ _ _ _ H).
Qed.

(** What the chain holds at a key after the defaults went in: the default,
    when it is a primitive other than [undefined]. *)
Lemma defaults_step h k v o1 :
  mergeWith [] [VObj (defaults h)] mergeWithCustomizer = Ok o1 ->
  lookup k (defaults h) = Some (VBool v) ->
  get k o1 = VBool v.
Proof.
  intros Hm Hk. rewrite mergeWith_single in Hm.
  destruct (mergeFields_at _ _ _ _ _ _ (defaults_keys h) Hk Hm) as (x & Hx & Hg).
  simpl in Hx. inversion Hx. subst x. exact Hg.
Qed.

Lemma get_set_publishRelease k v o :
  k <> "publishRelease" -> get k (set "publishRelease" v o) = get k o.
Proof. intros H. apply get_set_ne. congruence. Qed.

(** C10: whatever [SENTRY_INITIALIZE] holds, the default of [initialize]
    is true; the resolved flag stays true as long as neither the top-level
    options nor the module options have an [initialize] key; module
    options with [initialize: false] turn it off. *)
Theorem initialize_default_true (h : host) :
  (VBool (envToBool (env h "SENTRY_INITIALIZE")) ||| VBool true)%js = VBool true
  /\ get "initialize" (defaults h) = VBool true
  /\ (forall moduleOptions options,
        mentions "initialize" (nuxt_sentry h) = false ->
        mentions "initialize" moduleOptions = false ->
        resolveOptions h moduleOptions = Ok options ->
        get "initialize" options = VBool true)
  /\ (forall moduleOptions options,
        mentions "initialize" (nuxt_sentry h) = false ->
        wf (VObj moduleOptions) = true ->
        lookup "initialize" moduleOptions = Some (VBool false) ->
        resolveOptions h (VObj moduleOptions) = Ok options ->
        get "initialize" options = VBool false).
Proof.
  assert (get "initialize" (defaults h) = VBool true) as Hd.
  { unfold get. simpl. apply envFlag_true. }
  assert (forall moduleOptions options,
            mentions "initialize" (nuxt_sentry h) = false ->
            resolveOptions h moduleOptions = Ok options ->
            exists o2 o3,
              get "initialize" o2 = VBool true
              /\ mergeWith o2 [moduleOptions] mergeWithCustomizer = Ok o3
              /\ get "initialize" options = get "initialize" o3) as Hsteps.
  { intros m options Htop Hr. rewrite resolveOptions_steps in Hr.
    apply bind_Ok in Hr. destruct Hr as (o1 & H1 & Hr).
    apply bind_Ok in Hr. destruct Hr as (o2 & H2 & Hr).
    apply bind_Ok in Hr. destruct Hr as (o3 & H3 & Hr).
    exists o2, o3. split; [|split; [assumption|]].
    - rewrite (mergeWith_one_frame _ _ _ _ "initialize" H2).
      + apply (defaults_step h _ _ _ H1). unfold get in Hd. simpl in Hd |- *.
        now rewrite envFlag_true.
      + unfold js_or. destruct (truthy (nuxt_sentry h)); [assumption|reflexivity].
    - destruct (truthy (get "publishRelease" o3)).
      + apply bind_Ok in Hr. destruct Hr as (merged & _ & Hr). inversion Hr.
        apply get_set_publishRelease. discriminate.
      + now inversion Hr. }
  split; [apply envFlag_true|]. split; [exact Hd|]. split.
  - intros m options Htop Hm Hr.
    destruct (Hsteps m options Htop Hr) as (o2 & o3 & H2 & H3 & ->).
    now rewrite (mergeWith_one_frame _ _ _ _ "initialize" H3).
  - intros m options Htop Hwf Hk Hr.
    destruct (Hsteps (VObj m) options Htop Hr) as (o2 & o3 & H2 & H3 & ->).
    rewrite mergeWith_single in H3. apply wf_obj in Hwf. destruct Hwf as [Hnd _].
    destruct (mergeFields_at _ _ _ _ _ _ Hnd Hk H3) as (x & Hx & Hg).
    rewrite H2 in Hx. simpl in Hx. inversion Hx. subst x. exact Hg.
Qed.

Lemma initialize_default_true_witness :
  (exists options,
     resolveOptions (hostWithEnv "SENTRY_INITIALIZE" "false")
       (VObj [("dsn", VStr "https://key@sentry.io/1")]) = Ok options
     /\ get "initialize" options = VBool true)
  /\ (exists options,
        resolveOptions (hostWithEnv "SENTRY_INITIALIZE" "true")
          (VObj [("initialize", VBool false)]) = Ok options
        /\ get "initialize" options = VBool false).
Proof.
  split.
  - destruct (resolveOptions (hostWithEnv "SENTRY_INITIALIZE" "false")
                (VObj [("dsn", VStr "https://key@sentry.io/1")])) as [options|e] eqn:Hrun.
    2:{ vm_compute in Hrun. discriminate. }
    exists options. split; [reflexivity|].
    apply (proj1 (proj2 (proj2 (initialize_default_true
             (hostWithEnv "SENTRY_INITIALIZE" "false"))))
             (VObj [("dsn", VStr "https://key@sentry.io/1")]) options);
      [reflexivity|reflexivity|exact Hrun].
  - destruct (resolveOptions (hostWithEnv "SENTRY_INITIALIZE" "true")
                (VObj [("initialize", VBool false)])) as [options|e] eqn:Hrun.
    2:{ vm_compute in Hrun. discriminate. }
    exists options. split; [reflexivity|].
    apply (proj2 (proj2 (proj2 (initialize_default_true
             (hostWithEnv "SENTRY_INITIALIZE" "true"))))
             [("initialize", VBool false)] options);
      [reflexivity|reflexivity|reflexivity|exact Hrun].
Defined.

(** ** The logger *)

Lemma addLog_nil w : addLog [] w = w.
Proof. destruct w. unfold addLog. simpl. now rewrite app_nil_r. Qed.

Lemma addLog_app a b w : addLog b (addLog a w) = addLog (a ++ b) w.
Proof. unfold addLog. simpl. now rewrite app_assoc. Qed.

Lemma logged_addLog a w : logged (addLog a w) = logged w ++ a.
Proof. reflexivity. Qed.

(** ** Validation of the integration toggles *)

(** The loop warns once for every unrecognized name of the snapshot, in
    order, deletes exactly these names from [options[side]] and leaves
    every other option alone. *)
Lemma dropUnrecognized_run unrecognized warning side : forall names options w,
  exists options',
    dropUnrecognized unrecognized warning side names options w
    = Ok (options',
          addLog (map (fun n => Warn (warning n) []) (filter unrecognized names)) w)
    /\ (filter unrecognized names = [] -> options' = options)
    /\ (filter unrecognized names <> [] ->
        get side options'
        = fold_left (fun v n => deleteProp n v) (filter unrecognized names)
                    (get side options))
    /\ (forall k, k <> side -> get k options' = get k options).
Proof.
  induction names as [|name names IH]; intros options w; simpl.
  - exists options. rewrite addLog_nil. repeat split; congruence.
  - destruct (unrecognized name) eqn:Hu.
    + destruct (IH (set side (deleteProp name (get side options)) options)
                   (addLog [Warn (warning name) []] w))
        as (options' & Hrun & Hnil & Hside & Hother).
      exists options'. unfold mbind, logger_warn. rewrite Hrun, addLog_app.
      split; [reflexivity|]. split; [discriminate|]. split.
      * intros _. simpl.
        destruct (filter unrecognized names) eqn:Hf.
        -- rewrite (Hnil eq_refl). simpl. apply get_set_eq.
        -- rewrite Hside by discriminate. now rewrite get_set_eq.
      * intros k Hk. rewrite (Hother k Hk). apply get_set_ne. congruence.
    + destruct (IH options w) as (options' & Hrun & Hnil & Hside & Hother).
      exists options'. repeat split; assumption.
Qed.

Lemma fold_deleteProp names : forall m,
  fold_left (fun v n => deleteProp n v) names (VObj m)
  = VObj (filter (fun kv => negb (includes names (fst kv))) m).
Proof.
  induction names as [|n names IH]; intros m; simpl.
  - f_equal. induction m as [|kv m IHm]; simpl; congruence.
  - rewrite IH. f_equal. unfold delete. clear IH.
    induction m as [|[k v] m IHm]; simpl; [reflexivity|].
    rewrite (String.eqb_sym k n).
    destruct (n =? k); simpl; [assumption|].
    destruct (includes names k); simpl; congruence.
Qed.

Lemma includes_In xs s : includes xs s = true <-> In s xs.
Proof.
  unfold includes. rewrite existsb_exists. split.
  - intros (x & Hx & E). apply String.eqb_eq in E. now subst.
  - intros H. exists s. split; [assumption|apply String.eqb_refl].
Qed.

Lemma filter_dropped unrecognized (m : obj) :
  filter (fun kv => negb (includes (filter unrecognized (keys m)) (fst kv))) m
  = filter (fun kv => negb (unrecognized (fst kv))) m.
Proof.
  apply filter_ext_in. intros [k v] Hin. simpl. f_equal.
  destruct (unrecognized k) eqn:Hu.
  - apply includes_In. apply filter_In. split; [|assumption].
    unfold keys. apply in_map_iff. exists (k, v). auto.
  - destruct (includes (filter unrecognized (keys m)) k) eqn:E; [|reflexivity].
    apply includes_In, filter_In in E. destruct E. congruence.
Qed.

(** The validation loop on options whose [side] entry is the map [m]. *)
Lemma dropUnrecognized_map unrecognized warning side options m w :
  get side options = VObj m ->
  exists options',
    dropUnrecognized unrecognized warning side (keys m) options w
    = Ok (options',
          addLog (map (fun n => Warn (warning n) []) (filter unrecognized (keys m))) w)
    /\ get side options' = VObj (filter (fun kv => negb (unrecognized (fst kv))) m)
    /\ (forall k, k <> side -> get k options' = get k options).
Proof.
  intros Hm.
  destruct (dropUnrecognized_run unrecognized warning side (keys m) options w)
    as (options' & Hrun & Hnil & Hside & Hother).
  exists options'. split; [assumption|]. split; [|assumption].
  rewrite <- filter_dropped.
  destruct (filter unrecognized (keys m)) eqn:Hf.
  - rewrite (Hnil eq_refl), Hm. apply (fold_deleteProp [] m).
  - rewrite Hside by discriminate. rewrite Hm. apply fold_deleteProp.
Qed.

(** ** Merging without a customizer *)

(** Over a destination value that is not a container, the source value is
    copied. *)
Lemma mergeValue_over_flat o s :
  flat o = true -> wf s = true -> mergeValue None o s = Ok s.
Proof.
  intros Ho Hs. pose proof (mergeValue_clone None quietOnUndef_None s Hs) as H.
  destruct s; try exact H.
  - rewrite mergeValue_arr in *. destruct o; try discriminate; exact H.
  - rewrite mergeValue_obj in *. destruct o; try discriminate; exact H.
Qed.

(** Merging a well-formed object into a destination whose values at the
    source's keys are not containers: every merge succeeds, a source value
    other than [undefined] replaces the destination's, and the other keys
    are untouched. *)
Lemma mergeFields_over_flat : forall sf o,
  wf (VObj sf) = true ->
  (forall k, In k (keys sf) -> flat (get k o) = true) ->
  exists r,
    mergeFields None o sf = Ok r
    /\ (forall k s, lookup k sf = Some s ->
                    get k r = if isUndef s then get k o else s)
    /\ (forall k, lookup k sf = None -> get k r = get k o).
Proof.
  induction sf as [|[k s] sf IH]; intros o Hwf Hflat.
  - exists o. split; [reflexivity|split; [discriminate|reflexivity]].
  - pose proof Hwf as Hwf'. apply wf_obj in Hwf'. destruct Hwf' as (Hnd & Hkeys & Hall).
    inversion Hnd as [|? ? Hnotin Hnd']; inversion Hall as [|? ? Hs Hall']; subst.
    simpl in Hs. unfold modelledKeys in Hkeys. simpl in Hkeys.
    apply andb_true_iff in Hkeys. destruct Hkeys as [Hmk Hkeys'].
    assert (wf (VObj sf) = true) as Hwfsf by (apply wf_obj; auto).
    destruct (IH (assignMergeValue o k s) Hwfsf) as (r & Hr & Hat & Hfr).
    { intros k' Hin. unfold get. rewrite lookup_assign_ne.
      - apply Hflat. now right.
      - intros ->. contradiction. }
    exists r. split; [|split].
    + simpl. rewrite Hmk, (mergeValue_over_flat _ _ (Hflat k (or_introl eq_refl)) Hs).
      exact Hr.
    + intros k' s' Hk'. simpl in Hk'. destruct (String.eqb_spec k k') as [<-|Hne].
      * inversion Hk'. subst s'.
        rewrite (Hfr k (proj2 (lookup_None_keys k sf) Hnotin)). apply get_assign_eq.
      * rewrite (Hat k' s' Hk'). unfold get. now rewrite lookup_assign_ne.
    + intros k' Hk'. simpl in Hk'. destruct (String.eqb_spec k k') as [E|Hne];
        [discriminate|].
      rewrite (Hfr k' Hk'). unfold get. now rewrite lookup_assign_ne.
Qed.

(** ** Frames of the option helpers *)

Lemma resolveLazyOptions_frame options apiMethods w options' w' :
  resolveLazyOptions options apiMethods w = Ok (options', w') ->
  (forall k, k <> "lazy" -> get k options' = get k options)
  /\ exists msgs, w' = addLog msgs w.
Proof.
  unfold resolveLazyOptions. intros H.
  destruct (truthy (get "lazy" options)).
  2:{ inversion H. split; [reflexivity|]. exists []. now rewrite addLog_nil. }
  apply mbind_Ok in H. destruct H as (lz & w1 & Hl & H).
  apply lift_Ok in Hl. destruct Hl as [_ ->].
  assert (forall v, (forall k, k <> "lazy" -> get k (set "lazy" v options) = get k options))
    as Hset by (intros v k Hk; apply get_set_ne; congruence).
  destruct (negb (truthy (get "injectMock" lz))).
  { inversion H. split; [apply Hset|]. exists []. now rewrite addLog_nil. }
  destruct (get "mockApiMethods" lz) as [| |[|]| | |xs| | |];
    try (inversion H; split; [apply Hset|]; exists []; now rewrite addLog_nil).
  apply mbind_Ok in H. destruct H as ([] & w1 & Hw & H). inversion H. subst.
  split; [apply Hset|].
  destruct (negb (_ =? 0)%nat).
  - unfold logger_warn in Hw. inversion Hw. eauto.
  - inversion Hw. exists []. now rewrite addLog_nil.
Qed.

Lemma resolveTracingOptions_frame options options' :
  resolveTracingOptions options = Ok options' ->
  forall k, k <> "tracing" -> k <> "config" -> get k options' = get k options.
Proof.
  unfold resolveTracingOptions. intros H k Ht Hc.
  destruct (truthy (get "tracing" options)); [|now inversion H].
  apply bind_Ok in H. destruct H as (tr & _ & H).
  apply bind_Ok in H. destruct H as (rate & _ & H).
  destruct (negb (truthy rate)).
  - apply bind_Ok in H. destruct H as (cfg & _ & H). inversion H.
    rewrite get_set_ne by congruence. apply get_set_ne. congruence.
  - inversion H. apply get_set_ne. congruence.
Qed.

(** ** The lazy options *)

Lemma defaultLazyOptions_flat k : flat (get k defaultLazyOptions) = true.
Proof.
  unfold get, defaultLazyOptions. simpl.
  repeat match goal with
         | |- context [if ?b then _ else _] => destruct b; [reflexivity|]
         end.
  reflexivity.
Qed.

(** The lazy options after the merge over the defaults, for user options
    [lz]: the merge succeeds, and a key the user set to something else
    than [undefined] holds the user's value. *)
Lemma merge_lazy_defaults lz :
  wf (VObj lz) = true ->
  exists merged,
    merge [] [VObj defaultLazyOptions; VObj lz] = Ok merged
    /\ (forall k s, lookup k lz = Some s ->
                    get k merged = if isUndef s then get k defaultLazyOptions else s)
    /\ (forall k, lookup k lz = None -> get k merged = get k defaultLazyOptions).
Proof.
  intros Hwf.
  destruct (mergeFields_over_flat lz defaultLazyOptions Hwf) as (r & Hr & Hat & Hfr).
  { intros k _. apply defaultLazyOptions_flat. }
  exists r. split; [|split; assumption].
  unfold merge. change (mergeAll None [] [VObj defaultLazyOptions; VObj lz])
    with (o <- mergeFields None defaultLazyOptions lz ;; Ok o).
  now rewrite Hr.
Qed.

Lemma arrayIncludes_In vs s : arrayIncludes vs s = true -> In (VStr s) vs.
Proof.
  unfold arrayIncludes. rewrite existsb_exists. intros (v & Hv & E).
  destruct v; try discriminate. apply String.eqb_eq in E. now subst.
Qed.

(** C5: when the lazy options are an object that asks for mocking
    ([injectMock] left at its default or set to a truthy value) and gives
    [mockApiMethods] as an array, [resolveLazyOptions] returns, and the
    resolved [mockApiMethods] is an array that contains captureException
    (whether or not it was requested, and whether or not the library
    exports it) next to every requested method the library exports. *)
Theorem mock_includes_captureException
  (options lz : obj) (apiMethods : list string) (requested : list value) (w : world) :
  get "lazy" options = VObj lz ->
  wf (VObj lz) = true ->
  get "injectMock" lz = VUndef \/ truthy (get "injectMock" lz) = true ->
  get "mockApiMethods" lz = VArr requested ->
  exists options' w' mocked,
    resolveLazyOptions options apiMethods w = Ok (options', w')
    /\ getPath ["lazy"; "mockApiMethods"] (VObj options') = VArr mocked
    /\ In (VStr "captureException") mocked
    /\ (forall m, In m requested -> includesValue apiMethods m = true -> In m mocked).
Proof.
  intros Hlazy Hwf Hinject Hmock.
  destruct (merge_lazy_defaults lz Hwf) as (merged & Hmerge & Hat & Hfr).
  assert (truthy (get "injectMock" merged) = true) as Hi.
  { unfold get in Hinject. destruct (lookup "injectMock" lz) as [s|] eqn:E.
    - rewrite (Hat _ _ E). destruct Hinject as [->|Ht]; [reflexivity|].
      destruct s; try discriminate; exact Ht.
    - now rewrite (Hfr _ E). }
  assert (get "mockApiMethods" merged = VArr requested) as Hm.
  { unfold get in Hmock. destruct (lookup "mockApiMethods" lz) as [s|] eqn:E;
      [|discriminate].
    subst s. now rewrite (Hat _ _ E). }
  unfold resolveLazyOptions. rewrite Hlazy. simpl truthy. cbv iota.
  unfold mbind at 1. unfold lift. rewrite Hmerge, Hi. simpl negb. cbv iota.
  rewrite Hm.
  set (found := filter (fun method => includesValue apiMethods method) requested).
  set (notfound := filter (fun method => negb (includesValue apiMethods method)) requested).
  set (mocked := if negb (arrayIncludes found "captureException")
                 then found ++ [VStr "captureException"] else found).
  assert (forall w0 : world, exists w1,
            ((if negb (List.length notfound =? 0)%nat
              then logger_warn
                     "Some specified methods to mock weren't found in @sentry/browser:"
                     [VArr notfound]
              else ret tt) ;;;
             ret (set "lazy" (VObj (set "mockApiMethods" (VArr mocked) merged)) options)) w0
            = Ok (set "lazy" (VObj (set "mockApiMethods" (VArr mocked) merged)) options, w1))
    as Hrun.
  { intros w0. unfold mbind. destruct (negb (List.length notfound =? 0)%nat);
      simpl; unfold ret; eauto. }
  destruct (Hrun w) as (w1 & Hw1).
  exists (set "lazy" (VObj (set "mockApiMethods" (VArr mocked) merged)) options), w1, mocked.
  split; [exact Hw1|]. split.
  - simpl. rewrite get_set_eq. simpl. now rewrite get_set_eq.
  - split.
    + subst mocked. destruct (arrayIncludes found "captureException") eqn:E; simpl.
      * now apply arrayIncludes_In.
      * apply in_or_app. right. now left.
    + intros m Hin Hinc.
      assert (In m found) as Hf by (apply filter_In; auto).
      subst mocked. destruct (negb (arrayIncludes found "captureException"));
        [apply in_or_app; now left|assumption].
Qed.

Lemma mock_includes_captureException_witness :
  exists options' w' mocked,
    resolveLazyOptions
      [("lazy", VObj [("mockApiMethods", VArr [VStr "foo"])])]
      ["init"; "captureException"; "captureMessage"] emptyWorld = Ok (options', w')
    /\ getPath ["lazy"; "mockApiMethods"] (VObj options') = VArr mocked
    /\ In (VStr "captureException") mocked
    /\ (forall m, In m [VStr "foo"] ->
                  includesValue ["init"; "captureException"; "captureMessage"] m = true ->
                  In m mocked).
Proof.
  apply (mock_includes_captureException
           [("lazy", VObj [("mockApiMethods", VArr [VStr "foo"])])]
           [("mockApiMethods", VArr [VStr "foo"])]
           ["init"; "captureException"; "captureMessage"] [VStr "foo"] emptyWorld);
    try reflexivity.
  left. reflexivity.
Defined.

Example mock_foo_only :
  exists options' w',
    resolveLazyOptions
      [("lazy", VObj [("mockApiMethods", VArr [VStr "foo"])])]
      ["init"; "captureException"; "captureMessage"] emptyWorld = Ok (options', w')
    /\ getPath ["lazy"; "mockApiMethods"] (VObj options') = VArr [VStr "captureException"]
    /\ logged w' = [Warn "Some specified methods to mock weren't found in @sentry/browser:"
                         [VArr [VStr "foo"]]].
Proof. eexists. eexists. split; [vm_compute; reflexivity|]. split; reflexivity. Qed.

(** ** The integrations a resolver hands over *)

Lemma keys_filter_fst (g : string -> bool) (m : obj) :
  keys (filter (fun kv => g (fst kv)) m) = filter g (keys m).
Proof.
  unfold keys. induction m as [|[k v] m IH]; simpl; [reflexivity|].
  destruct (g k); simpl; congruence.
Qed.

Lemma get_head k v m : get k ((k, v) :: m) = v.
Proof. unfold get. simpl. now rewrite String.eqb_refl. Qed.

Lemma get_tail k k' v m : k' <> k -> get k ((k', v) :: m) = get k m.
Proof.
  intros H. unfold get. simpl. destruct (String.eqb_spec k' k); [contradiction|reflexivity].
Qed.

(** The enabled toggles of a map, with their values. *)
Lemma enabled_entries (m : obj) :
  NoDup (keys m) ->
  map (fun key => (key, get key m)) (filter (fun key => truthy (get key m)) (keys m))
  = filter (fun kv => truthy (snd kv)) m.
Proof.
  induction m as [|[k v] m IH]; intros Hnd; [reflexivity|].
  inversion Hnd as [|? ? Hnotin Hnd']. subst. simpl.
  rewrite get_head.
  assert (forall k', In k' (keys m) -> get k' ((k, v) :: m) = get k' m) as Hget.
  { intros k' Hin. apply get_tail. intros ->. contradiction. }
  assert (filter (fun key => truthy (get key ((k, v) :: m))) (keys m)
          = filter (fun key => truthy (get key m)) (keys m)) as ->.
  { apply filter_ext_in. intros k' Hin. now rewrite Hget. }
  assert (map (fun key => (key, get key ((k, v) :: m)))
              (filter (fun key => truthy (get key m)) (keys m))
          = map (fun key => (key, get key m))
                (filter (fun key => truthy (get key m)) (keys m))) as Hmap.
  { apply map_ext_in. intros k' Hin. apply filter_In in Hin. destruct Hin as [Hin _].
    now rewrite Hget. }
  destruct (truthy v); simpl; rewrite ?get_head, Hmap, (IH Hnd'); reflexivity.
Qed.

(** [names.reduce((res, key) => { res[key] = f(key); return res }, acc)]
    over distinct names that [acc] does not have. *)
Lemma reduce_set (f : string -> value) : forall names acc,
  NoDup names -> (forall n, In n names -> ~ In n (keys acc)) ->
  fold_left (fun res key => set key (f key) res) names acc
  = acc ++ map (fun key => (key, f key)) names.
Proof.
  induction names as [|n names IH]; intros acc Hnd Hdis; simpl.
  - now rewrite app_nil_r.
  - inversion Hnd as [|? ? Hnotin Hnd']. subst.
    rewrite set_absent by (apply has_false_keys, Hdis; now left).
    rewrite IH; [now rewrite <- app_assoc|assumption|].
    intros n' Hin Hacc. unfold keys in Hacc. rewrite map_app in Hacc.
    apply in_app_or in Hacc. destruct Hacc as [Hacc|[<-|[]]].
    + apply (Hdis n'); [now right|assumption].
    + contradiction.
Qed.

Lemma filterDisabledIntegration_obj m :
  modelledKeys m = true ->
  filterDisabledIntegration (VObj m)
  = Ok (filter (fun key => truthy (get key m)) (keys m)).
Proof. intros H. unfold filterDisabledIntegration. simpl. now rewrite H. Qed.

Lemma modelledKeys_filter (f : string * value -> bool) (m : obj) :
  modelledKeys m = true -> modelledKeys (filter f m) = true.
Proof.
  unfold modelledKeys. rewrite !forallb_forall. intros H kv Hin.
  apply filter_In in Hin. apply H, Hin.
Qed.

Lemma getApiMethods_Ok h name api w w' :
  getApiMethods h name w = Ok (api, w') -> w' = w.
Proof.
  unfold getApiMethods. destruct (packages h name); intros H;
    [inversion H; reflexivity|discriminate].
Qed.

Lemma validateClientIntegrations_run options m w :
  get "clientIntegrations" options = VObj m ->
  modelledKeys m = true ->
  exists options',
    validateClientIntegrations options w
    = Ok (options',
          addLog (map (fun n => Warn (clientWarning n) [])
                      (filter clientUnrecognized (keys m))) w)
    /\ get "clientIntegrations" options'
       = VObj (filter (fun kv => negb (clientUnrecognized (fst kv))) m)
    /\ (forall k, k <> "clientIntegrations" -> get k options' = get k options).
Proof.
  intros Hm Hk. unfold validateClientIntegrations. rewrite Hm. unfold mbind, lift.
  simpl objectKeys. rewrite Hk. now apply dropUnrecognized_map.
Qed.

Lemma validateServerIntegrations_run options m w :
  get "serverIntegrations" options = VObj m ->
  modelledKeys m = true ->
  exists options',
    validateServerIntegrations options w
    = Ok (options',
          addLog (map (fun n => Warn (serverWarning n) [])
                      (filter serverUnrecognized (keys m))) w)
    /\ get "serverIntegrations" options'
       = VObj (filter (fun kv => negb (serverUnrecognized (fst kv))) m)
    /\ (forall k, k <> "serverIntegrations" -> get k options' = get k options).
Proof.
  intros Hm Hk. unfold validateServerIntegrations. rewrite Hm. unfold mbind, lift.
  simpl objectKeys. rewrite Hk. now apply dropUnrecognized_map.
Qed.

Lemma warning_logged (warning : string -> string) unrecognized names w name :
  In name names -> unrecognized name = true ->
  In (Warn (warning name) [])
     (logged (addLog (map (fun n => Warn (warning n) []) (filter unrecognized names)) w)).
Proof.
  intros Hin Hu. rewrite logged_addLog. apply in_or_app. right.
  apply in_map_iff. exists name. split; [reflexivity|].
  apply filter_In. auto.
Qed.

Lemma resolveClientOptions_integrations h moduleOptions m w payload w' :
  wf (VObj moduleOptions) = true ->
  get "clientIntegrations" moduleOptions = VObj m ->
  resolveClientOptions h moduleOptions w = Ok (payload, w') ->
  field "integrations" payload
  = VObj (filter (fun kv => truthy (snd kv))
                 (filter (fun kv => negb (clientUnrecognized (fst kv))) m))
  /\ (forall name, In name (keys m) -> clientUnrecognized name = true ->
                   In (Warn (clientWarning name) []) (logged w')).
Proof.
  intros Hwf Hm H. unfold resolveClientOptions in H.
  pose proof (get_wf "clientIntegrations" _ Hwf) as Hwm. rewrite Hm in Hwm.
  apply wf_obj in Hwm. destruct Hwm as (Hndm & Hkm & _).
  rewrite (merge_clone _ Hwf) in H.
  apply mbind_Ok in H. destruct H as (options0 & w0 & H0 & H).
  apply lift_Ok in H0. destruct H0 as [H0 ->]. inversion H0. subst options0. clear H0.
  apply mbind_Ok in H. destruct H as (clientConfig & w0 & H0 & H).
  apply lift_Ok in H0. destruct H0 as [_ ->].
  apply mbind_Ok in H. destruct H as (api & w0 & H0 & H).
  apply getApiMethods_Ok in H0. subst w0.
  apply mbind_Ok in H. destruct H as (options2 & w2 & H2 & H).
  apply resolveLazyOptions_frame in H2. destruct H2 as [Hf2 (msgs & ->)].
  apply mbind_Ok in H. destruct H as (options3 & w3 & H3 & H).
  apply lift_Ok in H3. destruct H3 as [H3 ->].
  pose proof (resolveTracingOptions_frame _ _ H3) as Hf3.
  assert (get "clientIntegrations" options3 = VObj m) as Hm3.
  { rewrite Hf3, Hf2 by discriminate. rewrite get_set_ne by discriminate. exact Hm. }
  apply mbind_Ok in H. destruct H as (options4 & w4 & H4 & H).
  destruct (validateClientIntegrations_run options3 m (addLog msgs w) Hm3 Hkm)
    as (options4' & Hrun & Hm4 & _).
  rewrite Hrun in H4. inversion H4. subst options4' w4. clear H4.
  apply mbind_Ok in H. destruct H as (config & w5 & H5 & H).
  apply lift_Ok in H5. destruct H5 as [_ ->].
  apply mbind_Ok in H. destruct H as (enabled & w5 & H5 & H).
  apply lift_Ok in H5. destruct H5 as [H5 ->].
  rewrite Hm4, filterDisabledIntegration_obj in H5 by now apply modelledKeys_filter.
  inversion H5. subst enabled. clear H5.
  unfold ret in H. inversion H. subst payload w'. clear H.
  assert (NoDup (keys (filter (fun kv => negb (clientUnrecognized (fst kv))) m))) as Hnd.
  { rewrite (keys_filter_fst (fun k => negb (clientUnrecognized k))).
    now apply NoDup_filter. }
  split.
  - unfold field at 1. unfold get at 1. simpl lookup. cbv iota. f_equal.
    rewrite Hm4. unfold field.
    rewrite reduce_set.
    + simpl app. now apply enabled_entries.
    + now apply NoDup_filter.
    + intros n _ [].
  - intros name Hin Hu. now apply warning_logged.
Qed.

Lemma resolveServerOptions_warnings h moduleOptions m w payload w' :
  wf (VObj moduleOptions) = true ->
  get "serverIntegrations" moduleOptions = VObj m ->
  resolveServerOptions h moduleOptions w = Ok (payload, w') ->
  forall name, In name (keys m) -> serverUnrecognized name = true ->
               In (Warn (serverWarning name) []) (logged w').
Proof.
  intros Hwf Hm H name Hin Hu. unfold resolveServerOptions in H.
  pose proof (get_wf "serverIntegrations" _ Hwf) as Hwm. rewrite Hm in Hwm.
  apply wf_obj in Hwm. destruct Hwm as (_ & Hkm & _).
  rewrite (merge_clone _ Hwf) in H.
  apply mbind_Ok in H. destruct H as (options0 & w0 & H0 & H).
  apply lift_Ok in H0. destruct H0 as [H0 ->]. inversion H0. subst options0. clear H0.
  apply mbind_Ok in H. destruct H as (options1 & w1 & H1 & H).
  destruct (validateServerIntegrations_run moduleOptions m w Hm Hkm)
    as (options1' & Hrun & _).
  rewrite Hrun in H1. inversion H1. subst options1' w1. clear H1 Hrun.
  apply mbind_Ok in H. destruct H as (enabled & w2 & H2 & H).
  apply lift_Ok in H2. destruct H2 as [_ ->].
  apply mbind_Ok in H. destruct H as (instances & w2 & H2 & H).
  apply lift_Ok in H2. destruct H2 as [_ ->].
  apply mbind_Ok in H. destruct H as (config0 & w2 & H2 & H).
  apply lift_Ok in H2. destruct H2 as [_ ->].
  apply mbind_Ok in H. destruct H as (options3 & w2 & H2 & H).
  apply lift_Ok in H2. destruct H2 as [_ ->].
  apply mbind_Ok in H. destruct H as (api & w2 & H2 & H).
  apply getApiMethods_Ok in H2. subst w2.
  apply mbind_Ok in H. destruct H as (options4 & w4 & H4 & H).
  apply resolveLazyOptions_frame in H4. destruct H4 as [_ (msgs & ->)].
  apply mbind_Ok in H. destruct H as (options5 & w5 & H5 & H).
  apply lift_Ok in H5. destruct H5 as [_ ->].
  unfold ret in H. inversion H. subst payload w'. clear H.
  rewrite logged_addLog. apply in_or_app. left. now apply warning_logged.
Qed.

(** C4: in both resolvers the validation loop, run on options whose
    integration map is the well-formed [m], returns; it removes from the
    map exactly the keys outside the side's allow-list, keeps every other
    entry as it is, and logs one warning per removed key.  For the resolvers as a whole:
    the integrations the client resolver hands over are the recognized
    entries of the map it was given that are not disabled, and when a
    resolver returns, the warning of every unrecognized key of its map is
    in the log. *)
Theorem integrations_validated :
  (forall options m w,
     get "clientIntegrations" options = VObj m ->
     wf (VObj m) = true ->
     exists options',
       validateClientIntegrations options w
       = Ok (options',
             addLog (map (fun n => Warn (clientWarning n) [])
                         (filter clientUnrecognized (keys m))) w)
       /\ get "clientIntegrations" options'
          = VObj (filter (fun kv => negb (clientUnrecognized (fst kv))) m))
  /\ (forall options m w,
        get "serverIntegrations" options = VObj m ->
        wf (VObj m) = true ->
        exists options',
          validateServerIntegrations options w
          = Ok (options',
                addLog (map (fun n => Warn (serverWarning n) [])
                            (filter serverUnrecognized (keys m))) w)
          /\ get "serverIntegrations" options'
             = VObj (filter (fun kv => negb (serverUnrecognized (fst kv))) m))
  /\ (forall h moduleOptions m w payload w',
        wf (VObj moduleOptions) = true ->
        get "clientIntegrations" moduleOptions = VObj m ->
        resolveClientOptions h moduleOptions w = Ok (payload, w') ->
        field "integrations" payload
        = VObj (filter (fun kv => truthy (snd kv))
                       (filter (fun kv => negb (clientUnrecognized (fst kv))) m))
        /\ (forall name, In name (keys m) -> clientUnrecognized name = true ->
                         In (Warn (clientWarning name) []) (logged w')))
  /\ (forall h moduleOptions m w payload w',
        wf (VObj moduleOptions) = true ->
        get "serverIntegrations" moduleOptions = VObj m ->
        resolveServerOptions h moduleOptions w = Ok (payload, w') ->
        forall name, In name (keys m) -> serverUnrecognized name = true ->
                     In (Warn (serverWarning name) []) (logged w')).
Proof.
  split; [|split; [|split; [|apply resolveServerOptions_warnings]]].
  - intros options m w Hm Hwf. apply wf_obj in Hwf. destruct Hwf as (_ & Hk & _).
    destruct (validateClientIntegrations_run options m w Hm Hk) as (o & H1 & H2 & _).
    eauto.
  - intros options m w Hm Hwf. apply wf_obj in Hwf. destruct Hwf as (_ & Hk & _).
    destruct (validateServerIntegrations_run options m w Hm Hk) as (o & H1 & H2 & _).
    eauto.
  - apply resolveClientOptions_integrations.
Qed.

Lemma integrations_validated_witness :
  (exists options',
     validateClientIntegrations sampleClientOptions emptyWorld
     = Ok (options', addLog [Warn (clientWarning "Foo") []] emptyWorld)
     /\ get "clientIntegrations" options' = VObj [("Vue", VObj [])])
  /\ (exists options',
        validateServerIntegrations sampleServerOptions emptyWorld
        = Ok (options', addLog [Warn (serverWarning "Vue") []] emptyWorld)
        /\ get "serverIntegrations" options'
           = VObj [("Dedupe", VObj []);
                   ("RewriteFrames", VObj [("root", VStr "/app")]);
                   ("Debug", VBool false)])
  /\ (exists payload w',
        resolveClientOptions sampleHost sampleClientOptions emptyWorld = Ok (payload, w')
        /\ field "integrations" payload = VObj [("Vue", VObj [])]
        /\ In (Warn (clientWarning "Foo") []) (logged w'))
  /\ (exists payload w',
        resolveServerOptions runtimeHost sampleServerOptions emptyWorld = Ok (payload, w')
        /\ In (Warn (serverWarning "Vue") []) (logged w')).
Proof.
  split; [|split; [|split]].
  - apply (proj1 integrations_validated sampleClientOptions
             [("Vue", VObj []); ("Foo", VObj [])] emptyWorld); reflexivity.
  - apply (proj1 (proj2 integrations_validated) sampleServerOptions
             sampleServerMap emptyWorld); reflexivity.
  - destruct (resolveClientOptions sampleHost sampleClientOptions emptyWorld)
      as [[payload w']|e] eqn:Hrun.
    2:{ vm_compute in Hrun. discriminate. }
    exists payload, w'. split; [reflexivity|].
    destruct (proj1 (proj2 (proj2 integrations_validated)) sampleHost sampleClientOptions
                [("Vue", VObj []); ("Foo", VObj [])] emptyWorld payload w'
                eq_refl eq_refl Hrun) as [H1 H2].
    split.
    + rewrite H1. reflexivity.
    + apply H2; [simpl; auto|reflexivity].
  - destruct (resolveServerOptions runtimeHost sampleServerOptions emptyWorld)
      as [[payload w']|e] eqn:Hrun.
    2:{ vm_compute in Hrun. discriminate. }
    exists payload, w'. split; [reflexivity|].
    apply (proj2 (proj2 (proj2 integrations_validated)) runtimeHost sampleServerOptions
             sampleServerMap emptyWorld payload w' eq_refl eq_refl Hrun);
      [simpl; auto|reflexivity].
Defined.

Example server_integrations_filtered :
  exists options',
    validateServerIntegrations
      [("serverIntegrations", VObj [("Dedupe", VObj []); ("Vue", VObj [])])] emptyWorld
    = Ok (options', addLog [Warn (serverWarning "Vue") []] emptyWorld)
    /\ get "serverIntegrations" options' = VObj [("Dedupe", VObj [])].
Proof. eexists. split; reflexivity. Qed.

(** ** The server configuration *)




Lemma mergeAll_frame c k : forall sources o r,
  mergeAll c o sources = Ok r ->
  Forall (fun s => mentions k s = false) sources ->
  get k r = get k o.
Proof.
  induction sources as [|s sources IH]; intros o r Hm Hs; simpl in Hm.
  - now inversion Hm.
  - inversion Hs; subst. destruct (truthy s).
    + apply bind_Ok in Hm. destruct Hm as (o' & Ho' & Hm).
      rewrite (IH _ _ Hm) by assumption. now apply (baseMerge_frame c o s o').
    + now apply IH.
Qed.

Lemma mergeValue_flat_source o v : flat v = true -> mergeValue None o v = Ok v.
Proof. destruct v; try discriminate; reflexivity. Qed.


Lemma runtimeSources_ext h o1 o2 :
  get "runtimeConfigKey" o1 = get "runtimeConfigKey" o2 ->
  runtimeSources h o1 = runtimeSources h o2.
Proof. unfold runtimeSources. now intros ->. Qed.

Lemma resolveTracingOptions_config options options' config :
  resolveTracingOptions options = Ok options' ->
  get "config" options = VObj config ->
  exists config',
    get "config" options' = VObj config'
    /\ forall k, k <> "tracesSampleRate" -> get k config' = get k config.
Proof.
  unfold resolveTracingOptions. intros H Hc.
  destruct (truthy (get "tracing" options)).
  2:{ inversion H. subst. eauto. }
  apply bind_Ok in H. destruct H as (tr & _ & H).
  rewrite (get_set_ne "tracing" "config") in H by discriminate. rewrite Hc in H.
  simpl in H. destruct (negb (truthy (get "tracesSampleRate" config))).
  - inversion H. rewrite get_set_eq. eexists. split; [reflexivity|].
    intros k Hk. apply get_set_ne. congruence.
  - inversion H. rewrite get_set_ne by discriminate. eauto.
Qed.

Lemma resolveTracingOptions_rate options options' config :
  get "config" options = VObj config ->
  resolveTracingOptions options = Ok options' ->
  truthy (get "tracing" options) = true ->
  exists tracing config',
    merge defaultTracingOptions
      [if isBoolean (get "tracing" options) then VObj [] else get "tracing" options]
    = Ok tracing
    /\ get "tracing" options' = VObj tracing
    /\ get "config" options' = VObj config'
    /\ get "tracesSampleRate" config'
       = (if truthy (get "tracesSampleRate" config)
          then get "tracesSampleRate" config
          else get "tracesSampleRate" tracing)
    /\ (forall k, k <> "tracesSampleRate" -> get k config' = get k config).
Proof.
  intros Hc H Ht. unfold resolveTracingOptions in H. rewrite Ht in H.
  apply bind_Ok in H. destruct H as (tr & Htr & H).
  rewrite (get_set_ne "tracing" "config") in H by discriminate. rewrite Hc in H.
  simpl in H. exists tr.
  destruct (truthy (get "tracesSampleRate" config)); simpl in H; inversion H.
  - exists config. rewrite get_set_eq, get_set_ne, Hc by discriminate.
    repeat split. exact Htr.
  - eexists. rewrite get_set_eq, get_set_ne, get_set_eq by discriminate.
    split; [exact Htr|]. split; [reflexivity|]. split; [reflexivity|].
    rewrite get_set_eq. split; [reflexivity|].
    intros k Hk. apply get_set_ne. congruence.
Qed.

Lemma mergeRuntimeConfig_frame h options options' :
  mergeRuntimeConfig h options = Ok options' ->
  forall k, k <> "config" -> get k options' = get k options.
Proof.
  unfold mergeRuntimeConfig. intros H k Hk.
  apply bind_Ok in H. destruct H as (overrides & _ & H).
  destruct overrides as [[rc rs]|]; [|now inversion H].
  destruct (get "config" options); try discriminate.
  apply bind_Ok in H. destruct H as (c & _ & H). inversion H.
  apply get_set_ne. congruence.
Qed.


(** ** The webpack:config hook *)

Lemma resolveRelease_object h options config w :
  get "config" options = VObj config ->
  resolveRelease h options w = Ok (autoRelease h config, w).
Proof.
  intros Hc. unfold resolveRelease, autoRelease. rewrite Hc.
  destruct (has "release" config); simpl; [reflexivity|].
  destruct (proposeVersion h); reflexivity.
Qed.

Lemma get_withUrlPrefix h p k :
  k <> "urlPrefix" -> get k (withUrlPrefix h p) = get k p.
Proof.
  intros Hk. unfold withUrlPrefix.
  destruct (negb (truthy (get "urlPrefix" p))); [|reflexivity].
  destruct (nuxt_router_base h); try reflexivity.
  destruct (nuxt_publicPath h); try reflexivity.
  apply get_set_ne. congruence.
Qed.

Lemma get_withIncludeArray p k :
  k <> "include" -> get k (withIncludeArray p) = get k p.
Proof.
  intros Hk. unfold withIncludeArray.
  destruct (negb (isArray (get "include" p))); [|reflexivity].
  apply get_set_ne. congruence.
Qed.

Lemma include_withIncludeArray p : exists inc, get "include" (withIncludeArray p) = VArr inc.
Proof.
  unfold withIncludeArray. destruct (isArray (get "include" p)) eqn:E; simpl.
  - destruct (get "include" p); try discriminate. eauto.
  - rewrite get_set_eq. eauto.
Qed.

Lemma withBuildDirs_array h options inc :
  exists inc', withBuildDirs h options (VArr inc) = Ok (VArr inc').
Proof.
  unfold withBuildDirs.
  destruct (negb (truthy (get "disableServerRelease" options)));
    destruct (negb (truthy (get "disableClientRelease" options))); simpl; eauto.
Qed.

(** With publishing options and a configuration that are objects, the
    hook resolves its publishing options without touching the world; their
    release is the configured one, else the one the publishing options
    carry, else the proposed one. *)
Lemma resolvePublishRelease_run h options pr config w :
  get "publishRelease" options = VObj pr ->
  wf (VObj pr) = true ->
  get "config" options = VObj config ->
  exists p,
    resolvePublishRelease h options w = Ok (p, w)
    /\ truthy (get "release" p) = releaseResolved h config pr
    /\ get "setCommits" p = get "setCommits" pr.
Proof.
  intros Hpr Hwf Hc. unfold resolvePublishRelease.
  rewrite Hpr, (merge_clone _ Hwf). unfold mbind at 1. unfold lift at 1.
  cbv beta iota zeta.
  destruct (include_withIncludeArray (withUrlPrefix h pr)) as (inc & Hinc).
  rewrite Hinc.
  destruct (withBuildDirs_array h options inc) as (inc' & ->).
  unfold mbind at 1. unfold lift at 1. cbv beta iota.
  rewrite Hc. simpl prop. unfold mbind at 1. unfold lift at 1. cbv beta iota.
  rewrite (get_set_ne "include" "release") by discriminate.
  rewrite get_withIncludeArray, get_withUrlPrefix by discriminate.
  assert (forall v, get "setCommits"
                      (set "release" v
                         (set "include" (VArr inc') (withIncludeArray (withUrlPrefix h pr))))
                    = get "setCommits" pr) as Hsc.
  { intros v. rewrite !get_set_ne by discriminate.
    now rewrite get_withIncludeArray, get_withUrlPrefix by discriminate. }
  unfold releaseResolved.
  destruct (truthy (get "release" config)) eqn:E1.
  - unfold mbind, ret. eexists. split; [reflexivity|]. split; [|apply Hsc].
    rewrite get_set_eq. rewrite E1. reflexivity.
  - destruct (truthy (get "release" pr)) eqn:E2.
    + unfold mbind, ret. eexists. split; [reflexivity|]. split; [|apply Hsc].
      rewrite get_set_eq. rewrite E2. reflexivity.
    + unfold mbind. rewrite (resolveRelease_object h options config w Hc).
      unfold ret. eexists. split; [reflexivity|]. split; [|apply Hsc].
      rewrite get_set_eq. reflexivity.
Qed.

Lemma attachCommits_total h p :
  commitsAttachable h p = true -> exists p', attachCommits h p = Ok p'.
Proof.
  unfold commitsAttachable, attachCommits. intros H.
  destruct (envToBool (env h "SENTRY_AUTO_ATTACH_COMMITS")); [|eauto].
  simpl in H.
  assert (exists sc, (get "setCommits" p ||| VObj [])%js = VObj sc) as (sc & ->).
  { unfold js_or. destruct (truthy (get "setCommits" p)); simpl in H; [|eauto].
    destruct (get "setCommits" p); try discriminate. eauto. }
  simpl prop. cbn [bind].
  destruct (isUndef (get "auto" sc)); simpl setProp; cbn [bind]; simpl prop; cbn [bind];
    match goal with
    | |- context [if ?b then _ else _] => destruct b
    end; simpl; eauto.
Qed.

Lemma nth_error_replaceNth_eq {A : Type} (x : A) : forall l n,
  n < List.length l -> nth_error (replaceNth n x l) n = Some x.
Proof.
  induction l as [|y l IH]; intros n Hn; simpl in Hn; [lia|].
  destruct n; simpl; [reflexivity|]. apply IH. lia.
Qed.

Lemma nth_error_replaceNth_ne {A : Type} (x : A) : forall l n n',
  n <> n' -> nth_error (replaceNth n x l) n' = nth_error l n'.
Proof.
  induction l as [|y l IH]; intros n n' Hne; [destruct n; reflexivity|].
  destruct n, n'; simpl; try reflexivity; try congruence.
  apply IH. congruence.
Qed.

Lemma length_replaceNth {A : Type} (x : A) : forall l n,
  List.length (replaceNth n x l) = List.length l.
Proof.
  induction l as [|y l IH]; intros n; [destruct n; reflexivity|].
  destruct n; simpl; [reflexivity|]. now rewrite IH.
Qed.

Lemma set_set k v v' o : set k v (set k v' o) = set k v o.
Proof.
  induction o as [|[k' x] o IH]; simpl.
  - now rewrite String.eqb_refl.
  - destruct (String.eqb_spec k' k) as [->|Hne]; simpl.
    + now rewrite String.eqb_refl.
    + destruct (String.eqb_spec k' k); [contradiction|]. now rewrite IH.
Qed.

(** The loop over the build configurations: every listed configuration
    gets the style, also one that is listed twice; nothing else changes. *)
Lemma setDevtool_run style : forall webpackConfigs w,
  (forall a, In a webpackConfigs -> a < List.length (configs w)) ->
  exists cs,
    setDevtool style webpackConfigs w = Ok (tt, withConfigs cs w)
    /\ List.length cs = List.length (configs w)
    /\ forall a c, nth_error (configs w) a = Some c ->
                   nth_error cs a
                   = Some (if existsb (Nat.eqb a) webpackConfigs
                           then set "devtool" style c else c).
Proof.
  induction webpackConfigs as [|a0 rest IH]; intros w Hin.
  - exists (configs w). destruct w. simpl. repeat split. auto.
  - assert (a0 < List.length (configs w)) as Ha0 by (apply Hin; now left).
    destruct (nth_error (configs w) a0) as [c0|] eqn:Hc0.
    2:{ apply nth_error_None in Hc0. lia. }
    set (w1 := withConfigs (replaceNth a0 (set "devtool" style c0) (configs w)) w).
    destruct (IH w1) as (cs & Hrun & Hlen & Hcs).
    { intros a Ha. subst w1. simpl. rewrite length_replaceNth. apply Hin. now right. }
    exists cs. split; [|split].
    + simpl. unfold mbind at 1. unfold readConfig. rewrite Hc0.
      unfold mbind at 1. unfold writeConfig. fold w1. rewrite Hrun. reflexivity.
    + rewrite Hlen. subst w1. simpl. apply length_replaceNth.
    + intros a c Hc. simpl existsb.
      destruct (Nat.eqb_spec a a0) as [->|Hne]; simpl.
      * rewrite Hc in Hc0. inversion Hc0. subst c0.
        rewrite (Hcs a0 (set "devtool" style c)).
        -- rewrite set_set. now destruct (existsb (Nat.eqb a0) rest).
        -- subst w1. simpl. now apply nth_error_replaceNth_eq.
      * apply Hcs. subst w1. simpl.
        rewrite nth_error_replaceNth_ne by congruence. exact Hc.
Qed.

Lemma addPlugin_run cls publishRelease webpackConfigs last c ps w :
  lastConfig webpackConfigs = Some last ->
  nth_error (configs w) last = Some c ->
  pluginList c = Some ps ->
  addPlugin (VFun cls) publishRelease webpackConfigs w
  = Ok (tt, withConfigs
              (replaceNth last
                 (set "plugins" (VArr (ps ++ [VInst cls [VObj publishRelease]])) c)
                 (configs w)) w).
Proof.
  intros Hlast Hc Hps. unfold addPlugin. rewrite Hlast.
  unfold mbind at 1. unfold readConfig. rewrite Hc.
  unfold pluginList in Hps. unfold js_or.
  destruct (get "plugins" c) eqn:Hp; simpl in Hps |- *; try discriminate;
    try (inversion Hps; subst ps; reflexivity).
  - destruct b; [discriminate|]. inversion Hps. reflexivity.
  - destruct (n =? 0)%Z; simpl in Hps |- *; [|discriminate]. inversion Hps. reflexivity.
  - destruct (s =? ""); simpl in Hps |- *; [|discriminate]. inversion Hps. reflexivity.
Qed.

Lemma lastConfig_In webpackConfigs last :
  lastConfig webpackConfigs = Some last -> In last webpackConfigs.
Proof. unfold lastConfig. apply nth_error_In. Qed.

Lemma existsb_eqb_In a l : In a l -> existsb (Nat.eqb a) l = true.
Proof.
  intros H. apply existsb_exists. exists a. split; [assumption|apply Nat.eqb_refl].
Qed.

Lemma pluginList_set_devtool style c :
  pluginList (set "devtool" style c) = pluginList c.
Proof. unfold pluginList. now rewrite get_set_ne by discriminate. Qed.

(** C6, as stated, fails when no release is resolved: the hook runs and
    returns, and the build configurations are what they were, without a
    source-map mode and without the plugin. *)
Lemma hook_without_release_leaves_configs :
  exists w',
    webpackConfigHook sampleHost [0; 1] publishWithoutRelease sampleBuild = Ok (tt, w')
    /\ configs w' = configs sampleBuild
    /\ (forall c, nth_error (configs w') 0 = Some c ->
                  get "devtool" c <> get "sourceMapStyle" publishWithoutRelease).
Proof.
  eexists. split; [vm_compute; reflexivity|]. split; [reflexivity|].
  intros c Hc. inversion Hc. discriminate.
Qed.

(** C6, amended: when the hook gets past its guards -- the plugin package
    exports a class, the publishing options and the configuration are
    objects, a release is resolved, the commit settings can be attached --
    and is given a non-empty list of existing build configurations whose
    last one has a plugin list, it returns, logs nothing, and every build
    configuration ends as it was except that the listed ones hold the
    configured [sourceMapStyle] in [devtool] and the last one in the list
    has one more plugin at the end, the instance built from the resolved
    publishing options. *)
Theorem webpack_configs_mutated
  (h : host) (webpackConfigs : list nat) (options pr config m c0 : obj)
  (cls : string) (last : nat) (ps : list value) (w : world) :
  packages h "@sentry/webpack-plugin" = Some m ->
  (get "default" m ||| VObj m)%js = VFun cls ->
  get "publishRelease" options = VObj pr ->
  wf (VObj pr) = true ->
  get "config" options = VObj config ->
  releaseResolved h config pr = true ->
  commitsAttachable h pr = true ->
  (forall a, In a webpackConfigs -> a < List.length (configs w)) ->
  lastConfig webpackConfigs = Some last ->
  nth_error (configs w) last = Some c0 ->
  pluginList c0 = Some ps ->
  exists publishRelease cs,
    webpackConfigHook h webpackConfigs options w = Ok (tt, withConfigs cs w)
    /\ truthy (get "release" publishRelease) = true
    /\ List.length cs = List.length (configs w)
    /\ forall a c,
         nth_error (configs w) a = Some c ->
         nth_error cs a
         = Some (let c1 := if existsb (Nat.eqb a) webpackConfigs
                           then set "devtool" (get "sourceMapStyle" options) c
                           else c in
                 if (a =? last)%nat
                 then set "plugins" (VArr (ps ++ [VInst cls [VObj publishRelease]])) c1
                 else c1).
Proof.
  intros Hpkg Hcls Hpr Hwf Hc Hrel Hcommits Hvalid Hlast Hc0 Hps.
  destruct (resolvePublishRelease_run h options pr config w Hpr Hwf Hc)
    as (p & Hp & Hprel & Hsc).
  rewrite Hrel in Hprel.
  destruct (attachCommits_total h p) as (p' & Hp').
  { unfold commitsAttachable in *. now rewrite Hsc. }
  assert (truthy (get "release" p') = true) as Hrel'.
  { unfold attachCommits in Hp'.
    destruct (envToBool (env h "SENTRY_AUTO_ATTACH_COMMITS")).
    - apply bind_Ok in Hp'. destruct Hp' as (x1 & _ & Hp').
      apply bind_Ok in Hp'. destruct Hp' as (x2 & _ & Hp').
      apply bind_Ok in Hp'. destruct Hp' as (x3 & _ & Hp').
      apply bind_Ok in Hp'. destruct Hp' as (x4 & _ & Hp').
      inversion Hp'. now rewrite get_set_ne by discriminate.
    - inversion Hp'. subst p'. exact Hprel. }
  destruct (setDevtool_run (get "sourceMapStyle" options) webpackConfigs w Hvalid)
    as (cs & Hdev & Hlen & Hcs).
  pose proof (Hcs last c0 Hc0) as Hlast1.
  rewrite (existsb_eqb_In _ _ (lastConfig_In _ _ Hlast)) in Hlast1.
  set (plugin := VInst cls [VObj p']).
  set (c1 := set "devtool" (get "sourceMapStyle" options) c0) in *.
  exists p', (replaceNth last (set "plugins" (VArr (ps ++ [plugin])) c1) cs).
  split; [|split; [exact Hrel'|split]].
  - unfold webpackConfigHook. rewrite Hpkg, Hcls.
    unfold mbind at 1. unfold ret at 1. unfold mbind at 1. rewrite Hp, Hprel.
    unfold mbind, lift. rewrite Hp'. cbn [negb]. cbv beta iota. rewrite Hdev.
    rewrite (addPlugin_run cls p' webpackConfigs last c1 ps (withConfigs cs w) Hlast Hlast1).
    + reflexivity.
    + subst c1. rewrite pluginList_set_devtool. exact Hps.
  - rewrite length_replaceNth. exact Hlen.
  - intros a c Hac. cbv zeta.
    destruct (Nat.eqb_spec a last) as [->|Hne].
    + rewrite Hac in Hc0. inversion Hc0. subst c0.
      rewrite (existsb_eqb_In _ _ (lastConfig_In _ _ Hlast)).
      apply nth_error_replaceNth_eq. rewrite Hlen. apply Hvalid.
      now apply lastConfig_In.
    + rewrite nth_error_replaceNth_ne by congruence. now apply Hcs.
Qed.

Lemma webpack_configs_mutated_witness :
  exists publishRelease cs,
    webpackConfigHook sampleHost [0; 1] publishWithRelease sampleBuild
    = Ok (tt, withConfigs cs sampleBuild)
    /\ truthy (get "release" publishRelease) = true
    /\ List.length cs = List.length (configs sampleBuild)
    /\ forall a c,
         nth_error (configs sampleBuild) a = Some c ->
         nth_error cs a
         = Some (let c1 := if existsb (Nat.eqb a) [0; 1]
                           then set "devtool" (get "sourceMapStyle" publishWithRelease) c
                           else c in
                 if (a =? 1)%nat
                 then set "plugins"
                        (VArr ([VInst "VueLoaderPlugin" []]
                               ++ [VInst "SentryCliPlugin" [VObj publishRelease]])) c1
                 else c1).
Proof.
  apply (webpack_configs_mutated sampleHost [0; 1] publishWithRelease
           defaultsPublishRelease
           [("environment", VStr "production"); ("release", VStr "1.0.0")]
           [("default", VFun "SentryCliPlugin")]
           [("name", VStr "server"); ("plugins", VArr [VInst "VueLoaderPlugin" []])]
           "SentryCliPlugin" 1 [VInst "VueLoaderPlugin" []] sampleBuild);
    try reflexivity.
  intros a [<-|[<-|[]]]; simpl; lia.
Defined.

Example hook_with_release :
  exists w',
    webpackConfigHook sampleHost [0; 1] publishWithRelease sampleBuild = Ok (tt, w')
    /\ map (get "devtool") (configs w')
       = [VStr "hidden-source-map"; VStr "hidden-source-map"]
    /\ map pluginList (configs w')
       = [Some [];
          Some [VInst "VueLoaderPlugin" [];
                VInst "SentryCliPlugin"
                  [VObj [("include", VArr [VStr ".nuxt/dist/server"; VStr ".nuxt/dist/client"]);
                         ("ignore", VArr [VStr "node_modules"; VStr ".nuxt/dist/client/img"]);
                         ("configFile", VStr ".sentryclirc");
                         ("urlPrefix", VStr "~/_nuxt/");
                         ("release", VStr "1.0.0")]]]].
Proof. eexists. split; [vm_compute; reflexivity|]. split; reflexivity. Qed.

(** C7, as stated, fails when the webpack plugin is not installed: no
    release is set, carried or proposed, and yet the hook throws. *)
Lemma hook_without_plugin_throws :
  releaseResolved hostWithoutPlugin
    [("environment", VStr "production")] defaultsPublishRelease = false
  /\ webpackConfigHook hostWithoutPlugin [0; 1] publishWithoutRelease sampleBuild
     = Err (Error missingWebpackPlugin).
Proof. split; reflexivity. Qed.

(** C7, amended: when the webpack plugin package loads, the publishing
    options and the configuration are objects, and no release is set in
    the configuration, carried by the publishing options or proposed by
    the CLI, the hook returns without throwing; all it does is log the
    warning: the build configurations are untouched, no plugin is added. *)
Theorem hook_without_release_warns
  (h : host) (webpackConfigs : list nat) (options pr config m : obj) (w : world) :
  packages h "@sentry/webpack-plugin" = Some m ->
  get "publishRelease" options = VObj pr ->
  wf (VObj pr) = true ->
  get "config" options = VObj config ->
  releaseResolved h config pr = false ->
  webpackConfigHook h webpackConfigs options w
  = Ok (tt, addLog [Warn releaseNotPublished []] w)
  /\ configs (addLog [Warn releaseNotPublished []] w) = configs w.
Proof.
  intros Hpkg Hpr Hwf Hc Hrel. split; [|reflexivity].
  destruct (resolvePublishRelease_run h options pr config w Hpr Hwf Hc)
    as (p & Hp & Hprel & _).
  rewrite Hrel in Hprel.
  unfold webpackConfigHook. rewrite Hpkg.
  unfold mbind at 1. unfold ret at 1. unfold mbind at 1. rewrite Hp, Hprel.
  reflexivity.
Qed.

Lemma hook_without_release_warns_witness :
  webpackConfigHook sampleHost [0; 1] publishWithoutRelease sampleBuild
  = Ok (tt, addLog [Warn releaseNotPublished []] sampleBuild)
  /\ configs (addLog [Warn releaseNotPublished []] sampleBuild) = configs sampleBuild.
Proof.
  apply (hook_without_release_warns sampleHost [0; 1] publishWithoutRelease
           defaultsPublishRelease [("environment", VStr "production")]
           [("default", VFun "SentryCliPlugin")] sampleBuild);
    reflexivity.
Defined.

(** ** Server initialization *)

Lemma resolveServerOptions_log h moduleOptions w payload w' :
  resolveServerOptions h moduleOptions w = Ok (payload, w') ->
  exists msgs, w' = addLog msgs w.
Proof.
  intros H. unfold resolveServerOptions in H.
  apply mbind_Ok in H. destruct H as (options0 & w0 & H0 & H).
  apply lift_Ok in H0. destruct H0 as [_ ->].
  apply mbind_Ok in H. destruct H as (options1 & w1 & H1 & H).
  unfold validateServerIntegrations in H1.
  apply mbind_Ok in H1. destruct H1 as (names & w0 & H0 & H1).
  apply lift_Ok in H0. destruct H0 as [_ ->].
  destruct (dropUnrecognized_run serverUnrecognized serverWarning
              "serverIntegrations" names options0 w) as (o & Hrun & _).
  rewrite Hrun in H1. inversion H1. subst o w1. clear H1 Hrun.
  apply mbind_Ok in H. destruct H as (enabled & w2 & H2 & H).
  apply lift_Ok in H2. destruct H2 as [_ ->].
  apply mbind_Ok in H. destruct H as (instances & w2 & H2 & H).
  apply lift_Ok in H2. destruct H2 as [_ ->].
  apply mbind_Ok in H. destruct H as (config0 & w2 & H2 & H).
  apply lift_Ok in H2. destruct H2 as [_ ->].
  apply mbind_Ok in H. destruct H as (options3 & w2 & H2 & H).
  apply lift_Ok in H2. destruct H2 as [_ ->].
  apply mbind_Ok in H. destruct H as (api & w2 & H2 & H).
  apply getApiMethods_Ok in H2. subst w2.
  apply mbind_Ok in H. destruct H as (options4 & w4 & H4 & H).
  apply resolveLazyOptions_frame in H4. destruct H4 as [_ (msgs & ->)].
  apply mbind_Ok in H. destruct H as (options5 & w5 & H5 & H).
  apply lift_Ok in H5. destruct H5 as [_ ->].
  unfold ret in H. inversion H. subst. rewrite addLog_app. eauto.
Qed.

(** C8: once a call of the hook has returned, the process-wide marker is
    set and every later call, whatever its arguments, returns at once and
    leaves the world as it is; so two calls in a row end where the first
    one ended.  Starting from an unset marker they activate the reporting
    client exactly once when [canInitialize] holds, and not at all
    otherwise. *)
Theorem initializeServerSentry_idempotent
  (h : host) (moduleOptions : obj) (w w1 : world) :
  initializeServerSentry h moduleOptions w = Ok (tt, w1) ->
  process_sentry w1 = true
  /\ (forall h' moduleOptions', initializeServerSentry h' moduleOptions' w1 = Ok (tt, w1))
  /\ (initializeServerSentry h moduleOptions ;;; initializeServerSentry h moduleOptions) w
     = Ok (tt, w1)
  /\ (process_sentry w = false ->
      exists config,
        sentry_inits w1
        = sentry_inits w ++ (if canInitialize moduleOptions then [VObj config] else [])).
Proof.
  intros H.
  assert (process_sentry w1 = true
          /\ (process_sentry w = false ->
              exists config,
                sentry_inits w1
                = sentry_inits w
                  ++ (if canInitialize moduleOptions then [VObj config] else [])))
    as [Hmark Hinits].
  { unfold initializeServerSentry in H.
    destruct (process_sentry w) eqn:Hw.
    - inversion H. subst w1. split; [assumption|discriminate].
    - apply mbind_Ok in H. destruct H as (serverOptions & w2 & H2 & H).
      apply resolveServerOptions_log in H2. destruct H2 as (msgs & ->).
      apply mbind_Ok in H. destruct H as (serverConfig & w3 & H3 & H).
      apply lift_Ok in H3. destruct H3 as [_ ->].
      apply mbind_Ok in H. destruct H as (config & w3 & H3 & H).
      apply lift_Ok in H3. destruct H3 as [_ ->].
      apply mbind_Ok in H. destruct H as ([] & w3 & H3 & H).
      unfold setProcessSentry in H. inversion H. subst w1. clear H.
      split; [reflexivity|]. intros _. exists config. simpl.
      destruct (canInitialize moduleOptions).
      + unfold Sentry_init in H3. inversion H3. reflexivity.
      + unfold ret in H3. inversion H3. simpl. now rewrite app_nil_r. }
  assert (forall h' moduleOptions', initializeServerSentry h' moduleOptions' w1 = Ok (tt, w1))
    as Hagain.
  { intros h' mo'. unfold initializeServerSentry. now rewrite Hmark. }
  split; [exact Hmark|]. split; [exact Hagain|]. split; [|exact Hinits].
  unfold mbind. rewrite H. apply Hagain.
Qed.

Lemma initializeServerSentry_idempotent_witness :
  exists w1,
    initializeServerSentry runtimeHost sampleServerOptions emptyWorld = Ok (tt, w1)
    /\ process_sentry w1 = true
    /\ (initializeServerSentry runtimeHost sampleServerOptions ;;;
        initializeServerSentry runtimeHost sampleServerOptions) emptyWorld = Ok (tt, w1)
    /\ List.length (sentry_inits w1) = 1.
Proof.
  destruct (initializeServerSentry runtimeHost sampleServerOptions emptyWorld)
    as [[[] w1]|e] eqn:Hrun.
  2:{ vm_compute in Hrun. discriminate. }
  exists w1. split; [reflexivity|].
  destruct (initializeServerSentry_idempotent runtimeHost sampleServerOptions
              emptyWorld w1 Hrun) as (Hmark & _ & Htwice & Hinits).
  split; [exact Hmark|]. split; [exact Htwice|].
  destruct (Hinits eq_refl) as (config & ->). reflexivity.
Defined.

Example server_config_sample :
  exists payload w',
    resolveServerOptions runtimeHost sampleServerOptions emptyWorld = Ok (payload, w')
    /\ field "config" payload
       = VObj [("dsn", VStr "https://key@sentry.io/1");
               ("intergrations",
                 VArr [VInst "Dedupe" [];
                       VInst "RewriteFrames" [VObj [("root", VStr "/app")]]]);
               ("environment", VStr "staging");
               ("debug", VBool true)]
    /\ logged w' = [Warn (serverWarning "Vue") []].
Proof. eexists. eexists. split; [vm_compute; reflexivity|]. split; reflexivity. Qed.

(** The allow-list alone does not make a toggle constructible: a name the
    integrations package does not export makes the resolver throw. *)
Example server_integration_without_class :
  resolveServerOptions sampleHost
    [("serverIntegrations", VObj [("Modules", VObj [])])] emptyWorld
  = Err typeError_ctor.
Proof. reflexivity. Qed.



(** ** [setup] on the samples *)

Example setup_without_dsn :
  exists options w',
    setup sampleHost VUndef emptyWorld
    = Ok ((options,
           ["render:setupMiddleware"; "render:errorMiddleware"; "generate:routeFailed";
            "build:before"; "build:compile"; "generate:done"]), w')
    /\ clientSentryEnabled options = true
    /\ serverSentryEnabled options = true
    /\ canInitialize options = false
    /\ logged w' = [Info "Sentry reporting is disabled (no DSN has been provided)"].
Proof. eexists. eexists. split; [vm_compute; reflexivity|]. repeat split. Qed.

Example setup_server_side_disabled :
  exists options w',
    setup sampleHost
      (VObj [("dsn", VStr "https://key@sentry.io/1"); ("disableServerSide", VBool true)])
      emptyWorld
    = Ok ((options, ["build:before"]), w')
    /\ logged w'
       = [Success "Sentry reporting is enabled (client side: enabled, server side: disabled)"].
Proof. eexists. eexists. split; [vm_compute; reflexivity|]. reflexivity. Qed.

(* ================================================================== *)
(** * Part III: further properties of the module *)
(* ================================================================== *)

(** ** The status line of [setup] *)

(** X1: [setup]'s status report logs exactly one line, and what the line
    says holds of the options: success only when the module is not
    disabled, has a DSN, may initialize and has a side left; each reason
    for being disabled only when the reasons before it do not apply, and
    the last one only when both sides are switched off. *)
Theorem statusLine_reason_holds (options : obj) (w : world) :
  let disabled := truthy (get "disabled" options) in
  let dsn := truthy (get "dsn" options) in
  let initialize := truthy (get "initialize" options) in
  let noClient := truthy (get "disableClientSide" options) in
  let noServer := truthy (get "disableServerSide" options) in
  let info why := Info ("Sentry reporting is disabled (" ++ why ++ ")")%string in
  exists msg,
    statusLine options w = Ok (tt, addLog [msg] w)
    /\ ((msg = Success ("Sentry reporting is enabled (client side: "
                        ++ boolToText (negb noClient)
                        ++ ", server side: " ++ boolToText (negb noServer) ++ ")")%string
         /\ disabled = false /\ dsn = true /\ initialize = true
         /\ (noClient = false \/ noServer = false))
        \/ (msg = info (dquote ++ "disabled" ++ dquote ++ " option has been set")%string
            /\ disabled = true)
        \/ (msg = info "no DSN has been provided"
            /\ disabled = false /\ dsn = false)
        \/ (msg = info (dquote ++ "initialize" ++ dquote
                        ++ " option has been set to false")%string
            /\ disabled = false /\ dsn = true /\ initialize = false)
        \/ (msg = info "both client and server side clients are disabled"
            /\ disabled = false /\ dsn = true /\ initialize = true
            /\ noClient = true /\ noServer = true)).
Proof.
  cbv zeta.
  unfold statusLine, canInitialize, clientSentryEnabled, serverSentryEnabled, js_and,
    logger_success, logger_info.
  destruct (truthy (get "disabled" options)) eqn:Hd;
    destruct (truthy (get "initialize" options)) eqn:Hi;
    destruct (truthy (get "dsn" options)) eqn:Hs;
    destruct (truthy (get "disableClientSide" options)) eqn:Hc;
    destruct (truthy (get "disableServerSide" options)) eqn:Hv;
    rewrite ?Hi, ?Hs; cbn [negb andb orb];
    eexists; (split; [reflexivity|]); cbn [negb boolToText]; tauto.
Qed.

(** ** The hooks [setup] registers *)

Lemma statusLine_run options w : exists msg, statusLine options w = Ok (tt, addLog [msg] w).
Proof.
  unfold statusLine, logger_success, logger_info.
  destruct (canInitialize options && (clientSentryEnabled options || serverSentryEnabled options));
    eexists; reflexivity.
Qed.

Lemma setup_run h moduleOptions w options hooks w' :
  setup h moduleOptions w = Ok ((options, hooks), w') ->
  resolveOptions h moduleOptions = Ok options
  /\ statusLine options w = Ok (tt, w')
  /\ hooks
     = (if serverSentryEnabled options
        then ["render:setupMiddleware"; "render:errorMiddleware"; "generate:routeFailed"]
        else [])
       ++ ["build:before"]
       ++ (if serverSentryEnabled options
           then [if truthy (nuxt__build h) then "build:compile" else "ready";
                 "generate:done"]
           else [])
       ++ (if truthy (get "publishRelease" options)
              && negb (truthy (get "disabled" options))
              && negb (truthy (nuxt_dev h))
           then ["webpack:config"] else []).
Proof.
  unfold setup. intros H.
  apply mbind_Ok in H. destruct H as (o & w1 & H1 & H).
  apply lift_Ok in H1. destruct H1 as [Hr ->].
  apply mbind_Ok in H. destruct H as ([] & w2 & H2 & H).
  unfold ret in H. inversion H. subst.
  split; [assumption|]. split; [assumption|reflexivity].
Qed.

(** X2: when [setup] returns, it has logged one line and registered
    [build:before]; the middleware hooks, the initialization hook and
    [generate:done] are registered exactly when the server side is
    enabled, the initialization hook being [build:compile] on a run that
    builds and [ready] otherwise; [webpack:config] is registered exactly
    when release publishing is requested, the module is not disabled and
    the run is not a development run. *)
Theorem setup_hook_registration
  (h : host) (moduleOptions : value) (w w' : world) (options : obj) (hooks : list string) :
  setup h moduleOptions w = Ok ((options, hooks), w') ->
  resolveOptions h moduleOptions = Ok options
  /\ (exists msg, logged w' = logged w ++ [msg])
  /\ In "build:before" hooks
  /\ (forall name,
        In name ["render:setupMiddleware"; "render:errorMiddleware";
                 "generate:routeFailed"; "generate:done"] ->
        (In name hooks <-> serverSentryEnabled options = true))
  /\ (In "build:compile" hooks
      <-> serverSentryEnabled options = true /\ truthy (nuxt__build h) = true)
  /\ (In "ready" hooks
      <-> serverSentryEnabled options = true /\ truthy (nuxt__build h) = false)
  /\ (In "webpack:config" hooks
      <-> truthy (get "publishRelease" options) = true
          /\ truthy (get "disabled" options) = false
          /\ truthy (nuxt_dev h) = false).
Proof.
  intros H. apply setup_run in H. destruct H as (Hr & Hs & ->).
  destruct (statusLine_run options w) as (msg & Hmsg). rewrite Hmsg in Hs.
  inversion Hs. subst w'.
  split; [assumption|]. split; [exists msg; reflexivity|].
  destruct (serverSentryEnabled options);
    destruct (truthy (nuxt__build h));
    destruct (truthy (get "publishRelease" options));
    destruct (truthy (get "disabled" options));
    destruct (truthy (nuxt_dev h)); cbn [negb andb app];
    (split; [simpl; tauto|]);
    (split; [intros name Hn; simpl in Hn;
             repeat (destruct Hn as [<-|Hn]; [simpl; intuition discriminate|]);
             contradiction|]);
    simpl; intuition discriminate.
Qed.

Lemma setup_hook_registration_witness :
  exists options hooks w',
    setup sampleHost VUndef emptyWorld = Ok ((options, hooks), w')
    /\ In "build:compile" hooks
    /\ ~ In "webpack:config" hooks.
Proof.
  destruct (setup sampleHost VUndef emptyWorld) as [[[options hooks] w']|e] eqn:Hrun;
    [|vm_compute in Hrun; discriminate].
  exists options, hooks, w'. split; [reflexivity|].
  destruct (setup_hook_registration _ _ _ _ _ _ Hrun)
    as (Hres & _ & _ & _ & Hc & _ & Hw).
  assert (options = match resolveOptions sampleHost VUndef with Ok o => o | Err _ => [] end)
    as Ho by (rewrite Hres; reflexivity).
  split.
  - apply Hc. rewrite Ho. split; reflexivity.
  - intros Hin. apply Hw in Hin. destruct Hin as (Hp & _). rewrite Ho in Hp.
    vm_compute in Hp. discriminate.
Defined.

(** ** Options that switch the module off *)

(** What the chain of [setup] holds at a key of the module options, which
    are merged last. *)
Lemma resolveOptions_module_value h moduleOptions options k v :
  wf (VObj moduleOptions) = true ->
  lookup k moduleOptions = Some v ->
  k <> "publishRelease" ->
  resolveOptions h (VObj moduleOptions) = Ok options ->
  exists o2 x,
    mergeValue (Some mergeWithCustomizer) (get k o2) v = Ok x
    /\ get k options = if isUndef x then get k o2 else x.
Proof.
  intros Hwf Hk Hne Hr. rewrite resolveOptions_steps in Hr.
  apply bind_Ok in Hr. destruct Hr as (o1 & H1 & Hr).
  apply bind_Ok in Hr. destruct Hr as (o2 & H2 & Hr).
  apply bind_Ok in Hr. destruct Hr as (o3 & H3 & Hr).
  rewrite mergeWith_single in H3. apply wf_obj in Hwf. destruct Hwf as [Hnd _].
  destruct (mergeFields_at _ _ _ _ _ _ Hnd Hk H3) as (x & Hx & Hg).
  exists o2, x. split; [assumption|]. rewrite <- Hg.
  destruct (truthy (get "publishRelease" o3)).
  - apply bind_Ok in Hr. destruct Hr as (merged & _ & Hr). inversion Hr.
    apply get_set_ne. congruence.
  - now inversion Hr.
Qed.

(** X3: module options with [disabled: true] leave [setup] with the
    [build:before] hook alone (no middleware, no server initialization, no
    [webpack:config], whatever else is configured) and with the status
    line that names the [disabled] option. *)
Theorem setup_disabled_option
  (h : host) (moduleOptions options : obj) (hooks : list string) (w w' : world) :
  wf (VObj moduleOptions) = true ->
  lookup "disabled" moduleOptions = Some (VBool true) ->
  setup h (VObj moduleOptions) w = Ok ((options, hooks), w') ->
  hooks = ["build:before"]
  /\ w' = addLog [Info ("Sentry reporting is disabled (" ++ dquote ++ "disabled" ++ dquote
                        ++ " option has been set)")%string] w.
Proof.
  intros Hwf Hk H. apply setup_run in H. destruct H as (Hr & Hs & ->).
  destruct (resolveOptions_module_value _ _ _ _ _ Hwf Hk ltac:(discriminate) Hr)
    as (o2 & x & Hx & Hg).
  assert (truthy (get "disabled" options) = true) as Hd.
  { rewrite Hg. destruct (get "disabled" o2); simpl in Hx; inversion Hx; reflexivity. }
  unfold statusLine, clientSentryEnabled, serverSentryEnabled in Hs.
  unfold serverSentryEnabled. rewrite Hd in *. cbn [negb andb orb] in *.
  rewrite andb_false_r in Hs. unfold logger_info in Hs. inversion Hs.
  rewrite andb_false_r. split; reflexivity.
Qed.

Lemma setup_disabled_option_witness :
  exists options w',
    setup sampleHost
      (VObj [("dsn", VStr "https://key@sentry.io/1"); ("disabled", VBool true);
             ("publishRelease", VBool true)]) emptyWorld
    = Ok ((options, ["build:before"]), w').
Proof.
  destruct (setup sampleHost
              (VObj [("dsn", VStr "https://key@sentry.io/1"); ("disabled", VBool true);
                     ("publishRelease", VBool true)]) emptyWorld)
    as [[[options hooks] w']|e] eqn:Hrun; [|vm_compute in Hrun; discriminate].
  exists options, w'.
  destruct (setup_disabled_option sampleHost
              [("dsn", VStr "https://key@sentry.io/1"); ("disabled", VBool true);
               ("publishRelease", VBool true)] options hooks emptyWorld w'
              eq_refl eq_refl Hrun) as [-> _].
  reflexivity.
Defined.

(** ** The release-publishing options [setup] resolves *)

Lemma envFlag_false h name : envFlag h name false = VBool (envToBool (env h name)).
Proof. unfold envFlag, js_or. simpl. now destruct (envToBool (env h name)). Qed.

Lemma js_or_mentions k v :
  mentions k v = false -> mentions k (v ||| VObj [])%js = false.
Proof. intros H. unfold js_or. now destruct (truthy v). Qed.

(** X4: as long as neither the top-level options nor the module options
    have a [publishRelease] key, release publishing follows the
    environment variable [SENTRY_PUBLISH_RELEASE]: when the variable reads
    as true the resolved options carry the default publishing options, as
    they are; otherwise they carry [false]. *)
Theorem publishRelease_from_environment (h : host) (moduleOptions : value) (options : obj) :
  mentions "publishRelease" (nuxt_sentry h) = false ->
  mentions "publishRelease" moduleOptions = false ->
  resolveOptions h moduleOptions = Ok options ->
  get "publishRelease" options
  = if envToBool (env h "SENTRY_PUBLISH_RELEASE")
    then VObj defaultsPublishRelease else VBool false.
Proof.
  intros Htop Hmod Hr. rewrite resolveOptions_steps in Hr.
  apply bind_Ok in Hr. destruct Hr as (o1 & H1 & Hr).
  apply bind_Ok in Hr. destruct Hr as (o2 & H2 & Hr).
  apply bind_Ok in Hr. destruct Hr as (o3 & H3 & Hr).
  assert (get "publishRelease" o3 = VBool (envToBool (env h "SENTRY_PUBLISH_RELEASE")))
    as H.
  { rewrite (mergeWith_one_frame _ _ _ _ "publishRelease" H3 Hmod).
    rewrite (mergeWith_one_frame _ _ _ _ "publishRelease" H2 (js_or_mentions _ _ Htop)).
    apply (defaults_step h _ _ _ H1). simpl. now rewrite envFlag_false. }
  rewrite H in Hr. simpl in Hr.
  destruct (envToBool (env h "SENTRY_PUBLISH_RELEASE")).
  - simpl in Hr. inversion Hr. apply get_set_eq.
  - inversion Hr. subst. assumption.
Qed.

Lemma publishRelease_from_environment_witness :
  exists options,
    resolveOptions (hostWithEnv "SENTRY_PUBLISH_RELEASE" "1") (VObj []) = Ok options
    /\ get "publishRelease" options = VObj defaultsPublishRelease.
Proof.
  destruct (resolveOptions (hostWithEnv "SENTRY_PUBLISH_RELEASE" "1") (VObj []))
    as [options|e] eqn:Hrun; [|vm_compute in Hrun; discriminate].
  exists options. split; [reflexivity|].
  exact (publishRelease_from_environment
           (hostWithEnv "SENTRY_PUBLISH_RELEASE" "1") (VObj []) options
           eq_refl eq_refl Hrun).
Defined.

(** A customizer result other than [undefined] is what the merge
    assigns. *)
Lemma mergeValue_customized c o s nv :
  customized c o s = nv -> isUndef nv = false -> mergeValue c o s = Ok nv.
Proof.
  intros Hc Hu. destruct s; simpl; rewrite Hc, Hu; reflexivity.
Qed.

Lemma concat_app xs v : exists ys, concat xs v = xs ++ ys.
Proof. destruct v; simpl; eauto. Qed.

(** With the customizer of [setup], a key that holds an array keeps it as
    a prefix, whatever the source brings. *)
Lemma mergeFields_array_grows k : forall sf xs o r,
  get k o = VArr xs ->
  mergeFields (Some mergeWithCustomizer) o sf = Ok r ->
  exists ys, get k r = VArr (xs ++ ys).
Proof.
  induction sf as [|[k' s] sf IH]; intros xs o r Hk Hm.
  - simpl in Hm. inversion Hm. subst. exists []. now rewrite app_nil_r.
  - simpl in Hm. destruct (modelledKey k'); [|discriminate].
    apply bind_Ok in Hm. destruct Hm as (v & Hv & Hm).
    destruct (String.eqb_spec k' k) as [->|Hne].
    + rewrite (mergeValue_customized _ _ _ (VArr (concat xs s))) in Hv;
        [|rewrite Hk; reflexivity|reflexivity].
      inversion Hv. subst v.
      destruct (concat_app xs s) as (ys & Hys).
      assert (get k (assignMergeValue o k (VArr (concat xs s))) = VArr (xs ++ ys)) as Hg
        by (rewrite get_assign_eq, Hys; reflexivity).
      destruct (IH _ _ _ Hg Hm) as (zs & Hzs).
      exists (ys ++ zs). now rewrite app_assoc.
    + assert (get k (assignMergeValue o k' v) = VArr xs) as Hg
        by (unfold get; rewrite lookup_assign_ne by assumption; exact Hk).
      apply (IH _ _ _ Hg Hm).
Qed.

(** X5: whenever the options [setup] resolves ask for release publishing,
    [publishRelease] is an object whose [include] and [ignore] are arrays,
    and [ignore] starts with the two default entries: nothing the user
    configures replaces them. *)
Theorem publishRelease_lists (h : host) (moduleOptions : value) (options : obj) :
  resolveOptions h moduleOptions = Ok options ->
  truthy (get "publishRelease" options) = true ->
  exists pr inc ign,
    get "publishRelease" options = VObj pr
    /\ get "include" pr = VArr inc
    /\ get "ignore" pr
       = VArr ([VStr "node_modules"; VStr ".nuxt/dist/client/img"] ++ ign).
Proof.
  intros Hr Ht. rewrite resolveOptions_steps in Hr.
  apply bind_Ok in Hr. destruct Hr as (o1 & H1 & Hr).
  apply bind_Ok in Hr. destruct Hr as (o2 & H2 & Hr).
  apply bind_Ok in Hr. destruct Hr as (o3 & H3 & Hr).
  destruct (truthy (get "publishRelease" o3)) eqn:Hp.
  - apply bind_Ok in Hr. destruct Hr as (merged & Hm & Hr). inversion Hr. subst options.
    exists merged. rewrite get_set_eq.
    destruct (mergeWith_one_Ok _ _ _ _ Hm) as [[_ Hb]|[_ ->]].
    + destruct (get "publishRelease" o3) as [| | | | |[|x xs]|sf| |]; simpl in Hb;
        try discriminate;
        try (inversion Hb; exists [], []; repeat split; reflexivity).
      destruct (mergeFields_array_grows "include" sf [] defaultsPublishRelease _
                  eq_refl Hb) as (inc & Hinc).
      destruct (mergeFields_array_grows "ignore" sf
                  [VStr "node_modules"; VStr ".nuxt/dist/client/img"]
                  defaultsPublishRelease _ eq_refl Hb) as (ign & Hign).
      exists inc, ign. repeat split; assumption.
    + exists [], []. repeat split; reflexivity.
  - inversion Hr. subst. congruence.
Qed.

Lemma publishRelease_lists_witness :
  exists options pr inc ign,
    resolveOptions sampleHost
      (VObj [("publishRelease", VObj [("include", VStr "dist"); ("ignore", VNull)])])
    = Ok options
    /\ get "publishRelease" options = VObj pr
    /\ get "include" pr = VArr inc
    /\ get "ignore" pr
       = VArr ([VStr "node_modules"; VStr ".nuxt/dist/client/img"] ++ ign).
Proof.
  destruct (resolveOptions sampleHost
              (VObj [("publishRelease", VObj [("include", VStr "dist"); ("ignore", VNull)])]))
    as [options|e] eqn:Hrun; [|vm_compute in Hrun; discriminate].
  exists options.
  assert (options
          = match resolveOptions sampleHost
                    (VObj [("publishRelease",
                            VObj [("include", VStr "dist"); ("ignore", VNull)])])
            with Ok o => o | Err _ => [] end) as Ho by (rewrite Hrun; reflexivity).
  destruct (publishRelease_lists sampleHost _ options Hrun
              ltac:(rewrite Ho; reflexivity)) as (pr & inc & ign & H).
  exists pr, inc, ign. split; [reflexivity|exact H].
Defined.

(** X6: publishing options given in the module options (the top-level
    options having none) are laid over the defaults with the arrays
    concatenated: [include] becomes the given list, or the one-element
    list of a value that is not an array (a single path); [ignore] becomes
    the two default entries followed by what is given. *)
Theorem publishRelease_user_lists (h : host) (moduleOptions sf options : obj) :
  wf (VObj moduleOptions) = true ->
  mentions "publishRelease" (nuxt_sentry h) = false ->
  lookup "publishRelease" moduleOptions = Some (VObj sf) ->
  resolveOptions h (VObj moduleOptions) = Ok options ->
  exists pr,
    get "publishRelease" options = VObj pr
    /\ get "include" pr
       = VArr (match lookup "include" sf with
               | Some (VArr ys) => ys
               | Some v => [v]
               | None => []
               end)
    /\ get "ignore" pr
       = VArr ([VStr "node_modules"; VStr ".nuxt/dist/client/img"]
               ++ match lookup "ignore" sf with
                  | Some (VArr ys) => ys
                  | Some v => [v]
                  | None => []
                  end).
Proof.
  intros Hwf Htop Hk Hr.
  assert (wf (VObj sf) = true) as Hsf.
  { replace (VObj sf) with (get "publishRelease" moduleOptions)
      by (unfold get; now rewrite Hk).
    now apply get_wf. }
  rewrite resolveOptions_steps in Hr.
  apply bind_Ok in Hr. destruct Hr as (o1 & H1 & Hr).
  apply bind_Ok in Hr. destruct Hr as (o2 & H2 & Hr).
  apply bind_Ok in Hr. destruct Hr as (o3 & H3 & Hr).
  assert (get "publishRelease" o2 = VBool (envToBool (env h "SENTRY_PUBLISH_RELEASE")))
    as Ho2.
  { rewrite (mergeWith_one_frame _ _ _ _ "publishRelease" H2 (js_or_mentions _ _ Htop)).
    apply (defaults_step h _ _ _ H1). simpl. now rewrite envFlag_false. }
  assert (get "publishRelease" o3 = VObj sf) as Ho3.
  { rewrite mergeWith_single in H3.
    destruct (proj1 (wf_obj _) Hwf) as [Hnd _].
    destruct (mergeFields_at _ _ _ _ _ _ Hnd Hk H3) as (x & Hx & Hg).
    rewrite Ho2, mergeValue_obj in Hx. cbn [customized mergeWithCustomizer isUndef negb] in Hx.
    rewrite (mergeFields_clone _ _ quietOnUndef_customizer Hsf) in Hx.
    simpl in Hx. inversion Hx. subst x. exact Hg. }
  rewrite Ho3 in Hr. simpl truthy in Hr. cbv iota in Hr.
  apply bind_Ok in Hr. destruct Hr as (merged & Hm & Hr). inversion Hr. subst options.
  exists merged. rewrite get_set_eq. split; [reflexivity|].
  rewrite mergeWith_single in Hm.
  destruct (proj1 (wf_obj _) Hsf) as [Hnd _].
  split.
  - destruct (lookup "include" sf) as [v|] eqn:Hv.
    + destruct (mergeFields_at _ _ _ _ _ _ Hnd Hv Hm) as (x & Hx & Hg).
      rewrite (mergeValue_customized _ _ _ (VArr (concat [] v))) in Hx
        by reflexivity.
      inversion Hx. subst x. rewrite Hg. destruct v; reflexivity.
    + unfold get. now rewrite (mergeFields_frame _ _ _ _ _ Hv Hm).
  - destruct (lookup "ignore" sf) as [v|] eqn:Hv.
    + destruct (mergeFields_at _ _ _ _ _ _ Hnd Hv Hm) as (x & Hx & Hg).
      rewrite (mergeValue_customized _ _ _
                 (VArr (concat [VStr "node_modules"; VStr ".nuxt/dist/client/img"] v)))
        in Hx by reflexivity.
      inversion Hx. subst x. rewrite Hg. destruct v; reflexivity.
    + unfold get. now rewrite (mergeFields_frame _ _ _ _ _ Hv Hm).
Qed.

Lemma publishRelease_user_lists_witness :
  exists options pr,
    resolveOptions sampleHost
      (VObj [("publishRelease",
              VObj [("include", VStr "dist"); ("ignore", VArr [VStr "tmp"])])])
    = Ok options
    /\ get "publishRelease" options = VObj pr
    /\ get "include" pr = VArr [VStr "dist"]
    /\ get "ignore" pr
       = VArr [VStr "node_modules"; VStr ".nuxt/dist/client/img"; VStr "tmp"].
Proof.
  destruct (resolveOptions sampleHost
              (VObj [("publishRelease",
                      VObj [("include", VStr "dist"); ("ignore", VArr [VStr "tmp"])])]))
    as [options|e] eqn:Hrun; [|vm_compute in Hrun; discriminate].
  exists options.
  destruct (publishRelease_user_lists sampleHost
              [("publishRelease",
                VObj [("include", VStr "dist"); ("ignore", VArr [VStr "tmp"])])]
              [("include", VStr "dist"); ("ignore", VArr [VStr "tmp"])] options
              eq_refl eq_refl eq_refl Hrun) as (pr & H).
  exists pr. split; [reflexivity|exact H].
Defined.

(** ** Keys stay distinct *)

Lemma In_keys_set k k' v o : In k' (keys (set k v o)) -> k' = k \/ In k' (keys o).
Proof.
  rewrite keys_set. destruct (has k o); [auto|].
  intros H. apply in_app_or in H. destruct H as [H|[H|[]]]; auto.
Qed.

Lemma NoDup_keys_set k v o : NoDup (keys o) -> NoDup (keys (set k v o)).
Proof.
  induction o as [|[k' v'] o IH]; simpl; intros H.
  - constructor; [intros []|constructor].
  - inversion H as [|? ? Hn Hd]. subst.
    destruct (String.eqb_spec k' k) as [->|Hne]; simpl.
    + constructor; assumption.
    + constructor; [|now apply IH].
      intros Hin. apply In_keys_set in Hin. destruct Hin as [->|Hin]; congruence.
Qed.

Lemma NoDup_keys_assign k v o : NoDup (keys o) -> NoDup (keys (assignMergeValue o k v)).
Proof.
  intros H. unfold assignMergeValue. destruct (isUndef v && has k o); [assumption|].
  now apply NoDup_keys_set.
Qed.

Lemma NoDup_mergeFields c : forall sf o r,
  NoDup (keys o) -> mergeFields c o sf = Ok r -> NoDup (keys r).
Proof.
  induction sf as [|[k s] sf IH]; intros o r Hnd Hm; simpl in Hm.
  - now inversion Hm; subst.
  - destruct (modelledKey k); [|discriminate].
    apply bind_Ok in Hm. destruct Hm as (v & _ & Hm).
    apply (IH _ _ (NoDup_keys_assign k v o Hnd) Hm).
Qed.

Lemma NoDup_baseMerge c o s r :
  NoDup (keys o) -> baseMerge c o s = Ok r -> NoDup (keys r).
Proof.
  intros Hnd Hm. destruct s as [| | |n|str|[|x xs]|fs| |]; simpl in Hm;
    try discriminate; try (inversion Hm; subst; assumption).
  now apply (NoDup_mergeFields c fs o r).
Qed.

Lemma NoDup_mergeAll c : forall sources o r,
  NoDup (keys o) -> mergeAll c o sources = Ok r -> NoDup (keys r).
Proof.
  induction sources as [|s sources IH]; intros o r Hnd Hm; simpl in Hm.
  - now inversion Hm; subst.
  - destruct (truthy s); [|now apply (IH o)].
    apply bind_Ok in Hm. destruct Hm as (o' & Hb & Hm).
    apply (IH o' r); [|assumption]. now apply (NoDup_baseMerge c o s).
Qed.

Lemma NoDup_fold_set (kvs : obj) : forall target,
  NoDup (keys target) ->
  NoDup (keys (fold_left (fun acc kv => set (fst kv) (snd kv) acc) kvs target)).
Proof.
  induction kvs as [|kv kvs IH]; intros target H; simpl; [assumption|].
  apply IH. now apply NoDup_keys_set.
Qed.

Lemma NoDup_spread target v r :
  NoDup (keys target) -> spread target v = Ok r -> NoDup (keys r).
Proof.
  intros Hnd H. destruct v as [| | |n|s|[|x xs]|o| |]; simpl in H;
    try discriminate; try (inversion H; subst; assumption).
  - destruct (s =? ""); [inversion H; subst; assumption|discriminate].
  - destruct (modelledKeys o); [|discriminate]. inversion H. now apply NoDup_fold_set.
Qed.

(** ** A release laid under a configuration *)

(** [merge({ release }, config)]: the configuration's own release wins when
    it has one that is not [undefined]; every other key is the
    configuration's. *)
Lemma release_under release sc config :
  NoDup (keys sc) ->
  merge [("release", release)] [VObj sc] = Ok config ->
  (lookup "release" sc = None -> get "release" config = release)
  /\ (forall v, lookup "release" sc = Some v -> flat v = true ->
                get "release" config = if isUndef v then release else v)
  /\ (forall k v, k <> "release" -> lookup k sc = Some v -> flat v = true ->
                  get k config = v).
Proof.
  intros Hnd Hm. unfold merge in Hm. simpl in Hm.
  apply bind_Ok in Hm. destruct Hm as (r & Hm & Hr). inversion Hr. subst r. clear Hr.
  split; [|split].
  - intros Hk. unfold get. rewrite (mergeFields_frame _ _ _ _ _ Hk Hm). simpl. reflexivity.
  - intros v Hk Hflat.
    destruct (mergeFields_at _ _ _ _ _ _ Hnd Hk Hm) as (x & Hx & Hg).
    rewrite mergeValue_flat_source in Hx by assumption. inversion Hx. subst x.
    rewrite Hg. reflexivity.
  - intros k v Hne Hk Hflat.
    destruct (mergeFields_at _ _ _ _ _ _ Hnd Hk Hm) as (x & Hx & Hg).
    rewrite mergeValue_flat_source in Hx by assumption. inversion Hx. subst x.
    rewrite Hg. rewrite get_tail by congruence. unfold get at 1. simpl.
    now destruct v.
Qed.

(** ** The server hooks *)

Lemma resolveTracingOptions_NoDup options options' config :
  resolveTracingOptions options = Ok options' ->
  get "config" options = VObj config ->
  NoDup (keys config) ->
  exists config', get "config" options' = VObj config' /\ NoDup (keys config').
Proof.
  unfold resolveTracingOptions. intros H Hc Hnd.
  destruct (truthy (get "tracing" options)).
  2:{ inversion H. subst. eauto. }
  apply bind_Ok in H. destruct H as (tr & _ & H).
  rewrite (get_set_ne "tracing" "config") in H by discriminate. rewrite Hc in H.
  simpl in H. destruct (negb (truthy (get "tracesSampleRate" config))).
  - inversion H. rewrite get_set_eq. eexists. split; [reflexivity|].
    now apply NoDup_keys_set.
  - inversion H. rewrite get_set_ne by discriminate. eauto.
Qed.

(** The configuration the server resolver returns is a plain object. *)
Lemma resolveServerOptions_config h moduleOptions w payload w' :
  resolveServerOptions h moduleOptions w = Ok (payload, w') ->
  exists p sc msgs,
    payload = VObj p
    /\ NoDup (keys p)
    /\ lookup "config" p = Some (VObj sc)
    /\ NoDup (keys sc)
    /\ w' = addLog msgs w.
Proof.
  intros H. destruct (resolveServerOptions_log _ _ _ _ _ H) as (msgs & Hw).
  unfold resolveServerOptions in H.
  apply mbind_Ok in H. destruct H as (options0 & w0 & _ & H).
  apply mbind_Ok in H. destruct H as (options1 & w1 & _ & H).
  apply mbind_Ok in H. destruct H as (enabled & w2 & _ & H).
  apply mbind_Ok in H. destruct H as (instances & w3 & _ & H).
  apply mbind_Ok in H. destruct H as (config0 & w4 & H4 & H).
  apply lift_Ok in H4. destruct H4 as [Hc0 _].
  apply mbind_Ok in H. destruct H as (options3 & w5 & H5 & H).
  apply lift_Ok in H5. destruct H5 as [Hrt _].
  apply mbind_Ok in H. destruct H as (api & w6 & _ & H).
  apply mbind_Ok in H. destruct H as (options4 & w7 & H7 & H).
  apply resolveLazyOptions_frame in H7. destruct H7 as [Hf4 _].
  apply mbind_Ok in H. destruct H as (options5 & w8 & H8 & H).
  apply lift_Ok in H8. destruct H8 as [Htr _].
  unfold ret in H. inversion H. subst payload. clear H.
  assert (NoDup (keys config0)) as Hnd0.
  { apply (NoDup_mergeAll None _ _ _) in Hc0; [assumption|].
    apply nodupb_NoDup. reflexivity. }
  assert (exists config1, get "config" options3 = VObj config1 /\ NoDup (keys config1))
    as (config1 & Hg3 & Hnd1).
  { unfold mergeRuntimeConfig in Hrt.
    apply bind_Ok in Hrt. destruct Hrt as (overrides & _ & Hrt).
    destruct overrides as [[rc rs]|].
    - rewrite get_set_eq in Hrt. apply bind_Ok in Hrt. destruct Hrt as (c1 & Hc1 & Hrt).
      inversion Hrt. exists c1. split; [apply get_set_eq|].
      apply (NoDup_mergeAll None _ _ _ Hnd0 Hc1).
    - inversion Hrt. subst options3. exists config0.
      split; [apply get_set_eq|assumption]. }
  assert (get "config" options4 = VObj config1) as Hg4
    by (rewrite Hf4 by discriminate; exact Hg3).
  destruct (resolveTracingOptions_NoDup _ _ _ Htr Hg4 Hnd1) as (sc & Hg5 & Hnd).
  eexists. exists sc, msgs.
  split; [reflexivity|]. split; [apply nodupb_NoDup; reflexivity|].
  split; [simpl; now rewrite Hg5|]. split; assumption.
Qed.

(** What a call of the initialization hook does when the marker is not
    set. *)
Lemma initializeServerSentry_run h moduleOptions w w1 :
  process_sentry w = false ->
  initializeServerSentry h moduleOptions w = Ok (tt, w1) ->
  exists payload sc msgs config,
    resolveServerOptions h moduleOptions w = Ok (payload, addLog msgs w)
    /\ field "config" payload = VObj sc
    /\ NoDup (keys sc)
    /\ merge [("release",
               match packages h (path_resolve h (nuxt_buildDir h) RESOLVED_RELEASE_FILENAME)
               with Some m => get "release" m | None => VUndef end)]
             [VObj sc] = Ok config
    /\ w1 = mkWorld (logged w ++ msgs) true
                    (sentry_inits w
                     ++ (if canInitialize moduleOptions then [VObj config] else []))
                    (sentry_closes w) (configs w).
Proof.
  intros Hw H. unfold initializeServerSentry in H. rewrite Hw in H.
  apply mbind_Ok in H. destruct H as (payload & w2 & H2 & H).
  destruct (resolveServerOptions_config _ _ _ _ _ H2)
    as (p & sc & msgs & -> & _ & Hp & Hnd & ->).
  assert (get "config" p = VObj sc) as Hf by (unfold get; now rewrite Hp).
  apply mbind_Ok in H. destruct H as (serverConfig & w3 & H3 & H).
  apply lift_Ok in H3. destruct H3 as [H3 ->]. simpl in H3. rewrite Hf in H3.
  inversion H3. subst serverConfig. clear H3.
  apply mbind_Ok in H. destruct H as (config & w3 & H3 & H).
  apply lift_Ok in H3. destruct H3 as [Hc ->].
  apply mbind_Ok in H. destruct H as ([] & w3 & H3 & H).
  unfold setProcessSentry in H. inversion H. subst w1. clear H.
  exists (VObj p), sc, msgs, config.
  split; [assumption|]. split; [assumption|]. split; [assumption|].
  split; [assumption|].
  destruct (canInitialize moduleOptions).
  - unfold Sentry_init in H3. inversion H3. reflexivity.
  - unfold ret in H3. inversion H3. simpl. now rewrite app_nil_r.
Qed.

Lemma initializeServerSentry_marks h moduleOptions w w1 :
  initializeServerSentry h moduleOptions w = Ok (tt, w1) -> process_sentry w1 = true.
Proof.
  intros H. destruct (process_sentry w) eqn:Hw.
  - unfold initializeServerSentry in H. rewrite Hw in H. now inversion H; subst.
  - destruct (initializeServerSentry_run _ _ _ _ Hw H) as (? & ? & ? & ? & _ & _ & _ & _ & ->).
    reflexivity.
Qed.

(** X7: the shutdown hook closes the client exactly when the marker is
    set.  After the initialization hook has returned (whether or not the
    client was activated) one shutdown calls [close] once and clears the
    marker, leaving the log and the activations as they are; a second
    shutdown does nothing; and the next initialization is not skipped: it
    resolves the options again and activates the client when
    [canInitialize] holds. *)
Theorem shutdown_after_initialize (h : host) (moduleOptions : obj) (w w1 : world) :
  initializeServerSentry h moduleOptions w = Ok (tt, w1) ->
  exists w2,
    shutdownServerSentry w1 = Ok (tt, w2)
    /\ process_sentry w2 = false
    /\ sentry_closes w2 = S (sentry_closes w1)
    /\ sentry_inits w2 = sentry_inits w1
    /\ logged w2 = logged w1
    /\ configs w2 = configs w1
    /\ shutdownServerSentry w2 = Ok (tt, w2)
    /\ (forall w3,
          initializeServerSentry h moduleOptions w2 = Ok (tt, w3) ->
          process_sentry w3 = true
          /\ exists config,
               sentry_inits w3
               = sentry_inits w2
                 ++ (if canInitialize moduleOptions then [VObj config] else [])).
Proof.
  intros H. apply initializeServerSentry_marks in H.
  exists (mkWorld (logged w1) false (sentry_inits w1) (S (sentry_closes w1)) (configs w1)).
  split; [unfold shutdownServerSentry; rewrite H; reflexivity|].
  do 6 (split; [reflexivity|]).
  intros w3 H3. split; [now apply initializeServerSentry_marks in H3|].
  apply initializeServerSentry_run in H3; [|reflexivity].
  destruct H3 as (payload & sc & msgs & config & _ & _ & _ & _ & ->).
  exists config. reflexivity.
Qed.

Lemma shutdown_after_initialize_witness :
  exists w1 w2,
    initializeServerSentry runtimeHost sampleServerOptions emptyWorld = Ok (tt, w1)
    /\ shutdownServerSentry w1 = Ok (tt, w2)
    /\ process_sentry w2 = false
    /\ sentry_closes w2 = 1.
Proof.
  destruct (initializeServerSentry runtimeHost sampleServerOptions emptyWorld)
    as [[[] w1]|e] eqn:Hrun; [|vm_compute in Hrun; discriminate].
  destruct (shutdown_after_initialize _ _ _ _ Hrun) as (w2 & Hs & Hp & Hc & _).
  exists w1, w2. split; [reflexivity|]. split; [assumption|]. split; [assumption|].
  rewrite Hc. f_equal.
  assert (w1 = match initializeServerSentry runtimeHost sampleServerOptions emptyWorld
               with Ok (_, x) => x | Err _ => emptyWorld end) as ->
    by (rewrite Hrun; reflexivity).
  reflexivity.
Defined.

(** The shutdown hook on a world whose marker is not set. *)
Example shutdown_without_client : shutdownServerSentry emptyWorld = Ok (tt, emptyWorld).
Proof. reflexivity. Qed.

(** X8: a first call of the initialization hook on options that can
    initialize activates the client with the configuration the server
    resolver returns, laid over the release read back from the generated
    file: the configuration's own release wins when it has one, otherwise
    the release is the persisted one ([undefined] when the file cannot be
    loaded, which is not an error); the other settings are the
    resolver's.  The hook itself logs nothing. *)
Theorem initialize_release_read_back (h : host) (moduleOptions : obj) (w w1 : world) :
  process_sentry w = false ->
  canInitialize moduleOptions = true ->
  initializeServerSentry h moduleOptions w = Ok (tt, w1) ->
  exists payload w' sc config,
    resolveServerOptions h moduleOptions w = Ok (payload, w')
    /\ field "config" payload = VObj sc
    /\ sentry_inits w1 = sentry_inits w ++ [VObj config]
    /\ logged w1 = logged w'
    /\ (lookup "release" sc = None -> get "release" config = persistedRelease h)
    /\ (forall v, lookup "release" sc = Some v -> flat v = true ->
                  get "release" config = if isUndef v then persistedRelease h else v)
    /\ (forall k v, k <> "release" -> lookup k sc = Some v -> flat v = true ->
                    get k config = v).
Proof.
  intros Hw Hcan H.
  destruct (initializeServerSentry_run _ _ _ _ Hw H)
    as (payload & sc & msgs & config & Hres & Hf & Hnd & Hm & ->).
  rewrite Hcan. exists payload, (addLog msgs w), sc, config.
  split; [assumption|]. split; [assumption|]. split; [reflexivity|].
  split; [reflexivity|]. exact (release_under _ _ _ Hnd Hm).
Qed.

Lemma initialize_release_read_back_witness :
  exists w1 config,
    initializeServerSentry runtimeHost sampleServerOptions emptyWorld = Ok (tt, w1)
    /\ sentry_inits w1 = [VObj config]
    /\ get "release" config = VStr "1.0.0"
    /\ get "environment" config = VStr "staging".
Proof.
  destruct (initializeServerSentry runtimeHost sampleServerOptions emptyWorld)
    as [[[] w1]|e] eqn:Hrun; [|vm_compute in Hrun; discriminate].
  destruct (initialize_release_read_back runtimeHost sampleServerOptions emptyWorld w1
              eq_refl eq_refl Hrun)
    as (payload & w' & sc & config & Hres & Hf & Hi & _ & Hnone & _ & Hother).
  assert (sc = match resolveServerOptions runtimeHost sampleServerOptions emptyWorld with
               | Ok (VObj p, _) => match get "config" p with VObj c => c | _ => [] end
               | _ => []
               end) as Hsc.
  { rewrite Hres. destruct payload; try discriminate. simpl in Hf. now rewrite Hf. }
  exists w1, config. split; [reflexivity|]. split; [exact Hi|]. split.
  - apply Hnone. rewrite Hsc. reflexivity.
  - apply Hother; [discriminate| |reflexivity]. rewrite Hsc. reflexivity.
Defined.

(** ** The options handed to the release-publishing plugin *)

Lemma withBuildDirs_exact h options inc :
  withBuildDirs h options (VArr inc)
  = Ok (VArr (inc
              ++ (if truthy (get "disableServerRelease" options) then []
                  else [VStr (nuxt_buildDir h ++ "/dist/server")%string])
              ++ (if truthy (get "disableClientRelease" options) then []
                  else [VStr (nuxt_buildDir h ++ "/dist/client")%string]))).
Proof.
  unfold withBuildDirs.
  destruct (truthy (get "disableServerRelease" options));
    destruct (truthy (get "disableClientRelease" options)); simpl;
    rewrite ?app_nil_r, <- ?app_assoc; reflexivity.
Qed.

Lemma include_withIncludeArray_exact p :
  get "include" (withIncludeArray p)
  = VArr (match get "include" p with
          | VArr xs => xs
          | v => if truthy v then [v] else []
          end).
Proof.
  unfold withIncludeArray.
  destruct (get "include" p) eqn:E; simpl; rewrite ?get_set_eq; try reflexivity.
  exact E.
Qed.

Lemma urlPrefix_withUrlPrefix h p :
  get "urlPrefix" (withUrlPrefix h p)
  = if truthy (get "urlPrefix" p) then get "urlPrefix" p
    else match nuxt_router_base h, nuxt_publicPath h with
         | VStr base, VStr publicPath =>
             VStr (if startsWithSlash (posix_join h base publicPath)
                   then ("~" ++ posix_join h base publicPath)%string
                   else posix_join h base publicPath)
         | _, _ => get "urlPrefix" p
         end.
Proof.
  unfold withUrlPrefix. destruct (truthy (get "urlPrefix" p)); simpl; [reflexivity|].
  destruct (nuxt_router_base h); try reflexivity.
  destruct (nuxt_publicPath h); try reflexivity.
  apply get_set_eq.
Qed.

(** The publishing options the hook resolves, key by key. *)
Lemma resolvePublishRelease_exact h options pr config w :
  get "publishRelease" options = VObj pr ->
  wf (VObj pr) = true ->
  get "config" options = VObj config ->
  exists p,
    resolvePublishRelease h options w = Ok (p, w)
    /\ get "release" p
       = (if truthy (get "release" config) then get "release" config
          else if truthy (get "release" pr) then get "release" pr
          else autoRelease h config)
    /\ get "include" p
       = VArr (match get "include" pr with
               | VArr xs => xs
               | v => if truthy v then [v] else []
               end
               ++ (if truthy (get "disableServerRelease" options) then []
                   else [VStr (nuxt_buildDir h ++ "/dist/server")%string])
               ++ (if truthy (get "disableClientRelease" options) then []
                   else [VStr (nuxt_buildDir h ++ "/dist/client")%string]))
    /\ get "urlPrefix" p = get "urlPrefix" (withUrlPrefix h pr)
    /\ (forall k, k <> "release" -> k <> "include" -> k <> "urlPrefix" ->
                  get k p = get k pr).
Proof.
  intros Hpr Hwf Hc. unfold resolvePublishRelease.
  rewrite Hpr, (merge_clone _ Hwf). unfold mbind at 1. unfold lift at 1.
  cbv beta iota zeta.
  rewrite include_withIncludeArray_exact, get_withUrlPrefix by discriminate.
  rewrite withBuildDirs_exact.
  unfold mbind at 1. unfold lift at 1. cbv beta iota.
  rewrite Hc. simpl prop. unfold mbind at 1. unfold lift at 1. cbv beta iota.
  rewrite (get_set_ne "include" "release") by discriminate.
  rewrite get_withIncludeArray, get_withUrlPrefix by discriminate.
  assert (forall v q,
            get "include" (set "release" v (set "include" q
                             (withIncludeArray (withUrlPrefix h pr)))) = q) as Hinc.
  { intros v q. rewrite get_set_ne by discriminate. apply get_set_eq. }
  assert (forall v q,
            get "urlPrefix" (set "release" v (set "include" q
                               (withIncludeArray (withUrlPrefix h pr))))
            = get "urlPrefix" (withUrlPrefix h pr)) as Hurl.
  { intros v q. rewrite !get_set_ne by discriminate.
    now rewrite get_withIncludeArray by discriminate. }
  assert (forall v q k, k <> "release" -> k <> "include" -> k <> "urlPrefix" ->
            get k (set "release" v (set "include" q
                     (withIncludeArray (withUrlPrefix h pr)))) = get k pr) as Hother.
  { intros v q k H1 H2 H3. rewrite !get_set_ne by congruence.
    now rewrite get_withIncludeArray, get_withUrlPrefix by assumption. }
  destruct (truthy (get "release" config)) eqn:E1.
  - unfold mbind, ret. eexists. split; [reflexivity|].
    rewrite get_set_eq. auto.
  - destruct (truthy (get "release" pr)) eqn:E2.
    + unfold mbind, ret. eexists. split; [reflexivity|].
      rewrite get_set_eq. auto.
    + unfold mbind. rewrite (resolveRelease_object h options config w Hc).
      unfold ret. eexists. split; [reflexivity|].
      rewrite get_set_eq. split; [|auto].
      unfold autoRelease. reflexivity.
Qed.

Lemma attachCommits_frame h p p' :
  attachCommits h p = Ok p' -> forall k, k <> "setCommits" -> get k p' = get k p.
Proof.
  unfold attachCommits. intros H k Hk.
  destruct (envToBool (env h "SENTRY_AUTO_ATTACH_COMMITS")).
  - apply bind_Ok in H. destruct H as (x1 & _ & H).
    apply bind_Ok in H. destruct H as (x2 & _ & H).
    apply bind_Ok in H. destruct H as (x3 & _ & H).
    apply bind_Ok in H. destruct H as (x4 & _ & H).
    inversion H. apply get_set_ne. congruence.
  - now inversion H; subst.
Qed.

(** A run of the hook past its guards, with the options it resolves. *)
Lemma webpackConfigHook_run h webpackConfigs options pr config m c0 cls last ps w p :
  packages h "@sentry/webpack-plugin" = Some m ->
  (get "default" m ||| VObj m)%js = VFun cls ->
  resolvePublishRelease h options w = Ok (p, w) ->
  get "publishRelease" options = VObj pr ->
  get "config" options = VObj config ->
  truthy (get "release" p) = true ->
  get "setCommits" p = get "setCommits" pr ->
  commitsAttachable h pr = true ->
  (forall a, In a webpackConfigs -> a < List.length (configs w)) ->
  lastConfig webpackConfigs = Some last ->
  nth_error (configs w) last = Some c0 ->
  pluginList c0 = Some ps ->
  exists p' w' c',
    attachCommits h p = Ok p'
    /\ webpackConfigHook h webpackConfigs options w = Ok (tt, w')
    /\ nth_error (configs w') last = Some c'
    /\ get "plugins" c' = VArr (ps ++ [VInst cls [VObj p']]).
Proof.
  intros Hpkg Hcls Hp Hpr Hc Hprel Hsc Hcommits Hvalid Hlast Hc0 Hps.
  destruct (attachCommits_total h p) as (p' & Hp').
  { unfold commitsAttachable in *. now rewrite Hsc. }
  destruct (setDevtool_run (get "sourceMapStyle" options) webpackConfigs w Hvalid)
    as (cs & Hdev & Hlen & Hcs).
  pose proof (Hcs last c0 Hc0) as Hlast1.
  rewrite (existsb_eqb_In _ _ (lastConfig_In _ _ Hlast)) in Hlast1.
  set (plugin := VInst cls [VObj p']).
  set (c1 := set "devtool" (get "sourceMapStyle" options) c0) in *.
  exists p', (withConfigs (replaceNth last (set "plugins" (VArr (ps ++ [plugin])) c1) cs) w),
    (set "plugins" (VArr (ps ++ [plugin])) c1).
  split; [assumption|]. split; [|split].
  - unfold webpackConfigHook. rewrite Hpkg, Hcls.
    unfold mbind at 1. unfold ret at 1. unfold mbind at 1. rewrite Hp, Hprel.
    unfold mbind, lift. rewrite Hp'. cbn [negb]. cbv beta iota. rewrite Hdev.
    rewrite (addPlugin_run cls p' webpackConfigs last c1 ps (withConfigs cs w) Hlast Hlast1).
    + reflexivity.
    + subst c1. rewrite pluginList_set_devtool. exact Hps.
  - simpl. apply nth_error_replaceNth_eq. rewrite Hlen. apply Hvalid.
    now apply lastConfig_In.
  - apply get_set_eq.
Qed.

(** X9: past its guards the hook builds the plugin from a copy of
    [options.publishRelease] in which: the release is [config.release],
    else the publishing options' own release, else the one proposed
    automatically (the first of them that is truthy); [include] is the
    given list (a single value becomes a one-element list, nothing the
    empty list) followed by the server and the client output directories
    of the build, each unless its release is disabled; [urlPrefix] is the
    given one, derived only when none is given; every other key except
    [setCommits] is as given. *)
Theorem plugin_options_resolved
  (h : host) (webpackConfigs : list nat) (options pr config m c0 : obj)
  (cls : string) (last : nat) (ps : list value) (w : world) :
  packages h "@sentry/webpack-plugin" = Some m ->
  (get "default" m ||| VObj m)%js = VFun cls ->
  get "publishRelease" options = VObj pr ->
  wf (VObj pr) = true ->
  get "config" options = VObj config ->
  releaseResolved h config pr = true ->
  commitsAttachable h pr = true ->
  (forall a, In a webpackConfigs -> a < List.length (configs w)) ->
  lastConfig webpackConfigs = Some last ->
  nth_error (configs w) last = Some c0 ->
  pluginList c0 = Some ps ->
  exists p w' c',
    webpackConfigHook h webpackConfigs options w = Ok (tt, w')
    /\ nth_error (configs w') last = Some c'
    /\ get "plugins" c' = VArr (ps ++ [VInst cls [VObj p]])
    /\ get "release" p
       = (if truthy (get "release" config) then get "release" config
          else if truthy (get "release" pr) then get "release" pr
          else autoRelease h config)
    /\ get "include" p
       = VArr (match get "include" pr with
               | VArr xs => xs
               | v => if truthy v then [v] else []
               end
               ++ (if truthy (get "disableServerRelease" options) then []
                   else [VStr (nuxt_buildDir h ++ "/dist/server")%string])
               ++ (if truthy (get "disableClientRelease" options) then []
                   else [VStr (nuxt_buildDir h ++ "/dist/client")%string]))
    /\ get "urlPrefix" p
       = (if truthy (get "urlPrefix" pr) then get "urlPrefix" pr
          else match nuxt_router_base h, nuxt_publicPath h with
               | VStr base, VStr publicPath =>
                   VStr (if startsWithSlash (posix_join h base publicPath)
                         then ("~" ++ posix_join h base publicPath)%string
                         else posix_join h base publicPath)
               | _, _ => get "urlPrefix" pr
               end)
    /\ (forall k, k <> "release" -> k <> "include" -> k <> "urlPrefix" ->
                  k <> "setCommits" -> get k p = get k pr).
Proof.
  intros Hpkg Hcls Hpr Hwf Hc Hrel Hcommits Hvalid Hlast Hc0 Hps.
  destruct (resolvePublishRelease_exact h options pr config w Hpr Hwf Hc)
    as (p & Hp & Hprel & Hinc & Hurl & Hother).
  assert (truthy (get "release" p) = true) as Ht.
  { rewrite Hprel. unfold releaseResolved in Hrel.
    destruct (truthy (get "release" config)) eqn:E1; [assumption|].
    destruct (truthy (get "release" pr)) eqn:E2; [assumption|]. exact Hrel. }
  destruct (webpackConfigHook_run h webpackConfigs options pr config m c0 cls last ps w p
              Hpkg Hcls Hp Hpr Hc Ht (Hother "setCommits" ltac:(discriminate)
                                        ltac:(discriminate) ltac:(discriminate))
              Hcommits Hvalid Hlast Hc0 Hps)
    as (p' & w' & c' & Hp' & Hrun & Hnth & Hplug).
  pose proof (attachCommits_frame _ _ _ Hp') as Hf.
  exists p', w', c'.
  split; [assumption|]. split; [assumption|]. split; [assumption|].
  split; [rewrite Hf by discriminate; exact Hprel|].
  split; [rewrite Hf by discriminate; exact Hinc|].
  split; [rewrite Hf by discriminate; rewrite Hurl; apply urlPrefix_withUrlPrefix|].
  intros k H1 H2 H3 H4. rewrite Hf by assumption. now apply Hother.
Qed.

Lemma plugin_options_resolved_witness :
  exists p w' c',
    webpackConfigHook sampleHost [0; 1] publishWithRelease sampleBuild = Ok (tt, w')
    /\ nth_error (configs w') 1 = Some c'
    /\ get "plugins" c'
       = VArr [VInst "VueLoaderPlugin" []; VInst "SentryCliPlugin" [VObj p]]
    /\ get "release" p = VStr "1.0.0"
    /\ get "include" p = VArr [VStr ".nuxt/dist/server"; VStr ".nuxt/dist/client"]
    /\ get "urlPrefix" p = VStr "~/_nuxt/".
Proof.
  destruct (plugin_options_resolved sampleHost [0; 1] publishWithRelease
              defaultsPublishRelease
              [("environment", VStr "production"); ("release", VStr "1.0.0")]
              [("default", VFun "SentryCliPlugin")]
              [("name", VStr "server"); ("plugins", VArr [VInst "VueLoaderPlugin" []])]
              "SentryCliPlugin" 1 [VInst "VueLoaderPlugin" []] sampleBuild
              eq_refl eq_refl eq_refl eq_refl eq_refl eq_refl eq_refl)
    as (p & w' & c' & Hrun & Hnth & Hplug & Hrel & Hinc & Hurl & _);
    try reflexivity.
  - intros a [<-|[<-|[]]]; simpl; lia.
  - exists p, w', c'. repeat split; assumption.
Defined.

(** X10: automatic commit attachment never overwrites what the user set.
    With [SENTRY_AUTO_ATTACH_COMMITS] on, [setCommits] (an empty object
    when none is given) gets [auto: true] only where [auto] is
    [undefined], and the repository named by [SENTRY_RELEASE_REPO] only
    where that name is not empty and [repo] is [undefined]; its other
    keys, and every other publishing option, stay as they are.  With the
    variable off the options are returned as they are. *)
Theorem commits_attached (h : host) (p : obj) :
  (envToBool (env h "SENTRY_AUTO_ATTACH_COMMITS") = false -> attachCommits h p = Ok p)
  /\ (forall sc,
        envToBool (env h "SENTRY_AUTO_ATTACH_COMMITS") = true ->
        (get "setCommits" p ||| VObj [])%js = VObj sc ->
        exists sc',
          attachCommits h p = Ok (set "setCommits" (VObj sc') p)
          /\ get "auto" sc'
             = (if isUndef (get "auto" sc) then VBool true else get "auto" sc)
          /\ get "repo" sc'
             = (if isUndef (get "repo" sc)
                   && truthy (envValue h "SENTRY_RELEASE_REPO" ||| VStr "")%js
                then (envValue h "SENTRY_RELEASE_REPO" ||| VStr "")%js
                else get "repo" sc)
          /\ (forall k, k <> "auto" -> k <> "repo" -> get k sc' = get k sc)).
Proof.
  split.
  - intros H. unfold attachCommits. now rewrite H.
  - intros sc Hflag Hsc. unfold attachCommits. rewrite Hflag, Hsc.
    simpl prop. cbn [bind].
    destruct (isUndef (get "auto" sc)) eqn:Hauto; simpl setProp; cbn [bind];
      simpl prop; cbn [bind]; rewrite ?(get_set_ne "auto" "repo") by discriminate;
      rewrite andb_comm;
      destruct (isUndef (get "repo" sc) && truthy (envValue h "SENTRY_RELEASE_REPO" ||| VStr "")%js)
        eqn:Hrepo; simpl; eexists; (split; [reflexivity|]).
    + rewrite get_set_ne, get_set_eq, get_set_eq by discriminate.
      repeat split. intros k H1 H2. now rewrite !get_set_ne by congruence.
    + rewrite get_set_eq, get_set_ne by discriminate.
      repeat split. intros k H1 H2. now rewrite !get_set_ne by congruence.
    + rewrite get_set_ne, get_set_eq by discriminate.
      repeat split. intros k H1 H2. now rewrite !get_set_ne by congruence.
    + repeat split.
Qed.

Lemma commits_attached_witness :
  exists sc',
    attachCommits (hostWithEnv "SENTRY_AUTO_ATTACH_COMMITS" "true")
      [("setCommits", VObj [("auto", VBool false)])]
    = Ok (set "setCommits" (VObj sc') [("setCommits", VObj [("auto", VBool false)])])
    /\ get "auto" sc' = VBool false
    /\ get "repo" sc' = VUndef.
Proof.
  destruct (proj2 (commits_attached (hostWithEnv "SENTRY_AUTO_ATTACH_COMMITS" "true")
                     [("setCommits", VObj [("auto", VBool false)])])
              [("auto", VBool false)] eq_refl eq_refl) as (sc' & Hrun & Hauto & Hrepo & _).
  exists sc'. split; [exact Hrun|]. split; [exact Hauto|exact Hrepo].
Defined.

(** X11: handed an empty list of build configurations, the hook with a
    resolved release has no last configuration to give the plugin to: it
    ends in the [TypeError] of reading [plugins] of [undefined], before
    the plugin is constructed. *)
Theorem hook_without_configs (h : host) (options pr config m : obj) (w : world) :
  packages h "@sentry/webpack-plugin" = Some m ->
  get "publishRelease" options = VObj pr ->
  wf (VObj pr) = true ->
  get "config" options = VObj config ->
  releaseResolved h config pr = true ->
  commitsAttachable h pr = true ->
  webpackConfigHook h [] options w = Err typeError_read.
Proof.
  intros Hpkg Hpr Hwf Hc Hrel Hcommits.
  destruct (resolvePublishRelease_run h options pr config w Hpr Hwf Hc)
    as (p & Hp & Hprel & Hsc).
  rewrite Hrel in Hprel.
  destruct (attachCommits_total h p) as (p' & Hp').
  { unfold commitsAttachable in *. now rewrite Hsc. }
  unfold webpackConfigHook. rewrite Hpkg.
  unfold mbind at 1. unfold ret at 1. unfold mbind at 1. rewrite Hp, Hprel.
  unfold mbind, lift. rewrite Hp'. reflexivity.
Qed.

Lemma hook_without_configs_witness :
  webpackConfigHook sampleHost [] publishWithRelease sampleBuild = Err typeError_read.
Proof.
  apply (hook_without_configs sampleHost publishWithRelease defaultsPublishRelease
           [("environment", VStr "production"); ("release", VStr "1.0.0")]
           [("default", VFun "SentryCliPlugin")]); reflexivity.
Defined.

(** ** The release proposed by the CLI *)

Lemma whitePrefix_app u r t :
  whitePrefix u = Some r -> whitePrefix (u ++ t)%string = Some (r ++ t)%string.
Proof.
  destruct u as [|c [|d [|e u]]]; simpl; try discriminate;
    destruct (isSpace c); try discriminate;
    try (intros H; inversion H; reflexivity);
    destruct (noBreakSpace c d); try discriminate;
    try (intros H; inversion H; reflexivity).
  destruct (wideSpace c d e); [|discriminate]. intros H. now inversion H.
Qed.

(** A white space character at the start of a string, split off. *)
Lemma whitePrefix_split s r :
  whitePrefix s = Some r ->
  exists u, s = (u ++ r)%string /\ whitePrefix u = Some "" /\ String.length r < String.length s.
Proof.
  destruct s as [|c [|d [|e s]]]; simpl; try discriminate.
  - destruct (isSpace c) eqn:Ec; [|discriminate]. intros H. inversion H.
    exists (String c ""). simpl. rewrite Ec. repeat split; lia.
  - destruct (isSpace c) eqn:Ec.
    + intros H. inversion H. exists (String c ""). simpl. rewrite Ec. repeat split; lia.
    + destruct (noBreakSpace c d) eqn:En; [|discriminate]. intros H. inversion H.
      exists (String c (String d "")). simpl. rewrite Ec, En. repeat split; lia.
  - destruct (isSpace c) eqn:Ec.
    + intros H. inversion H. exists (String c ""). simpl. rewrite Ec. repeat split; lia.
    + destruct (noBreakSpace c d) eqn:En.
      * intros H. inversion H. exists (String c (String d "")). simpl. rewrite Ec, En. repeat split; lia.
      * destruct (wideSpace c d e) eqn:Ew; [|discriminate]. intros H. inversion H.
        exists (String c (String d (String e ""))). simpl. rewrite Ec, En, Ew. repeat split; lia.
Qed.

Lemma trimStart_eq s :
  trimStart s = match whitePrefix s with Some r => trimStart r | None => s end.
Proof.
  destruct s as [|c [|d [|e s]]]; simpl; try reflexivity;
    destruct (isSpace c); try reflexivity;
    destruct (noBreakSpace c d); try reflexivity.
  now destruct (wideSpace c d e).
Qed.

Lemma allWhite_eq s :
  allWhite s = match s with
               | EmptyString => true
               | _ => match whitePrefix s with Some r => allWhite r | None => false end
               end.
Proof.
  destruct s as [|c [|d [|e s]]]; simpl; try reflexivity;
    destruct (isSpace c); try reflexivity;
    destruct (noBreakSpace c d); try reflexivity.
  now destruct (wideSpace c d e).
Qed.

Lemma append_nil_r (s : string) : (s ++ "")%string = s.
Proof. induction s as [|c s IH]; simpl; [reflexivity|now rewrite IH]. Qed.

Lemma append_assoc (a b c : string) : ((a ++ b) ++ c = a ++ (b ++ c))%string.
Proof. induction a as [|x a IH]; simpl; [reflexivity|now rewrite IH]. Qed.

(** White space behind one white space character is white space. *)
Lemma allWhite_unit u t :
  whitePrefix u = Some "" -> allWhite (u ++ t)%string = allWhite t.
Proof.
  intros H. rewrite allWhite_eq. rewrite (whitePrefix_app _ _ t H). simpl.
  destruct u; [discriminate|reflexivity].
Qed.

Lemma allWhite_app : forall n p q,
  String.length p <= n -> allWhite p = true -> allWhite q = true ->
  allWhite (p ++ q)%string = true.
Proof.
  induction n as [|n IH]; intros p q Hlen Hp Hq.
  - destruct p; [exact Hq|simpl in Hlen; lia].
  - destruct p as [|c p']; [exact Hq|].
    rewrite allWhite_eq in Hp.
    destruct (whitePrefix (String c p')) as [r|] eqn:Hw; [|discriminate].
    destruct (whitePrefix_split _ _ Hw) as (u & Hs & Hu & Hl).
    rewrite Hs, append_assoc, (allWhite_unit u _ Hu).
    apply IH; [simpl in Hlen, Hl; lia|assumption|assumption].
Qed.

Lemma trimStart_spec : forall n s,
  String.length s <= n ->
  exists pre,
    s = (pre ++ trimStart s)%string
    /\ allWhite pre = true
    /\ whitePrefix (trimStart s) = None.
Proof.
  induction n as [|n IH]; intros s Hlen.
  - destruct s; [|simpl in Hlen; lia]. exists "". auto.
  - rewrite trimStart_eq. destruct (whitePrefix s) as [r|] eqn:Hw.
    + destruct (whitePrefix_split _ _ Hw) as (u & Hs & Hu & Hl).
      destruct (IH r ltac:(lia)) as (pre & Hr & Hpre & Hnone).
      exists (u ++ pre)%string. rewrite append_assoc, <- Hr.
      split; [assumption|]. split; [|assumption].
      now rewrite (allWhite_unit u _ Hu).
    + exists "". auto.
Qed.

Lemma trimEnd_spec s :
  exists post,
    s = (trimEnd s ++ post)%string
    /\ allWhite post = true
    /\ (forall a b, trimEnd s = (a ++ b)%string -> b <> "" -> allWhite b = false).
Proof.
  induction s as [|c s IH].
  - exists "". simpl. split; [reflexivity|]. split; [reflexivity|].
    intros a b H Hb. destruct a; destruct b; try discriminate. congruence.
  - destruct IH as (post & Hs & Hpost & Hfree).
    cbn [trimEnd]. destruct (allWhite (String c s)) eqn:Hall.
    + exists (String c s). split; [reflexivity|]. split; [assumption|].
      intros a b H Hb. destruct a; destruct b; try discriminate. congruence.
    + exists post. split; [simpl; now rewrite <- Hs|]. split; [assumption|].
      intros a b H Hb. destruct a as [|x a].
      * simpl in H. subst b.
        destruct (allWhite (String c (trimEnd s))) eqn:E; [|reflexivity].
        rewrite Hs in Hall.
        change (String c (trimEnd s ++ post)) with (String c (trimEnd s) ++ post)%string
          in Hall.
        rewrite (allWhite_app _ _ _ (le_n _) E Hpost) in Hall. discriminate.
      * simpl in H. inversion H. now apply (Hfree a b).
Qed.

(** Trimming the end leaves the start as it is. *)
Lemma trimEnd_start s : whitePrefix s = None -> whitePrefix (trimEnd s) = None.
Proof.
  intros H. destruct (trimEnd_spec s) as (post & Hs & _ & _).
  destruct (whitePrefix (trimEnd s)) as [r|] eqn:E; [|reflexivity].
  apply (whitePrefix_app _ _ post) in E. rewrite <- Hs in E. congruence.
Qed.

Lemma trimStart_allWhite : forall n s,
  String.length s <= n -> allWhite s = true -> trimStart s = "".
Proof.
  induction n as [|n IH]; intros s Hlen Hall.
  - destruct s; [reflexivity|simpl in Hlen; lia].
  - destruct s as [|c s']; [reflexivity|].
    rewrite trimStart_eq. rewrite allWhite_eq in Hall.
    destruct (whitePrefix (String c s')) as [r|] eqn:Hw; [|discriminate].
    destruct (whitePrefix_split _ _ Hw) as (u & _ & _ & Hl).
    apply IH; [simpl in Hlen, Hl; lia|assumption].
Qed.

(** X12: [resolveRelease] on options whose [config] is an object never
    throws and leaves the world alone.  It proposes nothing ([undefined])
    when [config] has a [release] key, whatever the key holds, and when
    the CLI fails; otherwise it answers with the version the CLI proposes
    without the white space around it: what is cut off at either end is
    white space only, what is left neither starts nor ends with white
    space, and a proposal of white space only gives the empty string. *)
Theorem resolveRelease_proposal (h : host) (moduleOptions config : obj) (w : world) :
  get "config" moduleOptions = VObj config ->
  exists release,
    resolveRelease h moduleOptions w = Ok (release, w)
    /\ (has "release" config = true -> release = VUndef)
    /\ (proposeVersion h = None -> release = VUndef)
    /\ (forall v,
          has "release" config = false -> proposeVersion h = Some v ->
          exists pre post,
            release = VStr (trim v)
            /\ v = (pre ++ trim v ++ post)%string
            /\ allWhite pre = true /\ allWhite post = true
            /\ whitePrefix (trim v) = None
            /\ (forall a b, trim v = (a ++ b)%string -> b <> "" -> allWhite b = false)
            /\ (allWhite v = true -> trim v = "")).
Proof.
  intros Hc. exists (autoRelease h config).
  split; [now apply resolveRelease_object|]. unfold autoRelease.
  split; [now intros ->|]. split.
  - intros ->. now destruct (has "release" config).
  - intros v -> ->.
    destruct (trimStart_spec _ v (le_n _)) as (pre & Hv & Hpre & Hfirst).
    destruct (trimEnd_spec (trimStart v)) as (post & Ht & Hpost & Hlast).
    exists pre, post. unfold trim.
    split; [reflexivity|]. split; [now rewrite <- Ht|].
    split; [assumption|]. split; [assumption|].
    split; [now apply trimEnd_start|]. split; [assumption|].
    intros Hall. now rewrite (trimStart_allWhite _ _ (le_n _) Hall).
Qed.

Lemma resolveRelease_proposal_witness :
  exists release,
    resolveRelease (hostWithProposal (noBreakSpaceChar ++ " v1.2.3" ++ newline))
      publishWithoutRelease emptyWorld
    = Ok (release, emptyWorld)
    /\ release = VStr "v1.2.3".
Proof.
  destruct (resolveRelease_proposal
              (hostWithProposal (noBreakSpaceChar ++ " v1.2.3" ++ newline))
              publishWithoutRelease [("environment", VStr "production")]
              emptyWorld eq_refl) as (release & Hrun & _ & _ & Hv).
  exists release. split; [exact Hrun|].
  destruct (Hv (noBreakSpaceChar ++ " v1.2.3" ++ newline)%string eq_refl eq_refl)
    as (pre & post & -> & _).
  reflexivity.
Defined.

(** A no-break space is white space to [trim]: alone it leaves the empty
    string, around a version it goes like the line feed does. *)
Example trim_no_break_space :
  trim noBreakSpaceChar = ""
  /\ trim (noBreakSpaceChar ++ "v1.2.3" ++ newline) = "v1.2.3".
Proof. split; reflexivity. Qed.

(** ** Lazy loading: which methods are mocked *)

(** X13: the lazy options are only resolved when [lazy] is set: a falsy
    [lazy] leaves the options and the log as they are.  [lazy: true]
    resolves to the default lazy options with every API method mocked.
    A [lazy] object that switches [injectMock] off resolves to an empty
    mock list, whatever methods it asks for, and nothing is logged. *)
Theorem lazy_mocking_switch (options : obj) (apiMethods : list string) (w : world) :
  (truthy (get "lazy" options) = false ->
   resolveLazyOptions options apiMethods w = Ok (options, w))
  /\ (get "lazy" options = VBool true ->
      resolveLazyOptions options apiMethods w
      = Ok (set "lazy"
              (VObj [("injectMock", VBool true);
                     ("injectLoadHook", VBool false);
                     ("mockApiMethods", VArr (map VStr apiMethods));
                     ("chunkName", VStr "sentry");
                     ("webpackPrefetch", VBool false);
                     ("webpackPreload", VBool false)]) options, w))
  /\ (forall lz v,
        get "lazy" options = VObj lz ->
        wf (VObj lz) = true ->
        lookup "injectMock" lz = Some v ->
        isUndef v = false ->
        truthy v = false ->
        exists options',
          resolveLazyOptions options apiMethods w = Ok (options', w)
          /\ getPath ["lazy"; "mockApiMethods"] (VObj options') = VArr []
          /\ (forall k, k <> "lazy" -> get k options' = get k options)).
Proof.
  split; [|split].
  - intros H. unfold resolveLazyOptions. now rewrite H.
  - intros H. unfold resolveLazyOptions. rewrite H. reflexivity.
  - intros lz v Hlazy Hwf Hk Hu Ht.
    destruct (merge_lazy_defaults lz Hwf) as (merged & Hmerge & Hat & _).
    unfold resolveLazyOptions. rewrite Hlazy. simpl truthy. cbv iota.
    unfold mbind at 1. unfold lift. rewrite Hmerge.
    rewrite (Hat _ _ Hk), Hu, Ht. simpl negb. cbv iota.
    eexists. split; [reflexivity|]. split.
    + simpl. rewrite get_set_eq. simpl. now rewrite get_set_eq.
    + intros k Hne. apply get_set_ne. congruence.
Qed.

Lemma lazy_mocking_switch_witness :
  resolveLazyOptions [("lazy", VBool false)] ["init"; "captureException"] emptyWorld
  = Ok ([("lazy", VBool false)], emptyWorld)
  /\ (exists options',
        resolveLazyOptions [("lazy", VBool true)] ["init"; "captureException"] emptyWorld
        = Ok (options', emptyWorld)
        /\ getPath ["lazy"; "mockApiMethods"] (VObj options')
           = VArr [VStr "init"; VStr "captureException"])
  /\ (exists options',
        resolveLazyOptions
          [("lazy", VObj [("injectMock", VBool false);
                          ("mockApiMethods", VArr [VStr "init"])])]
          ["init"; "captureException"] emptyWorld
        = Ok (options', emptyWorld)
        /\ getPath ["lazy"; "mockApiMethods"] (VObj options') = VArr []).
Proof.
  split; [|split].
  - apply (proj1 (lazy_mocking_switch [("lazy", VBool false)]
                    ["init"; "captureException"] emptyWorld)). reflexivity.
  - eexists. split.
    + apply (proj1 (proj2 (lazy_mocking_switch [("lazy", VBool true)]
                             ["init"; "captureException"] emptyWorld))). reflexivity.
    + reflexivity.
  - destruct (proj2 (proj2 (lazy_mocking_switch
                              [("lazy", VObj [("injectMock", VBool false);
                                              ("mockApiMethods", VArr [VStr "init"])])]
                              ["init"; "captureException"] emptyWorld))
                [("injectMock", VBool false); ("mockApiMethods", VArr [VStr "init"])]
                (VBool false) eq_refl eq_refl eq_refl eq_refl eq_refl)
      as (options' & Hrun & Hmock & _).
    exists options'. split; assumption.
Defined.

(** X14: with mocking on and an explicit list of methods, the resolved
    mock list holds, in the order they were asked for, the requested
    methods the API has, with [captureException] appended when it is not
    among them: no method the API lacks is mocked, [captureException]
    apart.  The methods that were not found are reported in one warning,
    and only when there is one. *)
Theorem mock_methods_known
  (options lz : obj) (apiMethods : list string) (requested : list value) (w : world) :
  get "lazy" options = VObj lz ->
  wf (VObj lz) = true ->
  get "injectMock" lz = VUndef \/ truthy (get "injectMock" lz) = true ->
  get "mockApiMethods" lz = VArr requested ->
  let found := filter (fun method => includesValue apiMethods method) requested in
  let notfound := filter (fun method => negb (includesValue apiMethods method)) requested in
  exists options' w',
    resolveLazyOptions options apiMethods w = Ok (options', w')
    /\ getPath ["lazy"; "mockApiMethods"] (VObj options')
       = VArr (found ++ (if arrayIncludes found "captureException" then []
                         else [VStr "captureException"]))
    /\ (forall m, In m found -> exists name, m = VStr name /\ In name apiMethods)
    /\ w' = match notfound with
            | [] => w
            | _ => addLog [Warn "Some specified methods to mock weren't found in @sentry/browser:"
                                [VArr notfound]] w
            end.
Proof.
  intros Hlazy Hwf Hinject Hmock found notfound.
  destruct (merge_lazy_defaults lz Hwf) as (merged & Hmerge & Hat & Hfr).
  assert (truthy (get "injectMock" merged) = true) as Hi.
  { unfold get in Hinject. destruct (lookup "injectMock" lz) as [s|] eqn:E.
    - rewrite (Hat _ _ E). destruct Hinject as [->|Ht]; [reflexivity|].
      destruct s; try discriminate; exact Ht.
    - now rewrite (Hfr _ E). }
  assert (get "mockApiMethods" merged = VArr requested) as Hm.
  { unfold get in Hmock. destruct (lookup "mockApiMethods" lz) as [s|] eqn:E;
      [|discriminate].
    subst s. now rewrite (Hat _ _ E). }
  unfold resolveLazyOptions. rewrite Hlazy. simpl truthy. cbv iota.
  unfold mbind at 1. unfold lift. rewrite Hmerge, Hi. simpl negb. cbv iota.
  rewrite Hm. fold found. fold notfound.
  eexists. exists (match notfound with
                   | [] => w
                   | _ => addLog [Warn "Some specified methods to mock weren't found in @sentry/browser:"
                                       [VArr notfound]] w
                   end).
  split; [|split; [|split; [|reflexivity]]].
  - unfold mbind. destruct notfound; simpl; unfold ret; reflexivity.
  - simpl. rewrite get_set_eq. simpl. rewrite get_set_eq.
    destruct (arrayIncludes found "captureException"); simpl;
      rewrite ?app_nil_r; reflexivity.
  - intros m Hin. apply filter_In in Hin. destruct Hin as [_ Hinc].
    destruct m; try discriminate. exists s. split; [reflexivity|].
    now apply includes_In.
Qed.

Lemma mock_methods_known_witness :
  exists options' w',
    resolveLazyOptions
      [("lazy", VObj [("mockApiMethods", VArr [VStr "foo"; VStr "init"])])]
      ["init"; "captureException"; "captureMessage"] emptyWorld = Ok (options', w')
    /\ getPath ["lazy"; "mockApiMethods"] (VObj options')
       = VArr [VStr "init"; VStr "captureException"]
    /\ logged w'
       = [Warn "Some specified methods to mock weren't found in @sentry/browser:"
               [VArr [VStr "foo"]]].
Proof.
  destruct (mock_methods_known
              [("lazy", VObj [("mockApiMethods", VArr [VStr "foo"; VStr "init"])])]
              [("mockApiMethods", VArr [VStr "foo"; VStr "init"])]
              ["init"; "captureException"; "captureMessage"]
              [VStr "foo"; VStr "init"] emptyWorld
              eq_refl eq_refl (or_introl eq_refl) eq_refl)
    as (options' & w' & Hrun & Hmock & _ & Hw).
  exists options', w'. split; [exact Hrun|]. split; [exact Hmock|].
  rewrite Hw. reflexivity.
Defined.

(** ** Tracing: the sample rate *)

Lemma tracing_merge_rate given rate tracing :
  NoDup (keys given) ->
  lookup "tracesSampleRate" given = Some rate ->
  flat rate = true -> isUndef rate = false ->
  merge defaultTracingOptions [VObj given] = Ok tracing ->
  get "tracesSampleRate" tracing = rate.
Proof.
  intros Hnd Hk Hflat Hu Hm. unfold merge in Hm. simpl in Hm.
  apply bind_Ok in Hm. destruct Hm as (r & Hm & Hr). inversion Hr. subst r.
  destruct (mergeFields_at _ _ _ _ _ _ Hnd Hk Hm) as (x & Hx & Hgx).
  rewrite mergeValue_flat_source in Hx by assumption. inversion Hx. subst x.
  rewrite Hgx, Hu. reflexivity.
Qed.

(** X15: [resolveTracingOptions] does nothing while [tracing] is falsy.
    With [tracing] set, a run that returns has replaced [tracing] by the
    tracing options ([tracing: true] gives the defaults; an object keeps
    its own primitive [tracesSampleRate]) and has filled in
    [config.tracesSampleRate] from them exactly when the configuration's
    own rate is falsy: a configured rate other than zero is kept, a rate
    of [0] is overwritten like a missing one.  No other key of [config]
    changes. *)
Theorem tracing_sample_rate (options options' config : obj) :
  get "config" options = VObj config ->
  resolveTracingOptions options = Ok options' ->
  (truthy (get "tracing" options) = false -> options' = options)
  /\ (truthy (get "tracing" options) = true ->
      exists tracing config',
        get "tracing" options' = VObj tracing
        /\ get "config" options' = VObj config'
        /\ get "tracesSampleRate" config'
           = (if truthy (get "tracesSampleRate" config)
              then get "tracesSampleRate" config
              else get "tracesSampleRate" tracing)
        /\ (forall k, k <> "tracesSampleRate" -> get k config' = get k config)
        /\ (isBoolean (get "tracing" options) = true -> tracing = defaultTracingOptions)
        /\ (forall given rate,
              get "tracing" options = VObj given -> NoDup (keys given) ->
              lookup "tracesSampleRate" given = Some rate ->
              flat rate = true -> isUndef rate = false ->
              get "tracesSampleRate" tracing = rate)).
Proof.
  intros Hc H.
  destruct (truthy (get "tracing" options)) eqn:Ht.
  2:{ unfold resolveTracingOptions in H. rewrite Ht in H. inversion H.
      split; [reflexivity|discriminate]. }
  split; [discriminate|]. intros _.
  destruct (resolveTracingOptions_rate _ _ _ Hc H Ht)
    as (tracing & config' & Hm & Htr & Hc' & Hrate & Hother).
  exists tracing, config'.
  split; [assumption|]. split; [assumption|]. split; [assumption|].
  split; [assumption|]. split.
  - intros Hb. rewrite Hb in Hm. simpl in Hm. now inversion Hm.
  - intros given rate Hg Hnd Hk Hflat Hu. rewrite Hg in Hm. simpl isBoolean in Hm.
    cbv iota in Hm. now apply (tracing_merge_rate given rate tracing).
Qed.

Lemma tracing_sample_rate_witness :
  exists options' tracing config',
    resolveTracingOptions
      [("tracing", VBool true); ("config", VObj [("tracesSampleRate", VNum 0)])]
    = Ok options'
    /\ get "tracing" options' = VObj tracing
    /\ get "config" options' = VObj config'
    /\ tracing = defaultTracingOptions
    /\ get "tracesSampleRate" config' = VNum 1.
Proof.
  destruct (resolveTracingOptions
              [("tracing", VBool true); ("config", VObj [("tracesSampleRate", VNum 0)])])
    as [options'|e] eqn:Hrun; [|vm_compute in Hrun; discriminate].
  destruct (proj2 (tracing_sample_rate
                     [("tracing", VBool true);
                      ("config", VObj [("tracesSampleRate", VNum 0)])]
                     options' [("tracesSampleRate", VNum 0)] eq_refl Hrun) eq_refl)
    as (tracing & config' & Ht & Hc & Hrate & _ & Hdef & _).
  exists options', tracing, config'.
  split; [reflexivity|]. split; [assumption|]. split; [assumption|].
  pose proof (Hdef eq_refl) as Hd. split; [assumption|].
  rewrite Hrate, Hd. reflexivity.
Defined.

(** ** What the client resolver hands to the plugin *)

Lemma validateClientIntegrations_frame options w options' w' :
  validateClientIntegrations options w = Ok (options', w') ->
  (forall k, k <> "clientIntegrations" -> get k options' = get k options)
  /\ exists msgs, w' = addLog msgs w.
Proof.
  unfold validateClientIntegrations. intros H.
  apply mbind_Ok in H. destruct H as (names & w0 & H0 & H).
  apply lift_Ok in H0. destruct H0 as [_ ->].
  destruct (dropUnrecognized_run clientUnrecognized clientWarning
              "clientIntegrations" names options w) as (o & Hrun & _ & _ & Hf).
  rewrite Hrun in H. inversion H. subst. eauto.
Qed.

Lemma get_fold_set k : forall (kvs : obj) target,
  NoDup (keys kvs) ->
  get k (fold_left (fun acc kv => set (fst kv) (snd kv) acc) kvs target)
  = match lookup k kvs with Some v => v | None => get k target end.
Proof.
  induction kvs as [|[k' v'] kvs IH]; intros target Hnd; simpl; [reflexivity|].
  inversion Hnd as [|? ? Hn Hd]. subst. rewrite (IH _ Hd).
  destruct (String.eqb_spec k' k) as [->|Hne].
  - apply lookup_None_keys in Hn. rewrite Hn. apply get_set_eq.
  - destruct (lookup k kvs); [reflexivity|]. now apply get_set_ne.
Qed.

(** The payload of the client resolver. *)
Lemma resolveClientOptions_payload h moduleOptions w payload w' :
  wf (VObj moduleOptions) = true ->
  resolveClientOptions h moduleOptions w = Ok (payload, w') ->
  exists cc config api p,
    merge [] [get "config" moduleOptions; get "clientConfig" moduleOptions] = Ok cc
    /\ spread [("dsn", get "dsn" moduleOptions)] (VObj cc) = Ok config
    /\ getApiMethods h "@sentry/browser" w = Ok (api, w)
    /\ payload = VObj p
    /\ NoDup (keys p)
    /\ lookup "config" p = Some (VObj config)
    /\ get "initialize" p = VBool (canInitialize moduleOptions)
    /\ get "runtimeConfigKey" p = get "runtimeConfigKey" moduleOptions
    /\ get "logMockCalls" p = get "logMockCalls" moduleOptions
    /\ get "dev" p = nuxt_dev h
    /\ get "apiMethods" p = VArr (map VStr api).
Proof.
  intros Hwf H. unfold resolveClientOptions in H.
  rewrite (merge_clone _ Hwf) in H.
  apply mbind_Ok in H. destruct H as (options0 & w0 & H0 & H).
  apply lift_Ok in H0. destruct H0 as [H0 ->]. inversion H0. subst options0. clear H0.
  apply mbind_Ok in H. destruct H as (cc & w0 & H0 & H).
  apply lift_Ok in H0. destruct H0 as [Hcc ->].
  apply mbind_Ok in H. destruct H as (api & w0 & Hapi & H).
  pose proof (getApiMethods_Ok _ _ _ _ _ Hapi) as Hw0. subst w0.
  apply mbind_Ok in H. destruct H as (options2 & w2 & H2 & H).
  apply resolveLazyOptions_frame in H2. destruct H2 as [Hf2 _].
  apply mbind_Ok in H. destruct H as (options3 & w3 & H3 & H).
  apply lift_Ok in H3. destruct H3 as [H3 _].
  pose proof (resolveTracingOptions_frame _ _ H3) as Hf3.
  apply mbind_Ok in H. destruct H as (options4 & w4 & H4 & H).
  apply validateClientIntegrations_frame in H4. destruct H4 as [Hf4 _].
  assert (forall k, k <> "clientIntegrations" -> k <> "tracing" -> k <> "config" ->
                    k <> "lazy" -> k <> "clientConfig" ->
                    get k options4 = get k moduleOptions) as Hf.
  { intros k Ha Hb Hc Hd He.
    rewrite Hf4, Hf3, Hf2 by assumption. apply get_set_ne. congruence. }
  assert (get "clientConfig" options4 = VObj cc) as Hcc4.
  { rewrite Hf4, Hf3, Hf2 by discriminate. apply get_set_eq. }
  apply mbind_Ok in H. destruct H as (config & w5 & H5 & H).
  apply lift_Ok in H5. destruct H5 as [Hsp _].
  rewrite Hcc4, Hf in Hsp by discriminate.
  apply mbind_Ok in H. destruct H as (enabled & w6 & _ & H).
  unfold ret in H. inversion H. subst payload w'. clear H.
  exists cc, config, api. eexists.
  split; [exact Hcc|]. split; [exact Hsp|]. split; [exact Hapi|].
  split; [reflexivity|]. split; [apply nodupb_NoDup; reflexivity|].
  split; [reflexivity|].
  split.
  { unfold get at 1. simpl lookup. cbv iota. f_equal. unfold canInitialize.
    now rewrite !Hf by discriminate. }
  split; [unfold get at 1; simpl lookup; cbv iota; apply Hf; discriminate|].
  split; [unfold get at 1; simpl lookup; cbv iota; apply Hf; discriminate|].
  split; reflexivity.
Qed.

(** X16: the client resolver's payload, for well-formed module options.
    Its [config] is the shared [config] with [clientConfig] merged over
    it, under the module's [dsn]: a key of the merged configuration is
    taken from it, [dsn] included, and [dsn] falls back on the module's
    only when the merged configuration has none.  Nothing else goes
    in: resolving the tracing options adds no [tracesSampleRate] to it.
    [initialize] is [canInitialize] of the module options, and
    [runtimeConfigKey], [logMockCalls], [dev] and the API methods are
    handed over as they are. *)
Theorem client_payload_config
  (h : host) (moduleOptions : obj) (w w' : world) (payload : value) :
  wf (VObj moduleOptions) = true ->
  resolveClientOptions h moduleOptions w = Ok (payload, w') ->
  exists cc config,
    merge [] [get "config" moduleOptions; get "clientConfig" moduleOptions] = Ok cc
    /\ field "config" payload = VObj config
    /\ (forall k, get k config
                  = match lookup k cc with
                    | Some v => v
                    | None => if k =? "dsn" then get "dsn" moduleOptions else VUndef
                    end)
    /\ field "initialize" payload = VBool (canInitialize moduleOptions)
    /\ field "runtimeConfigKey" payload = get "runtimeConfigKey" moduleOptions
    /\ field "logMockCalls" payload = get "logMockCalls" moduleOptions
    /\ field "dev" payload = nuxt_dev h
    /\ field "apiMethods" payload
       = match packages h "@sentry/browser" with
         | Some exports =>
             VArr (map VStr (map fst (filter (fun kv => isFunction (snd kv)) exports)))
         | None => VUndef
         end.
Proof.
  intros Hwf H.
  destruct (resolveClientOptions_payload _ _ _ _ _ Hwf H)
    as (cc & config & api & p & Hcc & Hsp & Hapi & -> & Hnd & Hc & Hi & Hr & Hl & Hd & Ha).
  exists cc, config. split; [assumption|].
  split; [simpl; unfold get; now rewrite Hc|].
  split.
  { intros k. simpl in Hsp. destruct (modelledKeys cc); [|discriminate].
    inversion Hsp as [Hfold]. rewrite get_fold_set.
    - destruct (lookup k cc); [reflexivity|].
      destruct (String.eqb_spec k "dsn") as [->|Hne].
      + apply get_head.
      + rewrite get_tail by congruence. reflexivity.
    - apply (NoDup_mergeAll None
               [get "config" moduleOptions; get "clientConfig" moduleOptions] [] cc);
        [constructor|exact Hcc]. }
  split; [assumption|]. split; [assumption|]. split; [assumption|].
  split; [assumption|].
  simpl. rewrite Ha. unfold getApiMethods in Hapi.
  destruct (packages h "@sentry/browser"); [|discriminate].
  unfold ret in Hapi. now inversion Hapi.
Qed.

Lemma client_payload_config_witness :
  exists payload w' config,
    resolveClientOptions sampleHost sampleTracedOptions emptyWorld = Ok (payload, w')
    /\ field "config" payload = VObj config
    /\ get "dsn" config = VStr "https://key@sentry.io/1"
    /\ get "environment" config = VStr "browser"
    /\ get "tracesSampleRate" config = VUndef
    /\ field "initialize" payload = VBool true.
Proof.
  destruct (resolveClientOptions sampleHost sampleTracedOptions emptyWorld)
    as [[payload w']|e] eqn:Hrun; [|vm_compute in Hrun; discriminate].
  destruct (client_payload_config sampleHost sampleTracedOptions emptyWorld w' payload
              eq_refl Hrun)
    as (cc & config & Hcc & Hc & Hk & Hi & _).
  assert (cc = [("environment", VStr "browser")]) as ->
    by (vm_compute in Hcc; now inversion Hcc).
  exists payload, w', config. split; [reflexivity|]. split; [assumption|].
  split; [apply (Hk "dsn")|]. split; [apply (Hk "environment")|].
  split; [apply (Hk "tracesSampleRate")|assumption].
Defined.

(** ** The build hook *)

Lemma resolveRelease_Ok h moduleOptions w release w' :
  resolveRelease h moduleOptions w = Ok (release, w') -> w' = w.
Proof.
  unfold resolveRelease, ret, throw. intros H.
  destruct (get "config" moduleOptions); try discriminate;
    repeat match type of H with
           | context [if ?b then _ else _] => destruct b
           | context [match proposeVersion h with _ => _ end] => destruct (proposeVersion h)
           end; now inversion H.
Qed.

Lemma resolveClientOptions_log h moduleOptions w payload w' :
  resolveClientOptions h moduleOptions w = Ok (payload, w') ->
  exists msgs, w' = addLog msgs w.
Proof.
  intros H. unfold resolveClientOptions in H.
  apply mbind_Ok in H. destruct H as (options0 & w0 & H0 & H).
  apply lift_Ok in H0. destruct H0 as [_ ->].
  apply mbind_Ok in H. destruct H as (cc & w0 & H0 & H).
  apply lift_Ok in H0. destruct H0 as [_ ->].
  apply mbind_Ok in H. destruct H as (api & w0 & Hapi & H).
  apply getApiMethods_Ok in Hapi. subst w0.
  apply mbind_Ok in H. destruct H as (options2 & w2 & H2 & H).
  apply resolveLazyOptions_frame in H2. destruct H2 as [_ (msgs2 & ->)].
  apply mbind_Ok in H. destruct H as (options3 & w3 & H3 & H).
  apply lift_Ok in H3. destruct H3 as [_ ->].
  apply mbind_Ok in H. destruct H as (options4 & w4 & H4 & H).
  apply validateClientIntegrations_frame in H4. destruct H4 as [_ (msgs4 & ->)].
  apply mbind_Ok in H. destruct H as (config & w5 & H5 & H).
  apply lift_Ok in H5. destruct H5 as [_ ->].
  apply mbind_Ok in H. destruct H as (enabled & w6 & H6 & H).
  apply lift_Ok in H6. destruct H6 as [_ ->].
  unfold ret in H. inversion H. subst. rewrite addLog_app. eauto.
Qed.

(** A run of the build hook, step by step. *)
Lemma buildHook_run h dirname moduleOptions calls w calls' w' :
  buildHook h dirname moduleOptions calls w = Ok (calls', w') ->
  exists release cpayload w1 clientOptions spayload serverOptions,
    resolveRelease h moduleOptions w = Ok (release, w)
    /\ resolveClientOptions h moduleOptions w = Ok (cpayload, w1)
    /\ merge [("config", VObj [("release", release)])] [cpayload] = Ok clientOptions
    /\ resolveServerOptions h moduleOptions w1 = Ok (spayload, w')
    /\ merge [("config", VObj [("release", release)])] [spayload] = Ok serverOptions
    /\ calls'
       = calls
         ++ [AddPlugin (pluginTemplate h dirname (pluginOptionClient moduleOptions)
                          "sentry.client.js" "client" clientOptions);
             AddPlugin (pluginTemplate h dirname (pluginOptionServer moduleOptions)
                          "sentry.server.js" "server" serverOptions)]
         ++ (if serverSentryEnabled moduleOptions
             then [AddTemplate (releaseTemplate h dirname release)] else []).
Proof.
  unfold buildHook. intros H.
  apply mbind_Ok in H. destruct H as (release & w0 & Hrel & H).
  pose proof (resolveRelease_Ok _ _ _ _ _ Hrel) as Hw0. subst w0.
  apply mbind_Ok in H. destruct H as (cpayload & w1 & Hcp & H).
  apply mbind_Ok in H. destruct H as (clientOptions & w2 & Hcm & H).
  apply lift_Ok in Hcm. destruct Hcm as [Hcm ->].
  apply mbind_Ok in H. destruct H as (spayload & w2 & Hsp & H).
  apply mbind_Ok in H. destruct H as (serverOptions & w3 & Hsm & H).
  apply lift_Ok in Hsm. destruct Hsm as [Hsm ->].
  exists release, cpayload, w1, clientOptions, spayload, serverOptions.
  destruct (serverSentryEnabled moduleOptions); unfold ret in H; inversion H; subst;
    repeat (split; [assumption|]); rewrite <- !app_assoc; reflexivity.
Qed.

(** X17: when the build hook returns it has called the container with
    two plugins, [sentry.client.js] in client mode and then
    [sentry.server.js] in server mode, and after them, exactly when the
    server side is enabled, with the template of the file the
    initialization hook reads the release from, holding the release
    [resolveRelease] answered.  The client plugin is the lazy one only
    when the client side is enabled and [lazy] is set; with [disabled] set
    both plugins are the mocked ones and no release file is written.
    Apart from these calls the hook only logs. *)
Theorem buildHook_registers
  (h : host) (dirname : string) (moduleOptions : obj) (calls calls' : list containerCall)
  (w w' : world) :
  buildHook h dirname moduleOptions calls w = Ok (calls', w') ->
  exists release clientOptions serverOptions msgs,
    resolveRelease h moduleOptions w = Ok (release, w)
    /\ calls'
       = calls
         ++ [AddPlugin (pluginTemplate h dirname (pluginOptionClient moduleOptions)
                          "sentry.client.js" "client" clientOptions);
             AddPlugin (pluginTemplate h dirname (pluginOptionServer moduleOptions)
                          "sentry.server.js" "server" serverOptions)]
         ++ (if serverSentryEnabled moduleOptions
             then [AddTemplate (releaseTemplate h dirname release)] else [])
    /\ (pluginOptionClient moduleOptions = "lazy"
        <-> clientSentryEnabled moduleOptions = true
            /\ truthy (get "lazy" moduleOptions) = true)
    /\ (pluginOptionClient moduleOptions = "mocked"
        <-> clientSentryEnabled moduleOptions = false)
    /\ (pluginOptionServer moduleOptions = "mocked"
        <-> serverSentryEnabled moduleOptions = false)
    /\ (truthy (get "disabled" moduleOptions) = true ->
        clientSentryEnabled moduleOptions = false
        /\ serverSentryEnabled moduleOptions = false)
    /\ w' = addLog msgs w.
Proof.
  intros H. apply buildHook_run in H.
  destruct H as (release & cpayload & w1 & clientOptions & spayload & serverOptions
                 & Hrel & Hcp & _ & Hsp & _ & Hcalls).
  apply resolveClientOptions_log in Hcp. destruct Hcp as (msgs1 & ->).
  apply resolveServerOptions_log in Hsp. destruct Hsp as (msgs2 & ->).
  exists release, clientOptions, serverOptions, (msgs1 ++ msgs2).
  split; [assumption|]. split; [assumption|].
  unfold pluginOptionClient, pluginOptionServer, clientSentryEnabled, serverSentryEnabled.
  destruct (truthy (get "disabled" moduleOptions));
    destruct (truthy (get "disableClientSide" moduleOptions));
    destruct (truthy (get "disableServerSide" moduleOptions));
    destruct (truthy (get "lazy" moduleOptions)); cbn [negb andb];
    (repeat split; try discriminate; try tauto; try apply addLog_app);
    intros H; try discriminate; try (destruct H; discriminate).
Qed.

Lemma buildHook_registers_witness :
  exists clientOptions serverOptions w',
    buildHook (hostWithProposal "v1.2.3") "/lib/core" sampleResolvedOptions [] emptyWorld
    = Ok ([AddPlugin (pluginTemplate (hostWithProposal "v1.2.3") "/lib/core" "client"
                        "sentry.client.js" "client" clientOptions);
           AddPlugin (pluginTemplate (hostWithProposal "v1.2.3") "/lib/core" "server"
                        "sentry.server.js" "server" serverOptions);
           AddTemplate (releaseTemplate (hostWithProposal "v1.2.3") "/lib/core"
                          (VStr "v1.2.3"))], w').
Proof.
  destruct (buildHook (hostWithProposal "v1.2.3") "/lib/core" sampleResolvedOptions []
              emptyWorld) as [[calls' w']|e] eqn:Hrun; [|vm_compute in Hrun; discriminate].
  destruct (buildHook_registers _ _ _ _ _ _ _ Hrun)
    as (release & clientOptions & serverOptions & msgs & Hrel & Hcalls & _).
  exists clientOptions, serverOptions, w'. rewrite Hcalls.
  vm_compute in Hrel. inversion Hrel. reflexivity.
Defined.

(** [merge({ config: { release } }, payload)] for a payload whose
    [config] is a plain object. *)
Lemma release_under_payload release p sc r :
  NoDup (keys p) ->
  lookup "config" p = Some (VObj sc) ->
  merge [("config", VObj [("release", release)])] [VObj p] = Ok r ->
  exists config,
    get "config" r = VObj config
    /\ merge [("release", release)] [VObj sc] = Ok config.
Proof.
  intros Hnd Hk Hm. unfold merge in Hm. simpl in Hm.
  apply bind_Ok in Hm. destruct Hm as (r' & Hm & Hr). inversion Hr. subst r'. clear Hr.
  destruct (mergeFields_at _ _ _ _ _ _ Hnd Hk Hm) as (x & Hx & Hg).
  rewrite get_head, mergeValue_obj in Hx. simpl in Hx.
  apply bind_Ok in Hx. destruct Hx as (config & Hc & Hx). inversion Hx. subst x.
  exists config. split; [exact Hg|].
  unfold merge. simpl. now rewrite Hc.
Qed.

(** X18: the options the build hook gives to each plugin are the
    resolver's payload laid over the release [resolveRelease] answered:
    the plugin's [config.release] is the one of the resolver's
    configuration when that has one (a primitive other than
    [undefined]), and the automatically resolved release otherwise. *)
Theorem buildHook_release
  (h : host) (dirname : string) (moduleOptions config : obj)
  (calls calls' : list containerCall) (w w' : world) :
  wf (VObj moduleOptions) = true ->
  get "config" moduleOptions = VObj config ->
  buildHook h dirname moduleOptions calls w = Ok (calls', w') ->
  exists cpayload spayload w1 cgiven sgiven clientOptions serverOptions cfinal sfinal,
    resolveClientOptions h moduleOptions w = Ok (cpayload, w1)
    /\ resolveServerOptions h moduleOptions w1 = Ok (spayload, w')
    /\ field "config" cpayload = VObj cgiven
    /\ field "config" spayload = VObj sgiven
    /\ In (AddPlugin (pluginTemplate h dirname (pluginOptionClient moduleOptions)
                        "sentry.client.js" "client" clientOptions)) calls'
    /\ In (AddPlugin (pluginTemplate h dirname (pluginOptionServer moduleOptions)
                        "sentry.server.js" "server" serverOptions)) calls'
    /\ get "config" clientOptions = VObj cfinal
    /\ get "config" serverOptions = VObj sfinal
    /\ releaseLaidUnder (autoRelease h config) cgiven cfinal
    /\ releaseLaidUnder (autoRelease h config) sgiven sfinal.
Proof.
  intros Hwf Hc H. apply buildHook_run in H.
  destruct H as (release & cpayload & w1 & clientOptions & spayload & serverOptions
                 & Hrel & Hcp & Hcm & Hsp & Hsm & ->).
  rewrite (resolveRelease_object h moduleOptions config w Hc) in Hrel.
  inversion Hrel. subst release. clear Hrel.
  destruct (resolveClientOptions_payload _ _ _ _ _ Hwf Hcp)
    as (cc & cgiven & api & p & _ & Hspread & _ & -> & Hndp & Hkp & _).
  assert (NoDup (keys cgiven)) as Hndc.
  { apply (NoDup_spread [("dsn", get "dsn" moduleOptions)] (VObj cc));
      [apply nodupb_NoDup; reflexivity|assumption]. }
  destruct (release_under_payload _ _ _ _ Hndp Hkp Hcm) as (cfinal & Hcf & Hcr).
  destruct (resolveServerOptions_config _ _ _ _ _ Hsp)
    as (q & sgiven & msgs & -> & Hndq & Hkq & Hnds & _).
  destruct (release_under_payload _ _ _ _ Hndq Hkq Hsm) as (sfinal & Hsf & Hsr).
  exists (VObj p), (VObj q), w1, cgiven, sgiven, clientOptions, serverOptions, cfinal, sfinal.
  split; [assumption|]. split; [assumption|].
  split; [simpl; unfold get; now rewrite Hkp|].
  split; [simpl; unfold get; now rewrite Hkq|].
  split; [apply in_or_app; right; apply in_or_app; left; now left|].
  split; [apply in_or_app; right; apply in_or_app; left; right; now left|].
  split; [assumption|]. split; [assumption|].
  destruct (release_under _ _ _ Hndc Hcr) as (H1 & H2 & _).
  destruct (release_under _ _ _ Hnds Hsr) as (H3 & H4 & _).
  split; split; assumption.
Qed.

Lemma buildHook_release_witness :
  exists calls' w' clientOptions serverOptions cfinal sfinal,
    buildHook (hostWithProposal "v1.2.3") "/lib/core" sampleResolvedOptions [] emptyWorld
    = Ok (calls', w')
    /\ In (AddPlugin (pluginTemplate (hostWithProposal "v1.2.3") "/lib/core" "client"
                        "sentry.client.js" "client" clientOptions)) calls'
    /\ In (AddPlugin (pluginTemplate (hostWithProposal "v1.2.3") "/lib/core" "server"
                        "sentry.server.js" "server" serverOptions)) calls'
    /\ get "config" clientOptions = VObj cfinal
    /\ get "config" serverOptions = VObj sfinal
    /\ get "release" cfinal = VStr "v1.2.3"
    /\ get "release" sfinal = VStr "v1.2.3".
Proof.
  destruct (buildHook (hostWithProposal "v1.2.3") "/lib/core" sampleResolvedOptions []
              emptyWorld) as [[calls' w']|e] eqn:Hrun; [|vm_compute in Hrun; discriminate].
  destruct (buildHook_release (hostWithProposal "v1.2.3") "/lib/core" sampleResolvedOptions
              [("environment", VStr "production")] [] calls' emptyWorld w'
              eq_refl eq_refl Hrun)
    as (cpayload & spayload & w1 & cgiven & sgiven & clientOptions & serverOptions
        & cfinal & sfinal & Hcp & Hsp & Hcg & Hsg & Hci & Hsi & Hcf & Hsf & [Hc _] & [Hs _]).
  exists calls', w', clientOptions, serverOptions, cfinal, sfinal.
  split; [reflexivity|]. split; [exact Hci|]. split; [exact Hsi|].
  split; [exact Hcf|]. split; [exact Hsf|].
  vm_compute in Hcp. inversion Hcp. subst cpayload w1. clear Hcp.
  vm_compute in Hsp. inversion Hsp. subst spayload w'. clear Hsp.
  vm_compute in Hcg. inversion Hcg. subst cgiven.
  vm_compute in Hsg. inversion Hsg. subst sgiven.
  split; [apply Hc|apply Hs]; reflexivity.
Defined.

(** ** Defaults from the environment *)

Lemma defaults_step_flat h k v o1 :
  mergeWith [] [VObj (defaults h)] mergeWithCustomizer = Ok o1 ->
  lookup k (defaults h) = Some v ->
  flat v = true -> isUndef v = false ->
  get k o1 = v.
Proof.
  intros Hm Hk Hflat Hu. rewrite mergeWith_single in Hm.
  destruct (mergeFields_at _ _ _ _ _ _ (defaults_keys h) Hk Hm) as (x & Hx & Hg).
  assert (x = v) as ->.
  { destruct v; try discriminate; simpl in Hx; now inversion Hx. }
  rewrite Hg, Hu. reflexivity.
Qed.

(** X19: a switch that neither the top-level options nor the module
    options mention follows its environment variable: [disabled],
    [disableClientSide], [disableServerSide], [disableServerRelease] and
    [disableClientRelease] resolve to what [envToBool] makes of
    [SENTRY_DISABLED], [SENTRY_DISABLE_CLIENT_SIDE],
    [SENTRY_DISABLE_SERVER_SIDE], [SENTRY_DISABLE_SERVER_RELEASE] and
    [SENTRY_DISABLE_CLIENT_RELEASE]; [dsn] resolves to [SENTRY_DSN], and
    to the empty string when the variable is unset or empty. *)
Theorem environment_defaults (h : host) (moduleOptions : value) (options : obj) :
  resolveOptions h moduleOptions = Ok options ->
  (forall k variable,
     In (k, variable)
        [("disabled", "SENTRY_DISABLED");
         ("disableClientSide", "SENTRY_DISABLE_CLIENT_SIDE");
         ("disableServerSide", "SENTRY_DISABLE_SERVER_SIDE");
         ("disableServerRelease", "SENTRY_DISABLE_SERVER_RELEASE");
         ("disableClientRelease", "SENTRY_DISABLE_CLIENT_RELEASE")] ->
     mentions k (nuxt_sentry h) = false ->
     mentions k moduleOptions = false ->
     get k options = VBool (envToBool (env h variable)))
  /\ (mentions "dsn" (nuxt_sentry h) = false ->
      mentions "dsn" moduleOptions = false ->
      get "dsn" options
      = VStr (match env h "SENTRY_DSN" with Some s => s | None => "" end)).
Proof.
  intros Hr. rewrite resolveOptions_steps in Hr.
  apply bind_Ok in Hr. destruct Hr as (o1 & H1 & Hr).
  apply bind_Ok in Hr. destruct Hr as (o2 & H2 & Hr).
  apply bind_Ok in Hr. destruct Hr as (o3 & H3 & Hr).
  assert (forall k, k <> "publishRelease" ->
                    mentions k (nuxt_sentry h) = false ->
                    mentions k moduleOptions = false ->
                    get k options = get k o1) as Hf.
  { intros k Hk Htop Hmod.
    rewrite <- (mergeWith_one_frame _ _ _ _ k H2 (js_or_mentions _ _ Htop)).
    rewrite <- (mergeWith_one_frame _ _ _ _ k H3 Hmod).
    destruct (truthy (get "publishRelease" o3)).
    - apply bind_Ok in Hr. destruct Hr as (merged & _ & Hr). inversion Hr.
      apply get_set_ne. congruence.
    - now inversion Hr. }
  split.
  - intros k variable Hin Htop Hmod.
    simpl in Hin.
    repeat (destruct Hin as [Hin|Hin];
            [inversion Hin; subst k variable; rewrite Hf by (discriminate || assumption);
             apply (defaults_step h _ _ _ H1); simpl; now rewrite envFlag_false|]).
    contradiction.
  - intros Htop Hmod. rewrite Hf by (discriminate || assumption).
    apply (defaults_step_flat h _ _ _ H1).
    + simpl. unfold envValue, js_or. destruct (env h "SENTRY_DSN") as [s|]; simpl.
      * destruct (s =? "") eqn:E; simpl; [apply String.eqb_eq in E; now subst|reflexivity].
      * reflexivity.
    + reflexivity.
    + reflexivity.
Qed.

Lemma environment_defaults_witness :
  exists options,
    resolveOptions (hostWithEnv "SENTRY_DISABLED" "true") (VObj []) = Ok options
    /\ get "disabled" options = VBool true
    /\ get "disableServerSide" options = VBool false
    /\ get "dsn" options = VStr "".
Proof.
  destruct (resolveOptions (hostWithEnv "SENTRY_DISABLED" "true") (VObj []))
    as [options|e] eqn:Hrun; [|vm_compute in Hrun; discriminate].
  destruct (environment_defaults _ _ _ Hrun) as [Hflag Hdsn].
  exists options. split; [reflexivity|]. split; [|split].
  - apply (Hflag "disabled" "SENTRY_DISABLED"); [now left|reflexivity|reflexivity].
  - apply (Hflag "disableServerSide" "SENTRY_DISABLE_SERVER_SIDE");
      [right; right; now left|reflexivity|reflexivity].
  - apply Hdsn; reflexivity.
Defined.

(** ** Overrides from the run-time configuration *)

(** X20: the run-time configuration is only merged into [options.config]
    when [publicRuntimeConfig] is not a function, [runtimeConfigKey] is
    set and [publicRuntimeConfig] has that key; otherwise the options are
    returned as they are.  A key that is there but holds [undefined] or
    [null] ends the resolver in a [TypeError].  An entry that is an
    object has its [config] and then its [serverConfig] merged over the
    configuration. *)
Theorem runtime_config_overrides (h : host) (options : obj) :
  (isFunction (nuxt_publicRuntimeConfig h) = true
   \/ truthy (get "runtimeConfigKey" options) = false ->
   mergeRuntimeConfig h options = Ok options)
  /\ (forall prc key,
        nuxt_publicRuntimeConfig h = VObj prc ->
        get "runtimeConfigKey" options = VStr key ->
        key <> "" -> modelledKey key = true ->
        (has key prc = false -> mergeRuntimeConfig h options = Ok options)
        /\ (has key prc = true ->
            get key prc = VUndef \/ get key prc = VNull ->
            mergeRuntimeConfig h options = Err typeError_read)
        /\ (forall entry config,
              get key prc = VObj entry ->
              get "config" options = VObj config ->
              mergeRuntimeConfig h options
              = (config' <- merge config [get "config" entry; get "serverConfig" entry] ;;
                 Ok (set "config" (VObj config') options)))).
Proof.
  split.
  - intros H. unfold mergeRuntimeConfig, runtimeSources.
    destruct H as [H|H]; rewrite H; simpl; [reflexivity|].
    now rewrite andb_false_r.
  - intros prc key Hprc Hkey Hne Hmod.
    assert (truthy (VStr key) = true) as Ht by (now apply truthy_str).
    unfold mergeRuntimeConfig, runtimeSources. rewrite Hprc, Hkey, Ht, Hmod. simpl.
    split; [|split].
    + intros H. now rewrite H.
    + intros H Hv. rewrite H. now destruct Hv as [->| ->].
    + intros entry config He Hc.
      assert (has key prc = true) as H.
      { unfold has, get in *. destruct (lookup key prc); [reflexivity|discriminate]. }
      rewrite H, He. simpl. now rewrite Hc.
Qed.

Lemma runtime_config_overrides_witness :
  mergeRuntimeConfig sampleHost [("runtimeConfigKey", VStr "sentry"); ("config", VObj [])]
  = Ok [("runtimeConfigKey", VStr "sentry"); ("config", VObj [])]
  /\ mergeRuntimeConfig runtimeHost
       [("runtimeConfigKey", VStr "sentry"); ("config", VObj [("debug", VBool false)])]
     = Ok [("runtimeConfigKey", VStr "sentry");
           ("config", VObj [("debug", VBool true); ("environment", VStr "staging")])].
Proof.
  split.
  - apply (proj1 (proj2 (runtime_config_overrides sampleHost
                           [("runtimeConfigKey", VStr "sentry"); ("config", VObj [])])
                    [] "sentry" eq_refl eq_refl ltac:(discriminate) eq_refl)).
    reflexivity.
  - rewrite (proj2 (proj2 (proj2 (runtime_config_overrides runtimeHost
                                    [("runtimeConfigKey", VStr "sentry");
                                     ("config", VObj [("debug", VBool false)])])
                             [("sentry",
                               VObj [("config", VObj [("environment", VStr "staging")]);
                                     ("serverConfig", VObj [("debug", VBool true)])])]
                             "sentry" eq_refl eq_refl ltac:(discriminate) eq_refl))
               [("config", VObj [("environment", VStr "staging")]);
                ("serverConfig", VObj [("debug", VBool true)])]
               [("debug", VBool false)] eq_refl eq_refl).
    reflexivity.
Defined.

(** ** The sample rate of the server configuration *)

Lemma validateServerIntegrations_frame options w options' w' :
  validateServerIntegrations options w = Ok (options', w') ->
  forall k, k <> "serverIntegrations" -> get k options' = get k options.
Proof.
  unfold validateServerIntegrations. intros H.
  apply mbind_Ok in H. destruct H as (names & w0 & H0 & H).
  apply lift_Ok in H0. destruct H0 as [_ ->].
  destruct (dropUnrecognized_run serverUnrecognized serverWarning
              "serverIntegrations" names options w) as (o & Hrun & _ & _ & Hf).
  rewrite Hrun in H. inversion H. subst. exact Hf.
Qed.

(** The server resolver up to the tracing options. *)
Lemma resolveServerOptions_steps h moduleOptions w payload w' :
  wf (VObj moduleOptions) = true ->
  resolveServerOptions h moduleOptions w = Ok (payload, w') ->
  exists instances config0 overrides config1 traced resolved,
    merge [("dsn", get "dsn" moduleOptions); ("intergrations", VArr instances)]
          [get "config" moduleOptions; get "serverConfig" moduleOptions]
    = Ok config0
    /\ runtimeSources h moduleOptions = Ok overrides
    /\ merge config0 (match overrides with Some (rc, rs) => [rc; rs] | None => [] end)
       = Ok config1
    /\ get "config" traced = VObj config1
    /\ get "tracing" traced = get "tracing" moduleOptions
    /\ resolveTracingOptions traced = Ok resolved
    /\ field "config" payload = get "config" resolved.
Proof.
  intros Hwf H. unfold resolveServerOptions in H.
  rewrite (merge_clone _ Hwf) in H.
  apply mbind_Ok in H. destruct H as (options0 & w0 & H0 & H).
  apply lift_Ok in H0. destruct H0 as [H0 ->]. inversion H0. subst options0. clear H0.
  apply mbind_Ok in H. destruct H as (options1 & w1 & H1 & H).
  pose proof (validateServerIntegrations_frame _ _ _ _ H1) as Hf1.
  apply mbind_Ok in H. destruct H as (enabled & w2 & _ & H).
  apply mbind_Ok in H. destruct H as (instances & w3 & _ & H).
  apply mbind_Ok in H. destruct H as (config0 & w4 & H4 & H).
  apply lift_Ok in H4. destruct H4 as [Hc0 _].
  rewrite !Hf1 in Hc0 by discriminate.
  apply mbind_Ok in H. destruct H as (options3 & w5 & H5 & H).
  apply lift_Ok in H5. destruct H5 as [Hrt _].
  pose proof (mergeRuntimeConfig_frame _ _ _ Hrt) as Hf3.
  apply mbind_Ok in H. destruct H as (api & w6 & _ & H).
  apply mbind_Ok in H. destruct H as (options4 & w7 & H7 & H).
  apply resolveLazyOptions_frame in H7. destruct H7 as [Hf4 _].
  apply mbind_Ok in H. destruct H as (options5 & w8 & H8 & H).
  apply lift_Ok in H8. destruct H8 as [Htr _].
  unfold ret in H. inversion H. subst payload. clear H.
  unfold mergeRuntimeConfig in Hrt.
  rewrite (runtimeSources_ext h _ moduleOptions) in Hrt
    by (rewrite get_set_ne by discriminate; apply Hf1; discriminate).
  apply bind_Ok in Hrt. destruct Hrt as (overrides & Hov & Hrt).
  assert (exists config1,
            merge config0 (match overrides with Some (rc, rs) => [rc; rs] | None => [] end)
            = Ok config1
            /\ get "config" options3 = VObj config1) as (config1 & Hc1 & Hg3).
  { destruct overrides as [[rc rs]|].
    - rewrite get_set_eq in Hrt. apply bind_Ok in Hrt. destruct Hrt as (c1 & Hc1 & Hrt).
      inversion Hrt. exists c1. split; [assumption|apply get_set_eq].
    - inversion Hrt. subst options3. exists config0. split; [reflexivity|apply get_set_eq]. }
  exists instances, config0, overrides, config1, options4, options5.
  split; [exact Hc0|]. split; [exact Hov|]. split; [exact Hc1|].
  split; [rewrite Hf4 by discriminate; exact Hg3|].
  split.
  { rewrite Hf4, Hf3 by discriminate. rewrite get_set_ne by discriminate.
    apply Hf1. discriminate. }
  split; [exact Htr|]. simpl. now rewrite get_head.
Qed.

(** X21: unlike the client configuration, the configuration the server
    resolver returns does get the sample rate of the tracing options.
    With [config1] the merge of [{dsn, intergrations}], [config],
    [serverConfig] and the run-time overrides: while [tracing] is falsy
    the returned configuration is [config1]; with [tracing] set its
    [tracesSampleRate] is the one of [config1] when that is truthy, and
    otherwise the rate of the tracing options, [1] for [tracing: true]. *)
Theorem server_sample_rate
  (h : host) (moduleOptions : obj) (w w' : world) (payload : value) :
  wf (VObj moduleOptions) = true ->
  resolveServerOptions h moduleOptions w = Ok (payload, w') ->
  exists instances config0 overrides config1 config,
    merge [("dsn", get "dsn" moduleOptions); ("intergrations", VArr instances)]
          [get "config" moduleOptions; get "serverConfig" moduleOptions]
    = Ok config0
    /\ runtimeSources h moduleOptions = Ok overrides
    /\ merge config0 (match overrides with Some (rc, rs) => [rc; rs] | None => [] end)
       = Ok config1
    /\ field "config" payload = VObj config
    /\ (truthy (get "tracing" moduleOptions) = false -> config = config1)
    /\ (get "tracing" moduleOptions = VBool true ->
        get "tracesSampleRate" config
        = if truthy (get "tracesSampleRate" config1)
          then get "tracesSampleRate" config1 else VNum 1)
    /\ (forall given rate,
          get "tracing" moduleOptions = VObj given ->
          lookup "tracesSampleRate" given = Some rate ->
          flat rate = true -> isUndef rate = false ->
          get "tracesSampleRate" config
          = if truthy (get "tracesSampleRate" config1)
            then get "tracesSampleRate" config1 else rate).
Proof.
  intros Hwf H.
  destruct (resolveServerOptions_steps _ _ _ _ _ Hwf H)
    as (instances & config0 & overrides & config1 & traced & resolved
        & Hc0 & Hov & Hc1 & Hg & Ht & Htr & Hp).
  destruct (truthy (get "tracing" moduleOptions)) eqn:Etr.
  - rewrite <- Ht in Etr.
    destruct (resolveTracingOptions_rate _ _ _ Hg Htr Etr)
      as (tracing & config & Hm & _ & Hcfg & Hrate & _).
    rewrite Ht in Hm.
    exists instances, config0, overrides, config1, config.
    split; [assumption|]. split; [assumption|]. split; [assumption|].
    split; [now rewrite Hp|]. split; [discriminate|]. split.
    + intros Hb. rewrite Hrate. rewrite Hb in Hm. simpl in Hm. now inversion Hm.
    + intros given rate Hgv Hk Hflat Hu. rewrite Hrate.
      rewrite Hgv in Hm. simpl isBoolean in Hm. cbv iota in Hm.
      rewrite (tracing_merge_rate given rate tracing); try assumption; [reflexivity|].
      pose proof (get_wf "tracing" _ Hwf) as Hwg. rewrite Hgv in Hwg.
      now apply wf_obj in Hwg.
  - assert (resolved = traced) as ->.
    { unfold resolveTracingOptions in Htr. rewrite Ht, Etr in Htr. now inversion Htr. }
    exists instances, config0, overrides, config1, config1.
    split; [assumption|]. split; [assumption|]. split; [assumption|].
    split; [now rewrite Hp|]. split; [reflexivity|]. split.
    + intros Hb. rewrite Hb in Etr. discriminate.
    + intros given rate Hgv. rewrite Hgv in Etr. discriminate.
Qed.

Lemma server_sample_rate_witness :
  exists payload w' config,
    resolveServerOptions sampleHost sampleTracedServer emptyWorld = Ok (payload, w')
    /\ field "config" payload = VObj config
    /\ get "tracesSampleRate" config = VNum 1.
Proof.
  destruct (resolveServerOptions sampleHost sampleTracedServer emptyWorld)
    as [[payload w']|e] eqn:Hrun; [|vm_compute in Hrun; discriminate].
  destruct (server_sample_rate sampleHost sampleTracedServer emptyWorld w' payload
              eq_refl Hrun)
    as (instances & config0 & overrides & config1 & config
        & Hc0 & Hov & Hc1 & Hcfg & _ & Hon & _).
  exists payload, w', config. split; [reflexivity|]. split; [assumption|].
  rewrite (Hon eq_refl).
  vm_compute in Hov. inversion Hov. subst overrides. simpl in Hc1. inversion Hc1.
  subst config1.
  rewrite (mergeAll_frame None "tracesSampleRate" _ _ _ Hc0); [reflexivity|].
  repeat constructor.
Defined.

(** ** Nothing configured *)

(** X22: with no top-level options and no module options (absent, or
    empty objects), [setup] resolves to the defaults as they are, key for
    key and in their order; only [publishRelease] becomes the default
    publishing options when [SENTRY_PUBLISH_RELEASE] asks for
    publishing. *)
Theorem nothing_configured (h : host) (moduleOptions : value) :
  isBoolean (nuxt_dev h) = true ->
  truthy (nuxt_sentry h) = false \/ nuxt_sentry h = VObj [] ->
  truthy moduleOptions = false \/ moduleOptions = VObj [] ->
  resolveOptions h moduleOptions
  = Ok (if envToBool (env h "SENTRY_PUBLISH_RELEASE")
        then set "publishRelease" (VObj defaultsPublishRelease) (defaults h)
        else defaults h).
Proof.
  intros Hdev Htop Hmod. rewrite resolveOptions_steps.
  rewrite mergeWith_single.
  rewrite (mergeFields_clone _ _ quietOnUndef_customizer (defaults_wf h Hdev)).
  cbn [bind].
  assert ((nuxt_sentry h ||| VObj [])%js = VObj []) as ->.
  { unfold js_or. destruct Htop as [->| ->]; reflexivity. }
  unfold mergeWith at 1. simpl mergeAll. cbn [bind].
  assert (mergeWith (defaults h) [moduleOptions] mergeWithCustomizer = Ok (defaults h))
    as ->.
  { unfold mergeWith. simpl mergeAll. destruct Hmod as [->| ->]; reflexivity. }
  cbn [bind].
  assert (get "publishRelease" (defaults h)
          = VBool (envToBool (env h "SENTRY_PUBLISH_RELEASE"))) as Hp.
  { unfold get. simpl. now rewrite envFlag_false. }
  rewrite Hp. simpl truthy.
  destruct (envToBool (env h "SENTRY_PUBLISH_RELEASE")); reflexivity.
Qed.

Lemma nothing_configured_witness :
  resolveOptions sampleHost (VObj []) = Ok (defaults sampleHost)
  /\ resolveOptions (hostWithEnv "SENTRY_PUBLISH_RELEASE" "true") VUndef
     = Ok (set "publishRelease" (VObj defaultsPublishRelease)
             (defaults (hostWithEnv "SENTRY_PUBLISH_RELEASE" "true"))).
Proof.
  split.
  - apply (nothing_configured sampleHost (VObj [])); [reflexivity|now left|now right].
  - apply (nothing_configured (hostWithEnv "SENTRY_PUBLISH_RELEASE" "true") VUndef);
      [reflexivity|now left|now left].
Defined.

(** ** Arrays: concatenated by [setup], laid index by index by the resolvers *)

Lemma mergeElems_flat : forall ys xs,
  Forall (fun y => flat y = true) ys -> mergeElems None xs ys = Ok (overlay xs ys).
Proof.
  induction ys as [|y ys IH]; intros xs Hf; [reflexivity|].
  inversion Hf as [|? ? Hy Hys]. subst.
  destruct xs as [|x xs]; simpl; fold (mergeElems None);
    rewrite (mergeValue_flat_source _ _ Hy); cbn [bind];
    rewrite (IH _ Hys); reflexivity.
Qed.

Lemma get_lookup k (o : obj) v : get k o = v -> isUndef v = false -> lookup k o = Some v.
Proof. unfold get. destruct (lookup k o); intros <-; [reflexivity|discriminate]. Qed.

(** [merge(object, shared, overlay)] where the object lacks a key at
    which both sources hold an array. *)
Lemma merge_two_arrays object shared over k xs ys r :
  wf (VObj shared) = true -> wf (VObj over) = true ->
  lookup k object = None ->
  get k shared = VArr xs -> get k over = VArr ys ->
  Forall (fun y => flat y = true) ys ->
  merge object [VObj shared; VObj over] = Ok r ->
  get k r = VArr (overlay xs ys).
Proof.
  intros Hws Hwo Hk Hxs Hys Hflat H. unfold merge in H.
  change (mergeAll None object [VObj shared; VObj over])
    with (o1 <- mergeFields None object shared ;;
          o2 <- mergeFields None o1 over ;; Ok o2) in H.
  apply bind_Ok in H. destruct H as (o1 & H1 & H).
  apply bind_Ok in H. destruct H as (o2 & H2 & H). inversion H. subst o2.
  pose proof (get_wf k _ Hws) as Hwx. rewrite Hxs in Hwx.
  apply wf_obj in Hws. destruct Hws as (Hnds & _ & _).
  apply wf_obj in Hwo. destruct Hwo as (Hndo & _ & _).
  destruct (mergeFields_at _ _ _ _ _ _ Hnds (get_lookup _ _ _ Hxs eq_refl) H1)
    as (v1 & Hv1 & Hg1).
  assert (get k object = VUndef) as Hu by (unfold get; now rewrite Hk).
  rewrite Hu, (mergeValue_clone None quietOnUndef_None _ Hwx) in Hv1.
  inversion Hv1. subst v1. simpl in Hg1.
  destruct (mergeFields_at _ _ _ _ _ _ Hndo (get_lookup _ _ _ Hys eq_refl) H2)
    as (v2 & Hv2 & Hg2).
  rewrite Hg1, mergeValue_arr in Hv2. simpl in Hv2.
  rewrite (mergeElems_flat _ _ Hflat) in Hv2. simpl in Hv2.
  inversion Hv2. subst v2. exact Hg2.
Qed.

Lemma getPath_two k1 k2 (o : obj) v :
  getPath [k1; k2] (VObj o) = v -> isUndef v = false ->
  exists inner, get k1 o = VObj inner /\ get k2 inner = v.
Proof.
  simpl. destruct (get k1 o); simpl; intros <-; try discriminate. eauto.
Qed.

(** The client resolver lays the array of the client overlay over the
    array of the shared configuration. *)
Lemma resolveClientOptions_arrays h moduleOptions w payload w' k xs ys :
  wf (VObj moduleOptions) = true ->
  getPath ["config"; k] (VObj moduleOptions) = VArr xs ->
  getPath ["clientConfig"; k] (VObj moduleOptions) = VArr ys ->
  Forall (fun y => flat y = true) ys ->
  resolveClientOptions h moduleOptions w = Ok (payload, w') ->
  getPath ["config"; k] payload = VArr (overlay xs ys).
Proof.
  intros Hwf Hxs Hys Hflat H.
  destruct (resolveClientOptions_payload _ _ _ _ _ Hwf H)
    as (cc & config & api & p & Hcc & Hsp & _ & -> & _ & Hc & _).
  destruct (getPath_two _ _ _ _ Hxs eq_refl) as (shared & Hs & Hsx).
  destruct (getPath_two _ _ _ _ Hys eq_refl) as (over & Ho & Hoy).
  rewrite Hs, Ho in Hcc.
  pose proof (get_wf "config" _ Hwf) as Hws. rewrite Hs in Hws.
  pose proof (get_wf "clientConfig" _ Hwf) as Hwo. rewrite Ho in Hwo.
  pose proof (merge_two_arrays [] shared over k xs ys cc Hws Hwo eq_refl Hsx Hoy Hflat Hcc)
    as Hk.
  assert (wf (VObj cc) = true) as Hwc.
  { apply (wf_mergeAll None wfCustomizer_None [VObj shared; VObj over] [] cc);
      [reflexivity| |exact Hcc].
    repeat constructor; assumption. }
  apply wf_obj in Hwc. destruct Hwc as (Hnd & Hmk & _).
  simpl in Hsp. rewrite Hmk in Hsp. inversion Hsp. subst config. clear Hsp.
  simpl. unfold get at 1. rewrite Hc. simpl.
  rewrite (get_fold_set k cc _ Hnd), (get_lookup _ _ _ Hk eq_refl). reflexivity.
Qed.

(** The server resolver does the same with the server overlay, as long
    as no run-time configuration is merged on top. *)
Lemma resolveServerOptions_arrays h moduleOptions w payload w' k xs ys :
  wf (VObj moduleOptions) = true ->
  runtimeSources h moduleOptions = Ok None ->
  k <> "dsn" -> k <> "intergrations" -> k <> "tracesSampleRate" ->
  getPath ["config"; k] (VObj moduleOptions) = VArr xs ->
  getPath ["serverConfig"; k] (VObj moduleOptions) = VArr ys ->
  Forall (fun y => flat y = true) ys ->
  resolveServerOptions h moduleOptions w = Ok (payload, w') ->
  getPath ["config"; k] payload = VArr (overlay xs ys).
Proof.
  intros Hwf Hrt Hk1 Hk2 Hk3 Hxs Hys Hflat H.
  destruct (resolveServerOptions_steps _ _ _ _ _ Hwf H)
    as (instances & config0 & overrides & config1 & traced & resolved
        & Hc0 & Hov & Hc1 & Hg & _ & Htr & Hp).
  rewrite Hrt in Hov. inversion Hov. subst overrides. clear Hov.
  inversion Hc1. subst config1. clear Hc1.
  destruct (getPath_two _ _ _ _ Hxs eq_refl) as (shared & Hs & Hsx).
  destruct (getPath_two _ _ _ _ Hys eq_refl) as (over & Ho & Hoy).
  rewrite Hs, Ho in Hc0.
  pose proof (get_wf "config" _ Hwf) as Hws. rewrite Hs in Hws.
  pose proof (get_wf "serverConfig" _ Hwf) as Hwo. rewrite Ho in Hwo.
  assert (lookup k [("dsn", get "dsn" moduleOptions); ("intergrations", VArr instances)]
          = None) as Hl.
  { apply lookup_None_keys. simpl. intros [E|[E|[]]]; congruence. }
  pose proof (merge_two_arrays _ shared over k xs ys config0 Hws Hwo Hl Hsx Hoy Hflat Hc0)
    as Hk.
  destruct (resolveTracingOptions_config _ _ _ Htr Hg) as (config & Hc & Hsame).
  change (getPath ["config"; k] payload) with (field k (field "config" payload)).
  rewrite Hp, Hc. simpl. rewrite (Hsame k Hk3). exact Hk.
Qed.

Lemma isUndef_true v : isUndef v = true -> v = VUndef.
Proof. destruct v; simpl; intros H; try discriminate; reflexivity. Qed.

Lemma overlay_length : forall ys xs,
  List.length (overlay xs ys) = Nat.max (List.length xs) (List.length ys).
Proof.
  induction ys as [|y ys IH]; intros xs; simpl.
  - now rewrite Nat.max_0_r.
  - destruct xs as [|x xs]; simpl; now rewrite IH.
Qed.

Lemma overlay_nth : forall ys xs i,
  nth i (overlay xs ys) VUndef
  = if isUndef (nth i ys VUndef) then nth i xs VUndef else nth i ys VUndef.
Proof.
  induction ys as [|y ys IH]; intros xs i; simpl.
  - now destruct i.
  - destruct xs as [|x xs]; destruct i as [|i]; simpl.
    + destruct (isUndef y) eqn:E; [now apply isUndef_true|reflexivity].
    + rewrite IH. now destruct i.
    + reflexivity.
    + apply IH.
Qed.

(** C3, amended: the two merges of [setup] -- the chain of defaults,
    top-level options and module options, and the release-publishing
    options over their defaults -- are sequences of [mergeWith] steps
    carrying the customizer; in every such step, wherever the destination
    and the source both hold an array at the same key (at any depth of
    plain objects), the merged object holds the destination's array
    followed by the source's; and so, in the chain, an array of the
    top-level options and an array of the module options at the same key
    end up concatenated.  The option resolvers merge without the
    customizer.  Where the shared configuration and the overlay both hold
    an array at a key, the overlay's holding primitive elements, the
    client resolver returns the overlay laid over the shared array index
    by index: the result is as long as the longer of the two, and holds
    at each index the overlay's element unless that is missing or
    [undefined], the shared array's element then.  The server resolver
    does the same with the server overlay, for keys other than [dsn],
    [intergrations] and [tracesSampleRate] and without run-time
    configuration. *)
Theorem setup_merges_concatenate :
  (forall h moduleOptions,
     resolveOptions h moduleOptions =
     (o1 <- mergeWith [] [VObj (defaults h)] mergeWithCustomizer ;;
      o2 <- mergeWith o1 [(nuxt_sentry h ||| VObj [])%js] mergeWithCustomizer ;;
      o3 <- mergeWith o2 [moduleOptions] mergeWithCustomizer ;;
      if truthy (get "publishRelease" o3) then
        merged <- mergeWith defaultsPublishRelease [get "publishRelease" o3]
                    mergeWithCustomizer ;;
        Ok (set "publishRelease" (VObj merged) o3)
      else Ok o3))
  /\ (forall (object source merged : obj) (path : list string) (xs ys : list value),
        wf (VObj source) = true ->
        path <> [] ->
        getPath path (VObj object) = VArr xs ->
        getPath path (VObj source) = VArr ys ->
        mergeWith object [VObj source] mergeWithCustomizer = Ok merged ->
        getPath path (VObj merged) = VArr (xs ++ ys))
  /\ (forall h (top moduleOptions options : obj) (path : list string)
             (xs ys : list value),
        isBoolean (nuxt_dev h) = true ->
        nuxt_sentry h = VObj top ->
        wf (VObj top) = true ->
        wf (VObj moduleOptions) = true ->
        path <> [] ->
        getPath path (VObj top) = VArr xs ->
        getPath path (VObj moduleOptions) = VArr ys ->
        mergedOptions h (VObj moduleOptions) = Ok options ->
        getPath path (VObj options) = VArr (xs ++ ys))
  /\ (forall h (moduleOptions : obj) (w w' : world) (payload : value) (k : string)
             (xs ys : list value),
        wf (VObj moduleOptions) = true ->
        getPath ["config"; k] (VObj moduleOptions) = VArr xs ->
        getPath ["clientConfig"; k] (VObj moduleOptions) = VArr ys ->
        Forall (fun y => flat y = true) ys ->
        resolveClientOptions h moduleOptions w = Ok (payload, w') ->
        getPath ["config"; k] payload = VArr (overlay xs ys))
  /\ (forall h (moduleOptions : obj) (w w' : world) (payload : value) (k : string)
             (xs ys : list value),
        wf (VObj moduleOptions) = true ->
        runtimeSources h moduleOptions = Ok None ->
        k <> "dsn" -> k <> "intergrations" -> k <> "tracesSampleRate" ->
        getPath ["config"; k] (VObj moduleOptions) = VArr xs ->
        getPath ["serverConfig"; k] (VObj moduleOptions) = VArr ys ->
        Forall (fun y => flat y = true) ys ->
        resolveServerOptions h moduleOptions w = Ok (payload, w') ->
        getPath ["config"; k] payload = VArr (overlay xs ys))
  /\ (forall xs ys : list value,
        List.length (overlay xs ys) = Nat.max (List.length xs) (List.length ys)
        /\ forall i,
             nth i (overlay xs ys) VUndef
             = if isUndef (nth i ys VUndef) then nth i xs VUndef else nth i ys VUndef).
Proof.
  split; [apply resolveOptions_steps|]. split.
  { intros object source merged path xs ys Hwf Hne Ho Hs Hm.
    rewrite mergeWith_single in Hm.
    rewrite (mergeFields_path path object source merged ys Hne Hwf
               (getPath_array_pathClear _ _ _ Ho)); [now rewrite Ho| |exact Hm|exact Hs].
    intros o' Ho'. rewrite Ho in Ho'. discriminate. }
  split; [apply mergedOptions_concatenate|].
  split; [intros h moduleOptions w w' payload; apply resolveClientOptions_arrays|].
  split; [intros h moduleOptions w w' payload; apply resolveServerOptions_arrays|].
  intros xs ys. split; [apply overlay_length|apply overlay_nth].
Qed.

Lemma setup_merges_concatenate_witness :
  getPath ["include"]
    (VObj [("include", VArr [VStr "node_modules"; VStr "dist"])])
  = VArr ([VStr "node_modules"] ++ [VStr "dist"])
  /\ (exists options,
        mergedOptions
          (hostWithTopLevel (VObj [("config", VObj [("ignoreErrors", VArr [VStr "a"])])]))
          (VObj [("config", VObj [("ignoreErrors", VArr [VStr "b"])])]) = Ok options
        /\ getPath ["config"; "ignoreErrors"] (VObj options)
           = VArr ([VStr "a"] ++ [VStr "b"]))
  /\ (exists payload w',
        resolveClientOptions sampleHost sampleSharedArrays emptyWorld = Ok (payload, w')
        /\ getPath ["config"; "include"] payload = VArr [VStr "b"; VStr "x"; VStr "y"])
  /\ (exists payload w',
        resolveServerOptions sampleHost sampleSharedArrays emptyWorld = Ok (payload, w')
        /\ getPath ["config"; "include"] payload = VArr [VStr "b"; VStr "x"; VStr "y"]).
Proof.
  split; [|split; [|split]].
  - apply (proj1 (proj2 setup_merges_concatenate)
             [("include", VArr [VStr "node_modules"])] [("include", VArr [VStr "dist"])]
             [("include", VArr [VStr "node_modules"; VStr "dist"])] ["include"]);
      try reflexivity.
    discriminate.
  - destruct (mergedOptions
                (hostWithTopLevel
                   (VObj [("config", VObj [("ignoreErrors", VArr [VStr "a"])])]))
                (VObj [("config", VObj [("ignoreErrors", VArr [VStr "b"])])]))
      as [options|e] eqn:Hrun.
    2:{ vm_compute in Hrun. discriminate. }
    exists options. split; [reflexivity|].
    apply (proj1 (proj2 (proj2 setup_merges_concatenate))
             (hostWithTopLevel
                (VObj [("config", VObj [("ignoreErrors", VArr [VStr "a"])])]))
             [("config", VObj [("ignoreErrors", VArr [VStr "a"])])]
             [("config", VObj [("ignoreErrors", VArr [VStr "b"])])]
             options ["config"; "ignoreErrors"]);
      try reflexivity; [discriminate|exact Hrun].
  - destruct (resolveClientOptions sampleHost sampleSharedArrays emptyWorld)
      as [[payload w']|e] eqn:Hrun.
    2:{ vm_compute in Hrun. discriminate. }
    exists payload, w'. split; [reflexivity|].
    apply (proj1 (proj2 (proj2 (proj2 setup_merges_concatenate)))
             sampleHost sampleSharedArrays emptyWorld w' payload "include"
             [VStr "a"; VStr "x"; VStr "y"] [VStr "b"]);
      try reflexivity; [|exact Hrun].
    repeat constructor.
  - destruct (resolveServerOptions sampleHost sampleSharedArrays emptyWorld)
      as [[payload w']|e] eqn:Hrun.
    2:{ vm_compute in Hrun. discriminate. }
    exists payload, w'. split; [reflexivity|].
    apply (proj1 (proj2 (proj2 (proj2 (proj2 setup_merges_concatenate))))
             sampleHost sampleSharedArrays emptyWorld w' payload "include"
             [VStr "a"; VStr "x"; VStr "y"] [VStr "b"]);
      try reflexivity; try discriminate; [|exact Hrun].
    repeat constructor.
Defined.

(** C3, as stated, fails in the option resolvers, which merge without the
    customizer: with [config = {include: ['a', 'x', 'y']}] and the
    overlays [clientConfig = serverConfig = {include: ['b']}] the client
    and the server configuration both end with
    [include: ['b', 'x', 'y']], not with [['a', 'x', 'y', 'b']]. *)
Lemma resolver_merge_replaces :
  (exists payload w,
     resolveClientOptions sampleHost sampleSharedArrays emptyWorld = Ok (payload, w)
     /\ getPath ["config"; "include"] payload = VArr [VStr "b"; VStr "x"; VStr "y"]
     /\ getPath ["config"; "include"] payload
        <> VArr ([VStr "a"; VStr "x"; VStr "y"] ++ [VStr "b"]))
  /\ (exists payload w,
        resolveServerOptions sampleHost sampleSharedArrays emptyWorld = Ok (payload, w)
        /\ getPath ["config"; "include"] payload = VArr [VStr "b"; VStr "x"; VStr "y"]
        /\ getPath ["config"; "include"] payload
           <> VArr ([VStr "a"; VStr "x"; VStr "y"] ++ [VStr "b"])).
Proof.
  split; eexists; eexists; (split; [vm_compute; reflexivity|]);
    (split; [reflexivity|discriminate]).
Qed.

(** An array-like object of the shared configuration under an array of
    the overlay is first copied as an array of its [length]:
    [{breadcrumbs: {length: 2}}] under [{breadcrumbs: ['a']}] gives
    [['a', undefined]]. *)
Example array_like_destination :
  exists payload w,
    resolveClientOptions sampleHost sampleArrayLike emptyWorld = Ok (payload, w)
    /\ getPath ["config"; "breadcrumbs"] payload = VArr [VStr "a"; VUndef].
Proof. eexists. eexists. split; [vm_compute; reflexivity|reflexivity]. Qed.
